(** * pull_nyc_rent.py: ACS5 median gross rent -> NTA -> CPI-adjusted GeoJSON

    A shallow embedding of the pipeline of [src/pull_nyc_rent.py] and the
    properties its specification states about it.

    Conventions of the embedding.
    - A pandas [DataFrame] is the list of its rows, in row order; a column of
      dtype float64 holds binary64 values ([PrimFloat.float]) and its missing
      value is NaN, as in pandas.  A nullable object column is an [option].
    - A Python exception is a value of [exn]; a function that may raise
      returns a [result].
    - Code that prints, touches the file system or the network runs in the
      monad [M]: a state (file system, trace of side effects) is threaded
      through, and an exception keeps the state reached when it was raised.
    - Library calls whose result does not follow from the program text
      (the spatial predicate, reprojection, numeric parsing of a string, the
      remote servers) are parameters, gathered in [Lib] and [Net]. *)

From Stdlib Require Import ZArith List String Ascii Bool Lia Floats DecimalString.
From Stdlib Require Import Permutation Sorted.
Import ListNotations.

Open Scope string_scope.
Open Scope Z_scope.

(* ------------------------------------------------------------------------- *)
(** ** Constants (module level of the source) *)

Definition NYC_COUNTIES : list string := ["005"; "047"; "061"; "081"; "085"].
Definition STATE_FIPS : string := "36".
Definition TABLE : string := "B25064".
Definition VAR_NAME : string := "B25064_001E".

(* ------------------------------------------------------------------------- *)
(** ** Strings and numbers as Python formats them *)

(** [str(int)] and the [{y}] of an f-string. *)
Definition string_of_Z (z : Z) : string := NilZero.string_of_int (Z.to_int z).

Definition newline : string := String (ascii_of_nat 10) "".

(** [s.endswith(suffix)]. *)
Definition ends_with (suffix s : string) : bool :=
  let n := String.length s in
  let k := String.length suffix in
  (k <=? n)%nat && String.eqb (substring (n - k) k s) suffix.

(** Whether a character occurs in a string. *)
Fixpoint has_char (c : ascii) (s : string) : bool :=
  match s with
  | EmptyString => false
  | String d s' => Ascii.eqb c d || has_char c s'
  end.

(** [txt[:n]]. *)
Definition take_chars (n : nat) (s : string) : string := substring 0 n s.

(** The [{n:,}] format of a non-negative count: decimal digits in groups of
    three, separated by commas. *)
Fixpoint group3_rev (ds : list ascii) : list ascii :=
  match ds with
  | a :: b :: c :: ((_ :: _) as rest) => a :: b :: c :: ","%char :: group3_rev rest
  | _ => ds
  end.

Definition with_commas (n : nat) : string :=
  string_of_list_ascii
    (rev (group3_rev (rev (list_ascii_of_string (string_of_Z (Z.of_nat n)))))).

(** [range(start, stop)] over the integers. *)
Definition range (start stop : Z) : list Z :=
  map (fun i => start + Z.of_nat i) (seq 0 (Z.to_nat (stop - start))).

(** float64 NaN, pandas' missing value. *)
Definition NaN : float := PrimFloat.nan.
Definition notna (x : float) : bool := negb (PrimFloat.is_nan x).

(** A finite, non-zero binary64 value (neither a zero, an infinity nor NaN). *)
Definition is_finite_nonzero (x : float) : bool :=
  match Prim2SF x with
  | S754_finite _ _ _ => true
  | _ => false
  end.

(* ------------------------------------------------------------------------- *)
(** ** Generic list helpers *)

(** Insertion sort by a boolean order; used for pandas' sorted group keys and
    for the order statistics of the median. *)
Fixpoint insert_by {A} (leb : A -> A -> bool) (x : A) (l : list A) : list A :=
  match l with
  | [] => [x]
  | y :: l' => if leb x y then x :: l else y :: insert_by leb x l'
  end.

Definition sort_by {A} (leb : A -> A -> bool) (l : list A) : list A :=
  fold_right (insert_by leb) [] l.

(** First occurrences only, in order ([drop_duplicates], [unique]). *)
Fixpoint dedup {A} (eqb : A -> A -> bool) (l : list A) : list A :=
  match l with
  | [] => []
  | x :: l' => x :: filter (fun y => negb (eqb x y)) (dedup eqb l')
  end.

Definition option_eqb {A} (eqb : A -> A -> bool) (a b : option A) : bool :=
  match a, b with
  | Some x, Some y => eqb x y
  | None, None => true
  | _, _ => false
  end.

(* ------------------------------------------------------------------------- *)
(** ** Exceptions and results *)

Inductive exn : Type :=
| HTTPError (msg : string)         (* requests.HTTPError, from raise_for_status *)
| ConnectionError (msg : string)   (* requests.ConnectionError: transport failure *)
| Timeout (msg : string)           (* requests.Timeout: no answer within the bound *)
| JSONDecodeError (msg : string)   (* r.json() on a body that is not JSON *)
| ValueError (msg : string)
| TypeError (msg : string)
| KeyError (key : string)           (* the key as [repr] shows it *)
| IndexError (msg : string)
| BadZipFile (msg : string)
| OSError (msg : string)
| UnicodeEncodeError (msg : string). (* sys.stdout cannot encode a character *)

Inductive result (A : Type) : Type :=
| Ok (a : A)
| Raise (e : exn).
Arguments Ok {A} a.
Arguments Raise {A} e.

(** [except requests.HTTPError]: of the exceptions above only [HTTPError] is
    an instance of that class ([ConnectionError], [Timeout] and requests'
    [JSONDecodeError] derive from [RequestException], not from [HTTPError]). *)
Definition is_HTTPError (e : exn) : bool :=
  match e with
  | HTTPError _ => true
  | _ => false
  end.

(** [str(e)], as the warning line formats it. *)
Definition exn_str (e : exn) : string :=
  match e with
  | HTTPError m | ConnectionError m | Timeout m | JSONDecodeError m
  | ValueError m | TypeError m | IndexError m | BadZipFile m | OSError m
  | UnicodeEncodeError m => m
  | KeyError k => k
  end.

Definition is_ok {A} (r : result A) : bool :=
  match r with
  | Ok _ => true
  | Raise _ => false
  end.

(* ------------------------------------------------------------------------- *)
(** ** Tables of the pipeline *)

(** A cell of the statistics API's JSON table: a string or [null]. *)
Inductive json_cell : Type :=
| JNull
| JStr (s : string).

(** Tract-year rent record: columns [geoid], [year], [B25064_001E]. *)
Record rent_row : Type := mkRent {
  geoid : option string;
  year : Z;
  estimate : float
}.

(** Crosswalk entry: columns [GEOID], [nta_code], [nta_name]; the two unit
    columns are NaN for a tract the left spatial join matched with nothing. *)
Record cross_row : Type := mkCross {
  GEOID : string;
  nta_code : option string;
  nta_name : option string
}.

(** Unit-year aggregate: [nta_code], [nta_name], [year], [B25064_001E]. *)
Record nta_year_row : Type := mkNtaYear {
  ny_code : string;
  ny_name : string;
  ny_year : Z;
  ny_rent : float
}.

(** Unit-year aggregate with the added column [rent_adj]. *)
Record adj_row : Type := mkAdj {
  adj_code : string;
  adj_name : string;
  adj_year : Z;
  adj_rent : float;
  rent_adj : float
}.

(** Wide table: the year columns, and per unit one cell per year column. *)
Record wide_row : Type := mkWideRow {
  w_code : string;
  w_name : string;
  w_cells : list float
}.

Record wide_table : Type := mkWide {
  wide_years : list Z;
  wide_rows : list wide_row
}.

(** A (multi-)polygon table with its coordinate reference. *)
Record tract_row (G : Type) : Type := mkTract {
  t_GEOID : string;
  t_geometry : G
}.
Arguments mkTract {G}.
Arguments t_GEOID {G}.
Arguments t_geometry {G}.

Record nta_row (G : Type) : Type := mkNta {
  n_code : string;
  n_name : string;
  n_geometry : G
}.
Arguments mkNta {G}.
Arguments n_code {G}.
Arguments n_name {G}.
Arguments n_geometry {G}.

Record geoframe (R : Type) : Type := mkGeo {
  crs : string;
  grows : list R
}.
Arguments mkGeo {R}.
Arguments crs {R}.
Arguments grows {R}.

(** A record of the TIGER shapefile: the attributes the program reads. *)
Record shp_record (G : Type) : Type := mkShp {
  shp_GEOID : string;
  shp_COUNTYFP : string;
  shp_geometry : G
}.
Arguments mkShp {G}.
Arguments shp_GEOID {G}.
Arguments shp_COUNTYFP {G}.
Arguments shp_geometry {G}.

(** An output feature.  The left merge of the unit geometry with the wide
    table on [nta_code] alone keeps both name columns ([nta_name_x] from the
    geometry, [nta_name_y] from the wide table, NaN without a match). *)
Record feature (G : Type) : Type := mkFeature {
  f_code : string;
  f_name_x : string;
  f_name_y : option string;
  f_geometry : G;
  f_rents : list (string * float)
}.
Arguments mkFeature {G}.
Arguments f_code {G}.
Arguments f_name_x {G}.
Arguments f_name_y {G}.
Arguments f_geometry {G}.
Arguments f_rents {G}.

(* ------------------------------------------------------------------------- *)
(** ** The world: files, network, side effects *)

(** What a file holds, as the library call that reads it sees it. *)
Inductive file_data (G : Type) : Type :=
| Shapefile (records : list (shp_record G))
| CpiCsv (rows : list (Z * float))       (* a CSV with columns year,cpi *)
| GeoJSON (epsg : string) (features : list (feature G))
| Raw (bytes : string).
Arguments Shapefile {G}.
Arguments CpiCsv {G}.
Arguments GeoJSON {G}.
Arguments Raw {G}.

(** A file is plain data or a ZIP archive of named members. *)
Inductive content (G : Type) : Type :=
| Plain (d : file_data G)
| ZipArchive (members : list (string * file_data G)).
Arguments Plain {G}.
Arguments ZipArchive {G}.

Record filesystem (G : Type) : Type := mkFs {
  dirs : list string;
  files : list (string * content G)      (* in directory order *)
}.
Arguments mkFs {G}.
Arguments dirs {G}.
Arguments files {G}.

(** An HTTP response as [requests] presents it.  [json] is what [r.json()]
    decodes from the body: [None] when the body is not JSON; [payload] is the
    body as a file would hold it.  [broken] concerns a body read as a stream
    ([stream=True], [iter_content]): [None] when it arrives whole, or the
    part received and the transport exception that ends the iteration.  (A
    request that reads its body at once raises in [requests.get] instead:
    the server then answers with that exception.) *)
Record response (G : Type) : Type := mkResp {
  status_code : Z;
  reason : string;
  url : string;
  text : string;
  json : option (list (list json_cell));
  payload : content G;
  broken : option (content G * exn)
}.
Arguments mkResp {G}.
Arguments status_code {G}.
Arguments reason {G}.
Arguments url {G}.
Arguments text {G}.
Arguments json {G}.
Arguments payload {G}.
Arguments broken {G}.

(** Observable side effects, in the order they happen. *)
Inductive event : Type :=
| Print (line : string)
| HttpGet (url : string)
| Mkdir (path : string)
| WriteFile (path : string)          (* open(path, 'wb') and its writes *)
| Extract (zip dest : string)
| ToFile (path : string).            (* GeoDataFrame.to_file(path, driver='GeoJSON') *)

Record state (G : Type) : Type := mkState {
  fs : filesystem G;
  trace : list event
}.
Arguments mkState {G}.
Arguments fs {G}.
Arguments trace {G}.

(** The remote servers: what [requests.get] does for a URL and its query
    parameters, either raising a transport exception or answering. *)
Definition Net (G : Type) : Type :=
  string -> list (string * string) -> result (response G).

(** Library functions and the standard output taken as parameters. *)
Record Lib (G : Type) : Type := mkLib {
  (* shapely: [a.within(b)] *)
  within : G -> G -> bool;
  (* pyproj: coordinates of a geometry moved from one reference to another *)
  reproject : string -> string -> G -> G;
  (* pd.to_numeric(errors='coerce') on one string: its value, NaN if none *)
  to_numeric_str : string -> float;
  (* sys.stdout: whether its encoding has every character of a text *)
  stdout_encodes : string -> bool
}.
Arguments mkLib {G}.
Arguments within {G}.
Arguments reproject {G}.
Arguments to_numeric_str {G}.
Arguments stdout_encodes {G}.

(* ------------------------------------------------------------------------- *)
(** ** The monad of effectful code *)

Definition M (G A : Type) : Type := state G -> result A * state G.

Definition ret {G A} (a : A) : M G A := fun s => (Ok a, s).

Definition raise {G A} (e : exn) : M G A := fun s => (Raise e, s).

Definition bind {G A B} (c : M G A) (k : A -> M G B) : M G B :=
  fun s =>
    match c s with
    | (Ok a, s') => k a s'
    | (Raise e, s') => (Raise e, s')
    end.

Notation "x <- c ;; k" := (bind c (fun x => k))
  (at level 61, c at next level, right associativity).
Notation "c ;;; k" := (bind c (fun _ => k))
  (at level 61, right associativity).

(** [try: c except <class>: h]: an exception of the class is handled, any
    other propagates. *)
Definition try_except {G A} (c : M G A) (catches : exn -> bool)
    (h : exn -> M G A) : M G A :=
  fun s =>
    match c s with
    | (Ok a, s') => (Ok a, s')
    | (Raise e, s') => if catches e then h e s' else (Raise e, s')
    end.

Definition lift {G A} (r : result A) : M G A := fun s => (r, s).

Definition emit {G} (ev : event) : M G unit :=
  fun s => (Ok tt, mkState (fs s) (trace s ++ [ev])%list).

Definition print {G} (line : string) : M G unit := emit (Print line).

(** [print] of a text with characters outside ASCII: the standard output
    encodes the text, which raises when its encoding lacks a character. *)
Definition print_text {G} (L : Lib G) (line : string) : M G unit :=
  if stdout_encodes L line then print line
  else raise (UnicodeEncodeError "codec can't encode characters").

Definition get_fs {G} : M G (filesystem G) := fun s => (Ok (fs s), s).

Definition put_fs {G} (f : filesystem G) : M G unit :=
  fun s => (Ok tt, mkState f (trace s)).

(** [requests.get]: the request is made (and traced), then the server's
    answer or the transport exception comes back. *)
Definition requests_get {G} (net : Net G) (u : string)
    (params : list (string * string)) : M G (response G) :=
  emit (HttpGet u) ;;; lift (net u params).

(* ------------------------------------------------------------------------- *)
(** ** Census API functions *)

(** [census_acs5_url]. *)
Definition census_acs5_url (year : Z) : string :=
  "https://api.census.gov/data/" ++ string_of_Z year ++ "/acs/acs5".

(** [Response.raise_for_status]: an [HTTPError] for a 4xx or 5xx status. *)
Definition raise_for_status {G} (r : response G) : result unit :=
  let st := status_code r in
  if (400 <=? st) && (st <? 500) then
    Raise (HTTPError (string_of_Z st ++ " Client Error: " ++ reason r
                        ++ " for url: " ++ url r))
  else if (500 <=? st) && (st <? 600) then
    Raise (HTTPError (string_of_Z st ++ " Server Error: " ++ reason r
                        ++ " for url: " ++ url r))
  else Ok tt.

(** [Response.json]. *)
Definition response_json {G} (r : response G) : result (list (list json_cell)) :=
  match json r with
  | Some data => Ok data
  | None => Raise (JSONDecodeError "Expecting value: line 1 column 1 (char 0)")
  end.

Definition json_cell_eqb (a b : json_cell) : bool :=
  match a, b with
  | JNull, JNull => true
  | JStr s, JStr t => String.eqb s t
  | _, _ => false
  end.

(** Position of a column label in the header row. *)
Fixpoint column_index (cols : list json_cell) (label : string) : option nat :=
  match cols with
  | [] => None
  | c :: cols' =>
      if json_cell_eqb c (JStr label) then Some 0%nat
      else option_map S (column_index cols' label)
  end.

(** How many columns carry a label. *)
Definition count_label (cols : list json_cell) (label : string) : nat :=
  List.length (filter (fun c => json_cell_eqb c (JStr label)) cols).

(** [df[label]] where the program means one column: the position of the
    column, or [KeyError] without one.  With several columns of the label
    the selection is a frame, and the operation the program applies to it
    next raises; [several] is that exception. *)
Definition get_column (cols : list json_cell) (label : string) (several : exn)
  : result nat :=
  match column_index cols label with
  | Some i => if (1 <? count_label cols label)%nat then Raise several else Ok i
  | None => Raise (KeyError ("'" ++ label ++ "'"))
  end.

(** What a frame in the place of a column meets: the alignment of the
    boolean mask and of the string sum on duplicate labels, and
    [pd.to_numeric] on a frame. *)
Definition duplicate_labels : exn :=
  ValueError "cannot reindex on an axis with duplicate labels".

Definition not_one_dimensional : exn :=
  TypeError "arg must be a list, tuple, 1-d array, or Series".

(** A cell of a row; rows shorter than the header are padded with missing
    values by the [DataFrame] constructor. *)
Definition cell (row : list json_cell) (i : nat) : json_cell := nth i row JNull.

(** [pd.DataFrame(rows, columns=cols)] from a list of lists: the widest row
    must be as wide as the header. *)
Definition DataFrame_of_rows (cols : list json_cell) (rows : list (list json_cell))
  : result (list (list json_cell)) :=
  match rows with
  | [] => Ok []
  | _ =>
      let w := fold_right Nat.max 0%nat (map (@List.length json_cell) rows) in
      if Nat.eqb w (List.length cols) then Ok rows
      else Raise (ValueError (string_of_Z (Z.of_nat (List.length cols))
                                ++ " columns passed, passed data had "
                                ++ string_of_Z (Z.of_nat w) ++ " columns"))
  end.

(** [Series.isin(values)] on one cell. *)
Definition isin (c : json_cell) (values : list string) : bool :=
  match c with
  | JStr s => existsb (String.eqb s) values
  | JNull => false
  end.

(** [+] on string columns, cell by cell: missing if either side is. *)
Definition str_add (a b : option string) : option string :=
  match a, b with
  | Some x, Some y => Some (x ++ y)
  | _, _ => None
  end.

Definition cell_str (c : json_cell) : option string :=
  match c with
  | JStr s => Some s
  | JNull => None
  end.

(** [pd.to_numeric(..., errors='coerce')] on one cell. *)
Definition to_numeric {G} (L : Lib G) (c : json_cell) : float :=
  match c with
  | JStr s => to_numeric_str L s
  | JNull => NaN
  end.

Definition result_bind {A B} (r : result A) (k : A -> result B) : result B :=
  match r with
  | Ok a => k a
  | Raise e => Raise e
  end.

(** The part of [fetch_acs5_rent] after the response is decoded: the table
    is built, filtered to the NYC counties and reduced to the three columns. *)
Definition rent_frame {G} (L : Lib G) (yr : Z) (data : list (list json_cell))
  : result (list rent_row) :=
  match data with
  | [] => Raise (IndexError "list index out of range")
  | cols :: rows =>
      result_bind (DataFrame_of_rows cols rows) (fun df =>
      result_bind (get_column cols "county" duplicate_labels) (fun ci =>
      let df := filter (fun row => isin (cell row ci) NYC_COUNTIES) df in
      result_bind (get_column cols "tract" duplicate_labels) (fun ti =>
      result_bind (get_column cols VAR_NAME not_one_dimensional) (fun vi =>
      Ok (map (fun row =>
                 mkRent (str_add (str_add (Some STATE_FIPS) (cell_str (cell row ci)))
                                 (cell_str (cell row ti)))
                        yr
                        (to_numeric L (cell row vi)))
              df)))))
  end.

(** [fetch_acs5_rent].  The request itself is made outside the [try]; the
    status check and the decoding are inside it, and their exception is
    re-raised after the diagnostic lines. *)
Definition fetch_acs5_rent {G} (L : Lib G) (net : Net G) (yr : Z) (api_key : string)
  : M G (list rent_row) :=
  let base := census_acs5_url yr in
  let params := [("get", "NAME," ++ VAR_NAME); ("for", "tract:*");
                 ("in", "state:" ++ STATE_FIPS); ("key", api_key)] in
  r <- requests_get net base params ;;
  let txt := text r in
  data <- try_except
            (lift (result_bind (raise_for_status r) (fun _ => response_json r)))
            (fun _ => true)
            (fun e =>
               print (newline ++ "--- Census API call failed ---") ;;;
               print ("URL: " ++ url r) ;;;
               print ("Status: " ++ string_of_Z (status_code r)) ;;;
               print ("Body (first 500 chars): " ++ take_chars 500 txt) ;;;
               raise e) ;;
  lift (rent_frame L yr data).

(** [pd.concat(frames, ignore_index=True)]. *)
Definition pd_concat {A} (frames : list (list A)) : result (list A) :=
  match frames with
  | [] => Raise (ValueError "No objects to concatenate")
  | _ => Ok (List.concat frames)
  end.

(** The loop of [fetch_many_years] over the years still to fetch, with the
    frames appended so far. *)
Fixpoint fetch_years {G} (L : Lib G) (net : Net G) (api_key : string)
    (years : list Z) (frames : list (list rent_row)) : M G (list (list rent_row)) :=
  match years with
  | [] => ret frames
  | y :: years' =>
      print ("Fetching ACS5 " ++ TABLE ++ " for " ++ string_of_Z y ++ "...") ;;;
      frames' <- try_except
                   (df <- fetch_acs5_rent L net y api_key ;; ret (frames ++ [df])%list)
                   is_HTTPError
                   (fun e =>
                      print ("Warning: failed year " ++ string_of_Z y ++ ": "
                               ++ exn_str e) ;;;
                      ret frames) ;;
      fetch_years L net api_key years' frames'
  end.

(** [fetch_many_years]. *)
Definition fetch_many_years {G} (L : Lib G) (net : Net G)
    (start end_ : Z) (api_key : string) : M G (list rent_row) :=
  frames <- fetch_years L net api_key (range start (end_ + 1)) [] ;;
  lift (pd_concat frames).

(* ------------------------------------------------------------------------- *)
(** ** File system operations *)

(** Components of a path, split at a separator. *)
Fixpoint split_on (c : ascii) (s : string) : list string :=
  match s with
  | EmptyString => [EmptyString]
  | String d s' =>
      match split_on c s' with
      | [] => [String d EmptyString]
      | h :: t => if Ascii.eqb d c then EmptyString :: h :: t else String d h :: t
      end
  end.

(** [Path(a) / b]. *)
Definition path_join (a b : string) : string := a ++ "/" ++ b.

(** The path and its ancestors, outermost first: for [a/b/c] the paths
    [a], [a/b], [a/b/c]. *)
Fixpoint prefixes_from (acc : option string) (parts : list string) : list string :=
  match parts with
  | [] => []
  | p :: parts' =>
      let q := match acc with
               | None => p
               | Some a => path_join a p
               end in
      q :: prefixes_from (Some q) parts'
  end.

Definition path_prefixes (p : string) : list string :=
  prefixes_from None (split_on "/"%char p).

(** [Path.parent]: the path without its last component. *)
Definition parent (p : string) : string :=
  last (removelast (path_prefixes p)) ".".

Definition is_dir {G} (f : filesystem G) (p : string) : bool :=
  existsb (String.eqb p) (dirs f).

Fixpoint lookup_file {G} (fl : list (string * content G)) (p : string)
  : option (content G) :=
  match fl with
  | [] => None
  | (q, c) :: fl' => if String.eqb q p then Some c else lookup_file fl' p
  end.

Definition is_file {G} (f : filesystem G) (p : string) : bool :=
  match lookup_file (files f) p with
  | Some _ => true
  | None => false
  end.

(** [Path.exists]. *)
Definition path_exists {G} (f : filesystem G) (p : string) : bool :=
  is_dir f p || is_file f p.

(** [mkdir(parents=True, exist_ok=True)] and [os.makedirs(exist_ok=True)]:
    the directory and its missing ancestors are created; a file in the way
    is an error. *)
Fixpoint fs_mkdirs {G} (f : filesystem G) (ps : list string) : result (filesystem G) :=
  match ps with
  | [] => Ok f
  | p :: ps' =>
      if is_file f p then Raise (OSError ("File exists: '" ++ p ++ "'"))
      else if is_dir f p || String.eqb p "" || String.eqb p "." then fs_mkdirs f ps'
      else fs_mkdirs (mkFs (dirs f ++ [p])%list (files f)) ps'
  end.

Definition fs_makedirs {G} (f : filesystem G) (p : string) : result (filesystem G) :=
  fs_mkdirs f (path_prefixes p).

(** The file list with the content at [p] replaced, or added at the end. *)
Fixpoint set_file {G} (fl : list (string * content G)) (p : string) (c : content G)
  : list (string * content G) :=
  match fl with
  | [] => [(p, c)]
  | (q, d) :: fl' => if String.eqb q p then (p, c) :: fl' else (q, d) :: set_file fl' p c
  end.

(** [open(p, 'wb')] and the writes that follow: the directory of the file
    must exist and the path must not be a directory. *)
Definition fs_write {G} (f : filesystem G) (p : string) (c : content G)
  : result (filesystem G) :=
  if is_dir f p then Raise (OSError ("Is a directory: '" ++ p ++ "'"))
  else if is_dir f (parent p) || String.eqb (parent p) "." || String.eqb (parent p) ""
  then Ok (mkFs (dirs f) (set_file (files f) p c))
  else Raise (OSError ("No such file or directory: '" ++ p ++ "'")).

Definition makedirs {G} (p : string) : M G unit :=
  f <- get_fs ;;
  f' <- lift (fs_makedirs f p) ;;
  emit (Mkdir p) ;;;
  put_fs f'.

Definition write_file {G} (p : string) (c : content G) : M G unit :=
  f <- get_fs ;;
  f' <- lift (fs_write f p c) ;;
  emit (WriteFile p) ;;;
  put_fs f'.

(** [gdf.to_file(p, driver='GeoJSON')]: the serialized features are written
    to the path.  The file is taken to be written whole once it is opened:
    a write that raises does so on opening the file, before anything is
    written, and a failure of the driver while it writes is not modelled. *)
Definition to_file {G} (p : string) (epsg : string) (features : list (feature G))
  : M G unit :=
  f <- get_fs ;;
  f' <- lift (fs_write f p (Plain (GeoJSON epsg features))) ;;
  emit (ToFile p) ;;;
  put_fs f'.

(** The name of [p] inside directory [d], when [p] is a direct child. *)
Definition child_name (d p : string) : option string :=
  let pre := d ++ "/" in
  if String.prefix pre p then
    let name := substring (String.length pre) (String.length p - String.length pre) p in
    if has_char "/"%char name || String.eqb name "" then None else Some name
  else None.

(** [list(d.glob(pattern))] for the pattern [*<suffix>]: the direct children
    of [d] whose name ends with the suffix, in directory order. *)
Definition glob_suffix {G} (f : filesystem G) (d suffix : string) : list string :=
  map fst
    (filter (fun pc => match child_name d (fst pc) with
                       | Some name => ends_with suffix name
                       | None => false
                       end)
            (files f)).

(* ------------------------------------------------------------------------- *)
(** ** Geometry download functions *)

(** [download_zip].  The file is opened once the status is checked, and
    receives the chunks of the body as they arrive: when the transport fails
    during the body, the file is left with the part received. *)
Definition download_zip {G} (net : Net G) (u dest_zip : string) : M G unit :=
  makedirs (parent dest_zip) ;;;
  r <- requests_get net u [] ;;
  lift (raise_for_status r) ;;;
  match broken r with
  | None => write_file dest_zip (payload r)
  | Some (part, e) => write_file dest_zip part ;;; raise e
  end.

(** *** Extraction of an archive *)

(** The components [ZipFile._extract_member] leaves out of a member's name:
    the empty ones (so also a leading [/]), [.] and [..]. *)
Definition invalid_path_part (c : string) : bool :=
  String.eqb c "" || String.eqb c "." || String.eqb c "..".

Definition arcname_parts (name : string) : list string :=
  filter (fun c => negb (invalid_path_part c)) (split_on "/"%char name).

(** [os.path.normpath] on the components of a path: empty components and
    [.] are left out, [..] takes back the component before it ([stack] holds
    the components kept so far, innermost first). *)
Fixpoint normparts (absolute : bool) (stack comps : list string) : list string :=
  match comps with
  | [] => rev stack
  | c :: comps' =>
      if String.eqb c "" || String.eqb c "." then normparts absolute stack comps'
      else if String.eqb c ".." then
        match stack with
        | [] => if absolute then normparts absolute stack comps'
                else normparts absolute (c :: stack) comps'
        | top :: stack' =>
            if String.eqb top ".." then normparts absolute (c :: stack) comps'
            else normparts absolute stack' comps'
        end
      else normparts absolute (c :: stack) comps'
  end.

(** The path a member is extracted to:
    [os.path.normpath(os.path.join(dest, arcname))], on the components of
    the destination followed by the components kept of the member's name. *)
Definition member_target (dest name : string) : string :=
  let absolute := String.prefix "/" dest in
  let slashes := if absolute
                 then if String.prefix "//" dest && negb (String.prefix "///" dest)
                      then "//" else "/"
                 else "" in
  let parts := normparts absolute [] (split_on "/"%char dest ++ arcname_parts name)%list in
  let p := slashes ++ String.concat "/" parts in
  if String.eqb p "" then "." else p.

(** [ZipFile.getinfo(name)]: the last member of that name. *)
Definition getinfo {G} (members : list (string * file_data G)) (name : string)
  : option (file_data G) :=
  option_map snd (find (fun m => String.eqb (fst m) name) (rev members)).

(** [ZipFile._extract_member]: the directory of the target is created when
    it does not exist; a member whose name ends with [/] is a directory,
    made unless it is there; any other member is written to its target. *)
Definition extract_member {G} (members : list (string * file_data G))
    (dest name : string) : M G unit :=
  let target := member_target dest name in
  let upperdirs := parent target in
  f <- get_fs ;;
  (if negb (String.eqb upperdirs "") && negb (String.eqb upperdirs ".")
      && negb (path_exists f upperdirs)
   then f' <- lift (fs_makedirs f upperdirs) ;; put_fs f'
   else ret tt) ;;;
  f <- get_fs ;;
  if ends_with "/" name then
    if is_dir f target then ret tt
    else f' <- lift (fs_mkdirs f [target]) ;; put_fs f'
  else
    match getinfo members name with
    | Some d => f' <- lift (fs_write f target (Plain d)) ;; put_fs f'
    | None => raise (KeyError ("'There is no item named " ++ name ++ " in the archive'"))
    end.

(** [ZipFile.extractall]: the names of the archive, one after the other; a
    member that fails ends the extraction, with the earlier ones in place. *)
Fixpoint extract_names {G} (members : list (string * file_data G)) (dest : string)
    (names : list string) : M G unit :=
  match names with
  | [] => ret tt
  | name :: names' =>
      extract_member members dest name ;;;
      extract_names members dest names'
  end.

(** [extract_zip]. *)
Definition extract_zip {G} (path_zip dest_dir : string) : M G unit :=
  f <- get_fs ;;
  match lookup_file (files f) path_zip with
  | None => raise (OSError ("No such file or directory: '" ++ path_zip ++ "'"))
  | Some (Plain _) => raise (BadZipFile "File is not a zip file")
  | Some (ZipArchive members) =>
      emit (Extract path_zip dest_dir) ;;;
      extract_names members dest_dir (map fst members)
  end.

(** [gpd.read_file] on a shapefile. *)
Definition read_file {G} (p : string) : M G (list (shp_record G)) :=
  f <- get_fs ;;
  match lookup_file (files f) p with
  | Some (Plain (Shapefile records)) => ret records
  | Some _ => raise (OSError ("'" ++ p ++ "' not recognized as a supported file format."))
  | None => raise (OSError (p ++ ": No such file or directory"))
  end.

Definition tiger_url : string :=
  "https://www2.census.gov/geo/tiger/TIGER2020/TRACT/tl_2020_" ++ STATE_FIPS
    ++ "_tract.zip".
Definition tiger_zpath : string :=
  path_join "data/tiger" ("tl_2020_" ++ STATE_FIPS ++ "_tract.zip").
Definition tiger_ddir : string :=
  path_join "data/tiger" ("tl_2020_" ++ STATE_FIPS ++ "_tract").

(** [get_tiger_tracts_2020]. *)
Definition get_tiger_tracts_2020 {G} (net : Net G) : M G (geoframe (tract_row G)) :=
  f <- get_fs ;;
  (if negb (path_exists f tiger_ddir) then
     print "Downloading TIGER tract shapefile for NY state..." ;;;
     download_zip net tiger_url tiger_zpath ;;;
     extract_zip tiger_zpath tiger_ddir
   else ret tt) ;;;
  f <- get_fs ;;
  match glob_suffix f tiger_ddir ".shp" with
  | [] => raise (IndexError "list index out of range")
  | shp :: _ =>
      gdf <- read_file shp ;;
      let gdf := filter (fun r => existsb (String.eqb (shp_COUNTYFP r)) NYC_COUNTIES) gdf in
      ret (mkGeo "EPSG:4269" (map (fun r => mkTract (shp_GEOID r) (shp_geometry r)) gdf))
  end.

(** [GeoDataFrame.to_crs]: the frame itself when it is in the target
    reference already, else every geometry reprojected. *)
Definition to_crs {G R} (L : Lib G) (geom : R -> G) (set_geom : R -> G -> R)
    (target : string) (gf : geoframe R) : geoframe R :=
  if String.eqb (crs gf) target then gf
  else mkGeo target
         (map (fun r => set_geom r (reproject L (crs gf) target (geom r))) (grows gf)).

Definition tract_set_geometry {G} (t : tract_row G) (g : G) : tract_row G :=
  mkTract (t_GEOID t) g.

Definition nta_set_geometry {G} (n : nta_row G) (g : G) : nta_row G :=
  mkNta (n_code n) (n_name n) g.

(** [get_nta2020]: every tract is its own unit. *)
Definition get_nta2020 {G} (L : Lib G) (net : Net G) : M G (geoframe (nta_row G)) :=
  print "Creating simplified NTA dataset from census tracts..." ;;;
  tracts <- get_tiger_tracts_2020 net ;;
  let nta_gdf :=
    mkGeo (crs tracts)
      (map (fun t => mkNta (t_GEOID t) ("Tract " ++ t_GEOID t) (t_geometry t))
           (grows tracts)) in
  print ("Created " ++ string_of_Z (Z.of_nat (List.length (grows nta_gdf)))
           ++ " NTA features from tracts") ;;;
  ret (to_crs L n_geometry nta_set_geometry "EPSG:2263" nta_gdf).

(* ------------------------------------------------------------------------- *)
(** ** Spatial analysis functions *)

(** [gpd.sjoin(tr, ntas, how='left', predicate='within')], reduced to the
    columns kept afterwards: per tract, in order, one row for every unit
    its geometry is within, or one row without unit when there is none. *)
Definition sjoin_left_within {G} (L : Lib G) (tr : list (tract_row G))
    (ntas : list (nta_row G)) : list cross_row :=
  flat_map
    (fun t =>
       match filter (fun n => within L (t_geometry t) (n_geometry n)) ntas with
       | [] => [mkCross (t_GEOID t) None None]
       | ms => map (fun n => mkCross (t_GEOID t) (Some (n_code n)) (Some (n_name n))) ms
       end)
    tr.

Definition cross_row_eqb (a b : cross_row) : bool :=
  String.eqb (GEOID a) (GEOID b)
  && option_eqb String.eqb (nta_code a) (nta_code b)
  && option_eqb String.eqb (nta_name a) (nta_name b).

(** [spatial_join_to_nta]. *)
Definition spatial_join_to_nta {G} (L : Lib G) (tracts : geoframe (tract_row G))
    (ntas : geoframe (nta_row G)) : list cross_row :=
  let tr := to_crs L t_geometry tract_set_geometry (crs ntas) tracts in
  let sj := sjoin_left_within L (grows tr) (grows ntas) in
  dedup cross_row_eqb sj.

(** A row of [rents.merge(cross, left_on='geoid', right_on='GEOID', how='left')]. *)
Record merged_row : Type := mkMerged {
  m_geoid : option string;
  m_year : Z;
  m_estimate : float;
  m_GEOID : option string;
  m_code : option string;
  m_name : option string
}.

(** The left merge: per rent record, in order, one row for every crosswalk
    entry of its tract, or one row with missing crosswalk columns. *)
Definition merge_left (rents : list rent_row) (cross : list cross_row)
  : list merged_row :=
  flat_map
    (fun r =>
       match filter (fun c => option_eqb String.eqb (geoid r) (Some (GEOID c))) cross with
       | [] => [mkMerged (geoid r) (year r) (estimate r) None None None]
       | ms => map (fun c => mkMerged (geoid r) (year r) (estimate r)
                                      (Some (GEOID c)) (nta_code c) (nta_name c)) ms
       end)
    rents.

(** [df.dropna(subset=['nta_code'])]. *)
Definition dropna_code (df : list merged_row) : list merged_row :=
  filter (fun m => match m_code m with Some _ => true | None => false end) df.

(** The key [(nta_code, nta_name, year)] of a row; [groupby] leaves out a
    row with a missing key column. *)
Definition group_key : Type := string * string * Z.

Definition key_of (m : merged_row) : option group_key :=
  match m_code m, m_name m with
  | Some c, Some n => Some (c, n, m_year m)
  | _, _ => None
  end.

Definition key_eqb (a b : group_key) : bool :=
  let '(c1, n1, y1) := a in
  let '(c2, n2, y2) := b in
  String.eqb c1 c2 && String.eqb n1 n2 && Z.eqb y1 y2.

(** Lexicographic order of the keys, the order of a sorted [groupby]. *)
Definition key_leb (a b : group_key) : bool :=
  let '(c1, n1, y1) := a in
  let '(c2, n2, y2) := b in
  match String.compare c1 c2 with
  | Lt => true
  | Gt => false
  | Eq => match String.compare n1 n2 with
          | Lt => true
          | Gt => false
          | Eq => Z.leb y1 y2
          end
  end.

Definition keys_of (df : list merged_row) : list group_key :=
  flat_map (fun m => match key_of m with Some k => [k] | None => [] end) df.

Definition group_keys (df : list merged_row) : list group_key :=
  sort_by key_leb (dedup key_eqb (keys_of df)).

(** The estimates of the rows of one group, in row order. *)
Definition group_values (df : list merged_row) (k : group_key) : list float :=
  map m_estimate (filter (fun m => option_eqb key_eqb (key_of m) (Some k)) df).

(** *** The grouped median

    [groupby(...)[VAR_NAME].median()] hands the values of a group, in row
    order, to pandas' [median_linear]: the missing values are left out, and
    the middle value (or the two middle values) of the rest is found by
    selection in place ([kth_smallest_c]), not by sorting. *)

(** A float64 array and its cells.  A cell outside the array has no value
    here; the loops below never read one. *)
Definition arr_get (a : list float) (i : Z) : float :=
  if i <? 0 then NaN else nth (Z.to_nat i) a NaN.

Fixpoint set_nth (a : list float) (i : nat) (v : float) : list float :=
  match a, i with
  | [], _ => []
  | _ :: a', O => v :: a'
  | x :: a', S i' => x :: set_nth a' i' v
  end.

Definition arr_set (a : list float) (i : Z) (v : float) : list float :=
  if i <? 0 then a else set_nth a (Z.to_nat i) v.

(** [swap(&arr[i], &arr[j])]. *)
Definition arr_swap (a : list float) (i j : Z) : list float :=
  let x := arr_get a i in
  let y := arr_get a j in
  arr_set (arr_set a i y) j x.

(** The loops of the selection take a bound on their iterations; the
    selection passes the length of the array, which is never reached
    ([selection_bound_not_reached]). *)

(** [while arr[i] < x: i += 1]. *)
Fixpoint scan_up (bound : nat) (a : list float) (x : float) (i : Z) : Z :=
  match bound with
  | O => i
  | S bound' => if PrimFloat.ltb (arr_get a i) x then scan_up bound' a x (i + 1) else i
  end.

(** [while x < arr[j]: j -= 1]. *)
Fixpoint scan_down (bound : nat) (a : list float) (x : float) (j : Z) : Z :=
  match bound with
  | O => j
  | S bound' => if PrimFloat.ltb x (arr_get a j) then scan_down bound' a x (j - 1) else j
  end.

(** The inner loop [while 1]: both scans, the swap when [i <= j], and the
    exit when [i > j]. *)
Fixpoint partition (bound fuel : nat) (a : list float) (x : float) (i j : Z)
  : list float * Z * Z :=
  match fuel with
  | O => (a, i, j)
  | S fuel' =>
      let i := scan_up bound a x i in
      let j := scan_down bound a x j in
      if i <=? j then
        let a := arr_swap a i j in
        let i := i + 1 in
        let j := j - 1 in
        if j <? i then (a, i, j) else partition bound fuel' a x i j
      else (a, i, j)
  end.

(** The outer loop [while left < m] around the pivot [x = arr[k]]. *)
Fixpoint kth_loop (bound fuel : nat) (a : list float) (k left m : Z) : list float :=
  match fuel with
  | O => a
  | S fuel' =>
      if left <? m then
        let x := arr_get a k in
        let '(a, i, j) := partition bound bound a x left m in
        let left := if j <? k then i else left in
        let m := if k <? i then j else m in
        kth_loop bound fuel' a k left m
      else a
  end.

(** [kth_smallest_c(arr, k, n)]: the value it returns and the array as it
    leaves it, rearranged in place. *)
Definition kth_smallest_c (a : list float) (k n : Z) : float * list float :=
  let a := kth_loop (Z.to_nat n) (Z.to_nat n) a k 0 (n - 1) in
  (arr_get a k, a).

(** [calc_median_linear]: one selection for an odd count, two selections on
    the same array for an even count. *)
Definition calc_median_linear (a : list float) : float :=
  let n := Z.of_nat (List.length a) in
  if Z.odd n then fst (kth_smallest_c a (n / 2) n)
  else
    let '(hi, a) := kth_smallest_c a (n / 2) n in
    let '(lo, _) := kth_smallest_c a (n / 2 - 1) n in
    ((hi + lo) / 2)%float.

(** [median_linear]: NaN for a group without a value that is not missing. *)
Definition median (vals : list float) : float :=
  match filter notna vals with
  | [] => NaN
  | tmp => calc_median_linear tmp
  end.

(** [aggregate_to_nta]. *)
Definition aggregate_to_nta (rents : list rent_row) (cross : list cross_row)
  : list nta_year_row :=
  let df := merge_left rents cross in
  let df := dropna_code df in
  map (fun k => let '(c, n, y) := k in mkNtaYear c n y (median (group_values df k)))
      (group_keys df).

(* ------------------------------------------------------------------------- *)
(** ** CPI adjustment functions *)

(** [pd.read_csv(cpi_csv)] followed by [set_index('year')['cpi']]: the
    series of index values, labelled by year.  One value per year is
    assumed (the index table maps a year to its value). *)
Definition read_cpi {G} (p : string) : M G (list (Z * float)) :=
  f <- get_fs ;;
  match lookup_file (files f) p with
  | Some (Plain (CpiCsv rows)) => ret rows
  | Some _ => raise (KeyError "'year'")
  | None => raise (OSError ("No such file or directory: '" ++ p ++ "'"))
  end.

(** [y in cpi.index]. *)
Definition in_index (cpi : list (Z * float)) (y : Z) : bool :=
  existsb (fun p => Z.eqb (fst p) y) cpi.

(** [cpi.loc[y]]. *)
Definition loc (cpi : list (Z * float)) (y : Z) : result float :=
  match find (fun p => Z.eqb (fst p) y) cpi with
  | Some (_, v) => Ok v
  | None => Raise (KeyError (string_of_Z y))
  end.

(** The function applied to every row: [r[VAR_NAME] * (base / cpi.loc[int(r['year'])])]. *)
Definition adjust_row (cpi : list (Z * float)) (base : float) (r : nta_year_row)
  : result float :=
  result_bind (loc cpi (ny_year r)) (fun c => Ok (ny_rent r * (base / c))%float).

(** [df.apply(f, axis=1)] on the rows in order; the first exception ends it. *)
Fixpoint apply_rows {A B} (f : A -> result B) (df : list A) : result (list B) :=
  match df with
  | [] => Ok []
  | r :: df' =>
      result_bind (f r) (fun v =>
      result_bind (apply_rows f df') (fun vs => Ok (v :: vs)))
  end.

(** [df['rent_adj'] = df.apply(..., axis=1)].  On a frame without rows
    [apply] returns a copy of the frame instead of a column, and the
    assignment of a frame with several columns to one column is refused. *)
Definition assign_rent_adj (cpi : list (Z * float)) (base : float)
    (df : list nta_year_row) : result (list adj_row) :=
  match df with
  | [] => Raise (ValueError
            "Cannot set a DataFrame with multiple columns to the single column rent_adj")
  | _ =>
      result_bind (apply_rows (adjust_row cpi base) df) (fun vs =>
      Ok (map (fun rv => mkAdj (ny_code (fst rv)) (ny_name (fst rv)) (ny_year (fst rv))
                               (ny_rent (fst rv)) (snd rv))
              (combine df vs)))
  end.

(** [cpi_adjust] once the CPI file is read. *)
Definition cpi_adjust_with (cpi : list (Z * float)) (base_year : Z)
    (df : list nta_year_row) : result (list adj_row) :=
  if negb (in_index cpi base_year) then
    Raise (ValueError ("CPI base year " ++ string_of_Z base_year ++ " not in CPI CSV."))
  else
    result_bind (loc cpi base_year) (fun base => assign_rent_adj cpi base df).

(** [cpi_adjust]. *)
Definition cpi_adjust {G} (df : list nta_year_row) (cpi_csv : string) (base_year : Z)
  : M G (list adj_row) :=
  cpi <- read_cpi cpi_csv ;;
  lift (cpi_adjust_with cpi base_year df).

(* ------------------------------------------------------------------------- *)
(** ** Pivot and export *)

(** The mean of the values of a group that are not missing, as pandas'
    grouped mean accumulates it (compensated summation); NaN for a group
    without any. *)
Fixpoint kahan_sum (vals : list float) (sumx comp : float) (nobs : nat)
  : float * nat :=
  match vals with
  | [] => (sumx, nobs)
  | v :: vals' =>
      if notna v then
        let y := (v - comp)%float in
        let t := (sumx + y)%float in
        let c := (t - sumx - y)%float in
        let c := if PrimFloat.is_nan c then 0%float else c in
        kahan_sum vals' t c (S nobs)
      else kahan_sum vals' sumx comp nobs
  end.

Definition group_mean (vals : list float) : float :=
  let '(s, n) := kahan_sum vals 0%float 0%float 0%nat in
  match n with
  | O => NaN
  | _ => (s / PrimFloat.of_uint63 (Uint63.of_Z (Z.of_nat n)))%float
  end.

Definition adj_key (r : adj_row) : group_key := (adj_code r, adj_name r, adj_year r).

Definition unit_key : Type := string * string.

Definition unit_eqb (a b : unit_key) : bool :=
  String.eqb (fst a) (fst b) && String.eqb (snd a) (snd b).

Definition unit_leb (a b : unit_key) : bool :=
  match String.compare (fst a) (fst b) with
  | Lt => true
  | Gt => false
  | Eq => String.leb (snd a) (snd b)
  end.

(** The first stage of [pivot_table]: the mean of [rent_adj] per
    (unit code, unit name, year), keys sorted. *)
Definition pivot_agg (df : list adj_row) : list (group_key * float) :=
  map (fun k => (k, group_mean (map rent_adj
                                    (filter (fun r => key_eqb (adj_key r) k) df))))
      (sort_by key_leb (dedup key_eqb (map adj_key df))).

(** The cell of a unit and a year in the aggregated table, NaN when the
    combination is not there. *)
Definition pivot_cell (agged : list (group_key * float)) (u : unit_key) (y : Z)
  : float :=
  match find (fun kv => key_eqb (fst kv) (fst u, snd u, y)) agged with
  | Some (_, v) => v
  | None => NaN
  end.

(** [df_adj.pivot_table(index=['nta_code','nta_name'], columns='year',
    values='rent_adj')] with the defaults [aggfunc='mean'], [dropna=True]:
    the aggregated rows whose mean is missing are dropped, then the year
    level is unstacked into sorted columns.  Every year column left has a
    cell that is not missing, so the final removal of all-missing columns
    removes nothing. *)
Definition pivot_table (df : list adj_row) : wide_table :=
  let agged := filter (fun kv => notna (snd kv)) (pivot_agg df) in
  let index := sort_by unit_leb
                 (dedup unit_eqb (map (fun kv => (fst (fst (fst kv)), snd (fst (fst kv))))
                                      agged)) in
  let years := sort_by Z.leb (dedup Z.eqb (map (fun kv => snd (fst kv)) agged)) in
  mkWide years
    (map (fun u => mkWideRow (fst u) (snd u) (map (pivot_cell agged u) years)) index).

(** The name given to a year column: [f"rent_{int(c)}"]. *)
Definition rent_column (y : Z) : string := "rent_" ++ string_of_Z y.

(** [pivot_wide]: the pivot, the index put back as columns; the renaming of
    the year columns is in [wide_columns]. *)
Definition pivot_wide (df_adj : list adj_row) : wide_table := pivot_table df_adj.

Definition wide_columns (w : wide_table) : list string :=
  "nta_code" :: "nta_name" :: map rent_column (wide_years w).

(** [np.round(x, 0)] on binary64: the nearest integer, ties to even. *)
Definition two52 : float := 4503599627370496%float.

Definition round0 (x : float) : float :=
  let a := PrimFloat.abs x in
  let r := if PrimFloat.ltb a two52 then (a + two52 - two52)%float else a in
  if PrimFloat.get_sign x then PrimFloat.opp r else r.

(** [ntas_gdf.merge(wide, on 'nta_code', how='left')] with the rent columns
    rounded. *)
Definition merge_features {G} (ntas : list (nta_row G)) (wide : wide_table)
  : list (feature G) :=
  let cols := map rent_column (wide_years wide) in
  flat_map
    (fun n =>
       match filter (fun w => String.eqb (n_code n) (w_code w)) (wide_rows wide) with
       | [] => [mkFeature (n_code n) (n_name n) None (n_geometry n)
                          (map (fun c => (c, round0 NaN)) cols)]
       | ms => map (fun w => mkFeature (n_code n) (n_name n) (Some (w_name w))
                                       (n_geometry n)
                                       (combine cols (map round0 (w_cells w)))) ms
       end)
    ntas.

Definition feature_set_geometry {G} (f : feature G) (g : G) : feature G :=
  mkFeature (f_code f) (f_name_x f) (f_name_y f) g (f_rents f).

(** [wide_to_geojson]. *)
Definition wide_to_geojson {G} (L : Lib G) (wide : wide_table)
    (ntas_gdf : geoframe (nta_row G)) (out_path : string) : M G unit :=
  let g := mkGeo (crs ntas_gdf) (merge_features (grows ntas_gdf) wide) in
  let g := to_crs L f_geometry feature_set_geometry "EPSG:4326" g in
  to_file out_path (crs g) (grows g) ;;;
  print ("Wrote " ++ out_path).

(* ------------------------------------------------------------------------- *)
(** ** Main function *)

(** The parsed command line. *)
Record args : Type := mkArgs {
  census_key : string;
  start : Z;
  end_ : Z;
  cpi_csv : string;
  out : string
}.

(** The three characters before the last line's text, U+00E2 U+0153 U+2026,
    in UTF-8. *)
Definition check_mark : string :=
  string_of_list_ascii
    (map ascii_of_nat [195; 162; 197; 147; 226; 128; 166]%nat).

(** [main], from the parsed arguments on.  Its last line is the only one
    whose text has characters outside ASCII. *)
Definition main {G} (L : Lib G) (net : Net G) (a : args) : M G unit :=
  makedirs "data" ;;;
  print "Step 1: Fetching rent data from Census API..." ;;;
  rents <- fetch_many_years L net (start a) (end_ a) (census_key a) ;;
  print ("Pulled " ++ with_commas (List.length rents) ++ " tract-year rows.") ;;;
  print (newline ++ "Step 2: Downloading geographic data...") ;;;
  tracts <- get_tiger_tracts_2020 net ;;
  ntas <- get_nta2020 L net ;;
  print (newline ++ "Step 3: Performing spatial joins...") ;;;
  let cross := spatial_join_to_nta L tracts ntas in
  print ("Crosswalk rows: " ++ with_commas (List.length cross) ++ " (tract -> NTA).") ;;;
  print (newline ++ "Step 4: Aggregating to NTA level...") ;;;
  let nta_year := aggregate_to_nta rents cross in
  print ("NTA-year rows: " ++ with_commas (List.length nta_year)) ;;;
  print (newline ++ "Step 5: Applying CPI adjustments...") ;;;
  adj <- cpi_adjust nta_year (cpi_csv a) 2025 ;;
  print (newline ++ "Step 6: Converting to wide format and exporting...") ;;;
  let wide := pivot_wide adj in
  wide_to_geojson L wide ntas (out a) ;;;
  print_text L (newline ++ check_mark ++ " Processing complete!").

(** The output files a trace exported, the requests it made and the
    archives it extracted. *)
Definition exports (tr : list event) : list string :=
  flat_map (fun ev => match ev with ToFile p => [p] | _ => [] end) tr.

Definition downloads (tr : list event) : list string :=
  flat_map (fun ev => match ev with HttpGet u => [u] | _ => [] end) tr.

Definition extractions (tr : list event) : list (string * string) :=
  flat_map (fun ev => match ev with Extract z d => [(z, d)] | _ => [] end) tr.

Definition prints (tr : list event) : list string :=
  flat_map (fun ev => match ev with Print l => [l] | _ => [] end) tr.

(* ------------------------------------------------------------------------- *)
(** ** A concrete instance of the parameters, for running the embedding *)

(** Axis-parallel rectangles with integer corners stand for polygons:
    [within] is containment, and reprojection leaves the corners alone. *)
Record box : Type := mkBox {
  x_min : Z;
  y_min : Z;
  x_max : Z;
  y_max : Z
}.

Definition box_within (a b : box) : bool :=
  (x_min b <=? x_min a) && (x_max a <=? x_max b)
  && (y_min b <=? y_min a) && (y_max a <=? y_max b).

(** A string of decimal digits as a number; any other string has no value
    here. *)
Fixpoint digits_value (s : string) (acc : Z) : option Z :=
  match s with
  | EmptyString => Some acc
  | String c s' =>
      let n := Z.of_nat (nat_of_ascii c) in
      if (48 <=? n) && (n <=? 57) then digits_value s' (10 * acc + (n - 48))
      else None
  end.

Definition float_of_digits (s : string) : float :=
  match s with
  | EmptyString => NaN
  | _ => match digits_value s 0 with
         | Some z => PrimFloat.of_uint63 (Uint63.of_Z z)
         | None => NaN
         end
  end.

Definition only_ascii (s : string) : bool :=
  forallb (fun ch => Nat.ltb (nat_of_ascii ch) 128) (list_ascii_of_string s).

(** A standard output in UTF-8, which encodes every text. *)
Definition box_lib : Lib box :=
  mkLib box_within (fun _ _ g => g) float_of_digits (fun _ => true).

(** The same with a standard output in ASCII. *)
Definition ascii_stdout_lib : Lib box :=
  mkLib box_within (fun _ _ g => g) float_of_digits only_ascii.

Definition empty_fs : filesystem box := mkFs [] [].

Definition init_state (f : filesystem box) : state box := mkState f [].

(** A successful answer of the statistics API carrying a table, and an
    answer with an error status. *)
Definition ok_response (u : string) (table : list (list json_cell)) : response box :=
  mkResp 200 "OK" u "[...]" (Some table) (Plain (Raw "[...]")) None.

Definition error_response (st : Z) (why u : string) : response box :=
  mkResp st why u "error" None (Plain (Raw "error")) None.

Definition census_header : list json_cell :=
  [JStr "NAME"; JStr VAR_NAME; JStr "state"; JStr "county"; JStr "tract"].

Definition census_row (rent : json_cell) (county tract : string) : list json_cell :=
  [JStr "Census Tract"; rent; JStr "36"; JStr county; JStr tract].

(* ------------------------------------------------------------------------- *)
(** ** Notions the properties are stated with *)

(** The geometry of a tract as the spatial join sees it, in the reference
    of the unit polygons. *)
Definition tract_geometry_in {G} (L : Lib G) (target : string)
    (tracts : geoframe (tract_row G)) (t : tract_row G) : G :=
  if String.eqb (crs tracts) target then t_geometry t
  else reproject L (crs tracts) target (t_geometry t).

(** The unit polygons a tract is fully contained within. *)
Definition containing_units {G} (L : Lib G) (tracts : geoframe (tract_row G))
    (ntas : geoframe (nta_row G)) (t : tract_row G) : list (nta_row G) :=
  filter (fun n => within L (tract_geometry_in L (crs ntas) tracts t) (n_geometry n))
         (grows ntas).

(** The rows the spatial join contributes for one tract of the input. *)
Definition joined_rows {G} (L : Lib G) (tracts : geoframe (tract_row G))
    (ntas : geoframe (nta_row G)) (t : tract_row G) : list cross_row :=
  match containing_units L tracts ntas t with
  | [] => [mkCross (t_GEOID t) None None]
  | ms => map (fun n => mkCross (t_GEOID t) (Some (n_code n)) (Some (n_name n))) ms
  end.

(** The records left after those of one tract identifier are taken out. *)
Definition without_tract (id : string) (rents : list rent_row) : list rent_row :=
  filter (fun r => negb (option_eqb String.eqb (geoid r) (Some id))) rents.

(** The key of a row of the unit-year table. *)
Definition ny_key (row : nta_year_row) : group_key :=
  (ny_code row, ny_name row, ny_year row).

(** The crosswalk entries that put a tract into a unit. *)
Definition unit_hits (cross : list cross_row) (g : option string) (c n : string)
  : list cross_row :=
  filter (fun x => option_eqb String.eqb g (Some (GEOID x))
                   && option_eqb String.eqb (nta_code x) (Some c)
                   && option_eqb String.eqb (nta_name x) (Some n))
         cross.

(** The estimates contributing to a unit-year: those of the records of the
    year whose tract the crosswalk puts into the unit, in record order, once
    per crosswalk entry. *)
Definition contributing_estimates (rents : list rent_row) (cross : list cross_row)
    (k : group_key) : list float :=
  let '(c, n, y) := k in
  flat_map (fun r => if Z.eqb (year r) y
                     then map (fun _ => estimate r) (unit_hits cross (geoid r) c n)
                     else [])
           rents.

(** The query parameters of the statistics request. *)
Definition census_params (api_key : string) : list (string * string) :=
  [("get", "NAME," ++ VAR_NAME); ("for", "tract:*");
   ("in", "state:" ++ STATE_FIPS); ("key", api_key)].

(** What the fetch of one year comes to: the rows of the year, or the
    exception of the request, of the status check, of the decoding or of
    the construction of the table. *)
Definition fetch_outcome {G} (L : Lib G) (net : Net G) (y : Z) (api_key : string)
  : result (list rent_row) :=
  result_bind (net (census_acs5_url y) (census_params api_key)) (fun r =>
  result_bind (raise_for_status r) (fun _ =>
  result_bind (response_json r) (rent_frame L y))).

(** The frames of the years whose fetch succeeds, in year order. *)
Definition fetched_frames {G} (L : Lib G) (net : Net G) (api_key : string)
    (years : list Z) : list (list rent_row) :=
  flat_map (fun y => match fetch_outcome L net y api_key with
                     | Ok df => [df]
                     | Raise _ => []
                     end) years.

(** The first exception of the years, in order, that the loop does not
    catch, if there is one. *)
Fixpoint first_uncaught {G} (L : Lib G) (net : Net G) (api_key : string)
    (years : list Z) : option exn :=
  match years with
  | [] => None
  | y :: years' =>
      match fetch_outcome L net y api_key with
      | Raise e => if is_HTTPError e then first_uncaught L net api_key years'
                   else Some e
      | Ok _ => first_uncaught L net api_key years'
      end
  end.

(** The warning line of a failed year. *)
Definition warning_line (y : Z) (e : exn) : string :=
  "Warning: failed year " ++ string_of_Z y ++ ": " ++ exn_str e.

(** A run from [s] to [s'] that left alone every file whose path [keep]
    selects, exported nothing, and only added to the trace. *)
Definition undisturbed {G} (keep : string -> bool) (s s' : state G) : Prop :=
  (forall q, keep q = true ->
             lookup_file (files (fs s')) q = lookup_file (files (fs s)) q)
  /\ exports (trace s') = exports (trace s)
  /\ incl (trace s) (trace s').

(** A computation every run of which leaves the state undisturbed. *)
Definition gentle {G A} (keep : string -> bool) (c : M G A) : Prop :=
  forall s, undisturbed keep s (snd (c s)).

(** A computation that, run in [s] after an undisturbed run from [s0],
    raises and leaves the state undisturbed since [s0]. *)
Definition fails_from {G A} (keep : string -> bool) (s0 : state G) (c : M G A)
    (s : state G) : Prop :=
  undisturbed keep s0 s ->
  (exists e, fst (c s) = Raise e) /\ undisturbed keep s0 (snd (c s)).

(** What the geometry loader reads out of a file system in which the
    archive is extracted: the first shapefile of the directory, filtered to
    the NYC counties. *)
Definition load_tracts {G} (f : filesystem G) : result (geoframe (tract_row G)) :=
  match glob_suffix f tiger_ddir ".shp" with
  | [] => Raise (IndexError "list index out of range")
  | shp :: _ =>
      match lookup_file (files f) shp with
      | Some (Plain (Shapefile records)) =>
          Ok (mkGeo "EPSG:4269"
                (map (fun r => mkTract (shp_GEOID r) (shp_geometry r))
                     (filter (fun r => existsb (String.eqb (shp_COUNTYFP r)) NYC_COUNTIES)
                             records)))
      | Some _ =>
          Raise (OSError ("'" ++ shp ++ "' not recognized as a supported file format."))
      | None => Raise (OSError (shp ++ ": No such file or directory"))
      end
  end.

(** The sorted keys of the long table, and its aggregated entries that have
    a value. *)
Definition pivot_keys (df : list adj_row) : list group_key :=
  sort_by key_leb (dedup key_eqb (map adj_key df)).

Definition pivot_agged (df : list adj_row) : list (group_key * float) :=
  filter (fun kv => notna (snd kv)) (pivot_agg df).

(** The unit of a row of the wide table and of the long table. *)
Definition wide_unit (r : wide_row) : unit_key := (w_code r, w_name r).

Definition adj_unit (r : adj_row) : unit_key := (adj_code r, adj_name r).

(** Whether the long table has a row of a unit and a year, and the mean of
    the adjusted values of those rows. *)
Definition has_combination (df : list adj_row) (u : unit_key) (y : Z) : bool :=
  existsb (fun r => key_eqb (adj_key r) (fst u, snd u, y)) df.

Definition cell_mean (df : list adj_row) (u : unit_key) (y : Z) : float :=
  group_mean (map rent_adj (filter (fun r => key_eqb (adj_key r) (fst u, snd u, y)) df)).

(** A unit-year with a value: the combination is in the long table and the
    mean of its adjusted values is not missing. *)
Definition has_value (df : list adj_row) (u : unit_key) (y : Z) : bool :=
  has_combination df u y && notna (cell_mean df u y).

(** The paths outside the directory of the geometry archive. *)
Definition outside_tiger (q : string) : bool := negb (String.prefix "data/tiger/" q).

(** The unit polygons [get_nta2020] derives from the tracts: every tract is
    its own unit, named after its identifier, in the reference EPSG:2263. *)
Definition nta_from_tracts {G} (L : Lib G) (tracts : geoframe (tract_row G))
  : geoframe (nta_row G) :=
  to_crs L n_geometry nta_set_geometry "EPSG:2263"
    (mkGeo (crs tracts)
       (map (fun t => mkNta (t_GEOID t) ("Tract " ++ t_GEOID t) (t_geometry t))
            (grows tracts))).

(** The years the loop of [fetch_many_years] gets to: all of them, or those
    up to the first one whose exception the loop does not catch. *)
Fixpoint attempted_years {G} (L : Lib G) (net : Net G) (api_key : string)
    (years : list Z) : list Z :=
  match years with
  | [] => []
  | y :: years' =>
      y :: match fetch_outcome L net y api_key with
           | Raise e => if is_HTTPError e then attempted_years L net api_key years'
                        else []
           | Ok _ => attempted_years L net api_key years'
           end
  end.

(** The four diagnostic lines [fetch_acs5_rent] prints for a response. *)
Definition diagnostics {G} (r : response G) : list event :=
  [Print (newline ++ "--- Census API call failed ---");
   Print ("URL: " ++ url r);
   Print ("Status: " ++ string_of_Z (status_code r));
   Print ("Body (first 500 chars): " ++ take_chars 500 (text r))].

(** A state with events added to its trace. *)
Definition with_events {G} (s : state G) (evs : list event) : state G :=
  mkState (fs s) (trace s ++ evs)%list.


Definition export_features {G} (L : Lib G) (wide : wide_table)
    (ntas_gdf : geoframe (nta_row G)) : list (feature G) :=
  grows (to_crs L f_geometry feature_set_geometry "EPSG:4326"
           (mkGeo (crs ntas_gdf) (merge_features (grows ntas_gdf) wide))).

(** A computation that exports nothing but the file [out], and that at most
    once; that has exported it when it returns; whose export leaves a
    feature collection in EPSG:4326 at [out]; and that leaves every other
    file that [keep] selects as it was. *)
Definition exports_only {G A} (keep : string -> bool) (out : string)
    (c : M G A) : Prop :=
  forall s,
    (exports (trace (snd (c s))) = exports (trace s)
     \/ exports (trace (snd (c s))) = (exports (trace s) ++ [out])%list)
    /\ (is_ok (fst (c s)) = true ->
        exports (trace (snd (c s))) = (exports (trace s) ++ [out])%list)
    /\ (exports (trace (snd (c s))) = (exports (trace s) ++ [out])%list ->
        exists feats,
          lookup_file (files (fs (snd (c s)))) out = Some (Plain (GeoJSON "EPSG:4326" feats)))
    /\ (forall q, keep q = true -> q <> out ->
          lookup_file (files (fs (snd (c s)))) q = lookup_file (files (fs s)) q).

(** The median as the specification words it, on the values in ascending
    order: the middle one, or the mean of the two middle ones; NaN when
    there is none. *)
Definition median_of_sorted (xs : list float) : float :=
  let n := List.length xs in
  match n with
  | O => NaN
  | _ => if Nat.odd n then nth (n / 2) xs NaN
         else ((nth (n / 2 - 1) xs NaN + nth (n / 2) xs NaN) / 2)%float
  end.

(** Values in ascending order. *)
Definition ascending (xs : list float) : Prop :=
  StronglySorted (fun x y => PrimFloat.leb x y = true) xs.

(** The same number: equal as float64 compares them (a zero of either
    sign is the same number), or both missing. *)
Definition same_number (x y : float) : Prop :=
  PrimFloat.eqb x y = true
  \/ (PrimFloat.is_nan x = true /\ PrimFloat.is_nan y = true).

Definition sf_same (f g : spec_float) : Prop :=
  SFeqb f g = true \/ (f = S754_nan /\ g = S754_nan).

(** The order of float64 on the values that are not NaN, as the order of
    triples of integers (class and sign, exponent, mantissa). *)
Definition sf_rank (f : spec_float) : Z * Z * Z :=
  match f with
  | S754_zero _ => (0, 0, 0)
  | S754_infinity s => (if s then -2 else 2, 0, 0)
  | S754_nan => (0, 0, 0)
  | S754_finite s m e => if s then (-1, - e, - Z.pos m) else (1, e, Z.pos m)
  end.

Definition lex_lt (p q : Z * Z * Z) : Prop :=
  let '(a, b, c) := p in
  let '(a', b', c') := q in
  a < a' \/ (a = a' /\ (b < b' \/ (b = b' /\ c < c'))).

(** What the inner loop of the selection keeps true of the array [a],
    started from [a0] on the cells [left .. m] with the pivot [x]: the cells
    outside are untouched, the cells inside hold the values they held, no
    cell before [i] is above the pivot and no cell after [j] is below it. *)
Definition part_inv (a0 a : list float) (x : float) (left m i j : Z) : Prop :=
  List.length a = List.length a0
  /\ Permutation a a0
  /\ (forall p, p < left \/ m < p -> arr_get a p = arr_get a0 p)
  /\ (forall p, left <= p <= m ->
        exists p', left <= p' <= m /\ arr_get a p = arr_get a0 p')
  /\ (forall p, left <= p < i -> PrimFloat.ltb x (arr_get a p) = false)
  /\ (forall q, j < q <= m -> PrimFloat.ltb (arr_get a q) x = false).

(** The cell [k] is in its place: no cell before it is above it and no cell
    after it is below it. *)
Definition selected (a : list float) (k : Z) : Prop :=
  (forall p, 0 <= p < k -> PrimFloat.ltb (arr_get a k) (arr_get a p) = false)
  /\ (forall q, k < q < Z.of_nat (List.length a) ->
        PrimFloat.ltb (arr_get a q) (arr_get a k) = false).

(** A path without empty components, [.] or [..], and not absolute. *)
Definition plain_path (p : string) : bool :=
  forallb (fun c => negb (invalid_path_part c)) (split_on "/"%char p).


(* ------------------------------------------------------------------------- *)
(** ** Concrete inputs *)

(** Two tracts and one unit polygon: the first tract lies inside the unit,
    the second lies outside every unit. *)
Definition two_tracts : geoframe (tract_row box) :=
  mkGeo "EPSG:2263"
    [mkTract "36005000100" (mkBox 0 0 1 1); mkTract "36005000200" (mkBox 5 5 7 7)].

Definition one_unit : geoframe (nta_row box) :=
  mkGeo "EPSG:2263" [mkNta "BX01" "Claremont" (mkBox 0 0 2 2)].

(** One tract inside two overlapping unit polygons. *)
Definition one_tract : geoframe (tract_row box) :=
  mkGeo "EPSG:2263" [mkTract "36005000100" (mkBox 0 0 1 1)].

Definition overlapping_units : geoframe (nta_row box) :=
  mkGeo "EPSG:2263"
    [mkNta "BX01" "Claremont" (mkBox 0 0 2 2); mkNta "BX02" "Bathgate" (mkBox 0 0 3 3)].

(** Three tracts of one unit, with their rents of one year. *)
Definition three_tract_cross : list cross_row :=
  [mkCross "36005000100" (Some "BX01") (Some "Claremont");
   mkCross "36005000200" (Some "BX01") (Some "Claremont");
   mkCross "36005000300" (Some "BX01") (Some "Claremont")].

Definition three_rents (a b c : float) : list rent_row :=
  [mkRent (Some "36005000100") 2019 a;
   mkRent (Some "36005000200") 2019 b;
   mkRent (Some "36005000300") 2019 c].

(** A statistics server that answers for 2019 and 2021; what happens to the
    request for 2020 is a parameter. *)
Definition census_2019 : list (list json_cell) :=
  [census_header; census_row (JStr "1000") "005" "000100"].

Definition census_2021 : list (list json_cell) :=
  [census_header; census_row (JStr "1100") "005" "000100"].

Definition three_year_net (middle : string -> result (response box)) : Net box :=
  fun u _ =>
    if String.eqb u (census_acs5_url 2019) then Ok (ok_response u census_2019)
    else if String.eqb u (census_acs5_url 2020) then middle u
    else if String.eqb u (census_acs5_url 2021) then Ok (ok_response u census_2021)
    else Raise (ConnectionError "Max retries exceeded").

(** The request for 2020 answered with status 404, and not answered at all. *)
Definition not_found (u : string) : result (response box) :=
  Ok (error_response 404 "Not Found" u).

Definition refused (u : string) : result (response box) :=
  Raise (ConnectionError "Connection refused").

(** A server on which every statistics request meets status 404. *)
Definition always_404 : Net box := fun u _ => Ok (error_response 404 "Not Found" u).

(** An index table without the reference year 2025, in a file system. *)
Definition cpi_without_2025 : list (Z * float) := [(2019, 100%float); (2021, 120%float)].

Definition fs_cpi_without_2025 : filesystem box :=
  mkFs [] [("cpi.csv", Plain (CpiCsv cpi_without_2025))].

(** The TIGER archive with a shapefile of three tracts, one of them outside
    the NYC counties; a server that delivers it and answers the statistics
    requests of [three_year_net]; and a network that is down. *)
Definition tiger_zip : content box :=
  ZipArchive
    [("tl_2020_36_tract.dbf", Raw "dbf");
     ("tl_2020_36_tract.shp",
      Shapefile [mkShp "36005000100" "005" (mkBox 0 0 1 1);
                 mkShp "36047000200" "047" (mkBox 1 0 2 1);
                 mkShp "36001000300" "001" (mkBox 5 5 6 6)])].

Definition pipeline_net : Net box :=
  fun u params =>
    if String.eqb u tiger_url then Ok (mkResp 200 "OK" u "" None tiger_zip None)
    else three_year_net not_found u params.

Definition network_down : Net box :=
  fun _ _ => Raise (ConnectionError "Network is unreachable").

(** Adjusted unit-year rows: a unit without any value, and a unit with a
    value for 2019 and none for 2020. *)
Definition long_with_nulls : list adj_row :=
  [mkAdj "BX01" "Claremont" 2019 NaN NaN;
   mkAdj "BX02" "Bathgate" 2019 1000 1500;
   mkAdj "BX02" "Bathgate" 2020 NaN NaN].

(** Units A and B, years 2019 and 2020, without a row for (A, 2020). *)
Definition long_missing_cell : list adj_row :=
  [mkAdj "A" "Unit A" 2019 1000 1500;
   mkAdj "B" "Unit B" 2019 1200 1800;
   mkAdj "B" "Unit B" 2020 1300 1900].


(** A server on which the archive download meets status 503. *)
Definition tiger_unavailable : Net box :=
  fun u _ => Ok (error_response 503 "Service Unavailable" u).

(** A file system holding the archive at a path of its own. *)
Definition fs_with_archive : filesystem box := mkFs [] [("tracts.zip", tiger_zip)].

(** A complete index table in a file system, and the arguments of a run. *)
Definition fs_cpi : filesystem box :=
  mkFs [] [("cpi.csv", Plain (CpiCsv [(2019, 100%float); (2021, 120%float);
                                      (2025, 150%float)]))].

Definition run_args : args := mkArgs "KEY" 2019 2021 "cpi.csv" "data/nta_rents.geojson".




(** A response table whose header names the county column twice. *)
Definition county_twice : list (list json_cell) :=
  [[JStr "NAME"; JStr VAR_NAME; JStr "county"; JStr "county"; JStr "tract"];
   [JStr "Census Tract"; JStr "1000"; JStr "005"; JStr "005"; JStr "000100"]].

(* ========================================================================= *)
(** * Properties *)

(* ------------------------------------------------------------------------- *)
(** ** Lists: sorting and duplicate removal *)

Section ListFacts.
Context {A : Type}.

Lemma insert_by_perm (leb : A -> A -> bool) (x : A) (l : list A) :
  Permutation (insert_by leb x l) (x :: l).
Proof.
  induction l as [|y l IH]; cbn.
  - reflexivity.
  - destruct (leb x y).
    + reflexivity.
    + rewrite IH. apply perm_swap.
Qed.

Lemma sort_by_perm (leb : A -> A -> bool) (l : list A) :
  Permutation (sort_by leb l) l.
Proof.
  induction l as [|x l IH]; cbn.
  - reflexivity.
  - rewrite insert_by_perm. now constructor.
Qed.

Lemma sort_by_In (leb : A -> A -> bool) (l : list A) (x : A) :
  In x (sort_by leb l) <-> In x l.
Proof.
  split; apply Permutation_in; [|symmetry]; apply sort_by_perm.
Qed.

Lemma sort_by_NoDup (leb : A -> A -> bool) (l : list A) :
  NoDup l -> NoDup (sort_by leb l).
Proof.
  intros H. eapply Permutation_NoDup; [symmetry; apply sort_by_perm | exact H].
Qed.

Variable eqb : A -> A -> bool.
Hypothesis eqb_eq : forall a b, eqb a b = true <-> a = b.

Lemma dedup_In (l : list A) (x : A) : In x (dedup eqb l) <-> In x l.
Proof.
  induction l as [|y l IH]; cbn; [tauto|].
  rewrite filter_In, IH. split.
  - tauto.
  - intros [->|Hx]; [now left|].
    destruct (eqb y x) eqn:E.
    + left. now apply eqb_eq.
    + right. split; [exact Hx | reflexivity].
Qed.

Lemma dedup_NoDup (l : list A) : NoDup (dedup eqb l).
Proof.
  induction l as [|y l IH]; cbn; constructor.
  - rewrite filter_In. intros [_ H].
    assert (E : eqb y y = true) by now apply eqb_eq.
    now rewrite E in H.
  - now apply NoDup_filter.
Qed.

Lemma NoDup_map_filter {B} (rows : list A) (key : A -> B) (sel : A -> bool)
  (Hkeys : NoDup (map key rows)) :
  NoDup (map key (filter sel rows)).
Proof.
  revert Hkeys. induction rows as [|y rows IH]; cbn; intros H; [constructor|].
  inversion H as [|? ? Hn Hd]; subst.
  destruct (sel y); cbn; [constructor|]; auto.
  intros Hin. apply Hn.
  apply in_map_iff in Hin as (a & <- & Ha).
  apply filter_In in Ha as [Ha _]. now apply in_map.
Qed.

Lemma NoDup_map_dedup {B} (f : A -> B) (l : list A) :
  NoDup (map f l) -> NoDup (map f (dedup eqb l)).
Proof.
  induction l as [|y l IH]; cbn; intros H; [constructor|].
  inversion H as [|? ? Hn Hd]; subst. constructor.
  - intros Hin. apply Hn.
    apply in_map_iff in Hin as (a & <- & Ha).
    apply filter_In in Ha as [Ha _]. apply in_map, dedup_In, Ha.
  - apply NoDup_map_filter, IH, Hd.
Qed.

(** In a list without repetition, the elements equal to a member are that
    member alone. *)
Lemma filter_eqb_NoDup (l : list A) (x : A) :
  NoDup l -> In x l -> filter (eqb x) l = [x].
Proof.
  induction l as [|y l IH]; cbn; intros Hnd Hin; [contradiction|].
  inversion Hnd as [|? ? Hn Hd]; subst.
  destruct (eqb x y) eqn:E.
  - apply eqb_eq in E. subst y. f_equal.
    clear IH Hin Hd Hnd. induction l as [|z l IH]; cbn; [reflexivity|].
    destruct (eqb x z) eqn:E.
    + apply eqb_eq in E. subst z. exfalso. apply Hn. now left.
    + apply IH. intros H. apply Hn. now right.
  - destruct Hin as [->|Hin].
    + assert (E' : eqb x x = true) by now apply eqb_eq. congruence.
    + now apply IH.
Qed.
End ListFacts.

Lemma option_eqb_eq {A} (eqb : A -> A -> bool) :
  (forall a b, eqb a b = true <-> a = b) ->
  forall a b, option_eqb eqb a b = true <-> a = b.
Proof.
  intros H [a|] [b|]; cbn; try (split; congruence).
  rewrite H. split; congruence.
Qed.

Lemma string_eqb_eq (a b : string) : String.eqb a b = true <-> a = b.
Proof. apply String.eqb_eq. Qed.

Lemma cross_row_eqb_eq (a b : cross_row) : cross_row_eqb a b = true <-> a = b.
Proof.
  destruct a as [g1 c1 n1], b as [g2 c2 n2]. unfold cross_row_eqb; cbn.
  rewrite !andb_true_iff, String.eqb_eq, !(option_eqb_eq _ string_eqb_eq).
  split.
  - intros [[-> ->] ->]. reflexivity.
  - intros H. injection H as -> -> ->. auto.
Qed.

Lemma key_eqb_eq (a b : group_key) : key_eqb a b = true <-> a = b.
Proof.
  destruct a as [[c1 n1] y1], b as [[c2 n2] y2]. cbn.
  rewrite !andb_true_iff, !String.eqb_eq, Z.eqb_eq.
  split.
  - intros [[-> ->] ->]. reflexivity.
  - intros H. injection H as -> -> ->. auto.
Qed.

Lemma unit_eqb_eq (a b : unit_key) : unit_eqb a b = true <-> a = b.
Proof.
  destruct a as [c1 n1], b as [c2 n2]. unfold unit_eqb; cbn.
  rewrite andb_true_iff, !String.eqb_eq.
  split.
  - intros [-> ->]. reflexivity.
  - intros H. injection H as -> ->. auto.
Qed.

Lemma Z_eqb_eq (a b : Z) : Z.eqb a b = true <-> a = b.
Proof. apply Z.eqb_eq. Qed.

(* ------------------------------------------------------------------------- *)
(** ** The crosswalk *)

Lemma filter_flat_map {A B} (rows : list A) (expand : A -> list B) (sel : B -> bool) :
  filter sel (flat_map expand rows) = flat_map (fun a => filter sel (expand a)) rows.
Proof.
  induction rows as [|a rows IH]; cbn; [reflexivity|].
  now rewrite filter_app, IH.
Qed.

Lemma flat_map_map {A B C} (g : A -> B) (f : B -> list C) (l : list A) :
  flat_map f (map g l) = flat_map (fun a => f (g a)) l.
Proof.
  induction l as [|a l IH]; cbn; [reflexivity|]. now rewrite IH.
Qed.

Section Crosswalk.
Context {G : Type} (L : Lib G).
Variables (tracts : geoframe (tract_row G)) (ntas : geoframe (nta_row G)).

Lemma sjoin_rows :
  sjoin_left_within L
    (grows (to_crs L t_geometry tract_set_geometry (crs ntas) tracts)) (grows ntas)
  = flat_map (joined_rows L tracts ntas) (grows tracts).
Proof.
  unfold sjoin_left_within, to_crs, joined_rows, containing_units, tract_geometry_in.
  destruct (String.eqb (crs tracts) (crs ntas)); cbn [grows].
  - reflexivity.
  - now rewrite flat_map_map.
Qed.

Lemma joined_rows_GEOID (t : tract_row G) (c : cross_row) :
  In c (joined_rows L tracts ntas t) -> GEOID c = t_GEOID t.
Proof.
  unfold joined_rows. destruct (containing_units L tracts ntas t) as [|n ms].
  - intros [<-|[]]. reflexivity.
  - intros H. apply in_map_iff in H as (m & <- & _). reflexivity.
Qed.

Lemma crosswalk_In (c : cross_row) :
  In c (spatial_join_to_nta L tracts ntas) <->
  exists t, In t (grows tracts) /\ In c (joined_rows L tracts ntas t).
Proof.
  unfold spatial_join_to_nta.
  rewrite (dedup_In _ cross_row_eqb_eq), sjoin_rows, in_flat_map. reflexivity.
Qed.
End Crosswalk.

(** C8, as stated, fails: a tract lying inside two overlapping unit
    polygons has two crosswalk rows, one per unit, and deduplication of
    whole rows keeps both. *)
Lemma crosswalk_tract_twice :
  spatial_join_to_nta box_lib one_tract overlapping_units
  = [mkCross "36005000100" (Some "BX01") (Some "Claremont");
     mkCross "36005000100" (Some "BX02") (Some "Bathgate")]
  /\ ~ NoDup (map GEOID (spatial_join_to_nta box_lib one_tract overlapping_units)).
Proof.
  split; [reflexivity|].
  intros H. inversion H as [|? ? Hn _]. apply Hn. now left.
Qed.

(** C8, amended: the crosswalk never holds the same
    (tract, unit code, unit name) row twice; and a tract identifier appears
    at most once in it when the tract identifiers of the input are distinct
    and every tract is within at most one unit polygon. *)
Theorem crosswalk_no_duplicates {G} (L : Lib G)
    (tracts : geoframe (tract_row G)) (ntas : geoframe (nta_row G)) :
  NoDup (spatial_join_to_nta L tracts ntas)
  /\ (NoDup (map t_GEOID (grows tracts)) ->
      (forall t, In t (grows tracts) ->
                 (List.length (containing_units L tracts ntas t) <= 1)%nat) ->
      NoDup (map GEOID (spatial_join_to_nta L tracts ntas))).
Proof.
  split.
  - apply (dedup_NoDup _ cross_row_eqb_eq).
  - intros Hids Hone. unfold spatial_join_to_nta.
    apply (NoDup_map_dedup _ cross_row_eqb_eq). rewrite sjoin_rows.
    assert (E : map GEOID (flat_map (joined_rows L tracts ntas) (grows tracts))
                = map t_GEOID (grows tracts)).
    { revert Hone. generalize (grows tracts) as l.
      induction l as [|t l IH]; intros Hone; cbn; [reflexivity|].
      rewrite map_app, IH by (intros; apply Hone; now right).
      specialize (Hone t (or_introl eq_refl)).
      unfold joined_rows.
      destruct (containing_units L tracts ntas t) as [|n [|n' ms]]; cbn in *;
        try reflexivity; lia. }
    now rewrite E.
Qed.

(** The amended C8 at work: the two tracts of [two_tracts] have distinct
    identifiers and are within at most one unit each. *)
Lemma crosswalk_no_duplicates_witness :
  NoDup (map GEOID (spatial_join_to_nta box_lib two_tracts one_unit)).
Proof.
  apply (crosswalk_no_duplicates box_lib two_tracts one_unit).
  - cbn. repeat constructor; cbn; intuition discriminate.
  - intros t [<-|[<-|[]]]; vm_compute; lia.
Defined.

(* ------------------------------------------------------------------------- *)
(** ** Tracts without a containing unit *)

(** The rows of the merge that survive [dropna] on the unit code, per rent
    record. *)
Lemma dropna_merge_left (rents : list rent_row) (cross : list cross_row) :
  dropna_code (merge_left rents cross)
  = flat_map
      (fun r =>
         map (fun c => mkMerged (geoid r) (year r) (estimate r)
                                (Some (GEOID c)) (nta_code c) (nta_name c))
             (filter (fun c => match nta_code c with Some _ => true | None => false end)
                     (filter (fun c => option_eqb String.eqb (geoid r) (Some (GEOID c)))
                             cross)))
      rents.
Proof.
  unfold dropna_code, merge_left. rewrite filter_flat_map.
  apply flat_map_ext. intros r.
  destruct (filter _ cross) as [|c ms] eqn:E; [reflexivity|].
  generalize (c :: ms) as l. clear.
  induction l as [|c l IH]; cbn; [reflexivity|].
  destruct (nta_code c) eqn:E; cbn; now rewrite ?E, IH.
Qed.

(** C4, as stated, fails: the spatial join is a left join, so a tract that
    is within no unit polygon stays in the crosswalk, with a missing unit
    code and name. *)
Lemma unmatched_tract_stays_in_crosswalk :
  containing_units box_lib two_tracts one_unit
    (mkTract "36005000200" (mkBox 5 5 7 7)) = []
  /\ In "36005000200" (map GEOID (spatial_join_to_nta box_lib two_tracts one_unit))
  /\ spatial_join_to_nta box_lib two_tracts one_unit
     = [mkCross "36005000100" (Some "BX01") (Some "Claremont");
        mkCross "36005000200" None None].
Proof.
  repeat split; try reflexivity. cbn. auto.
Qed.

(** C4, amended: a tract identifier none of whose geometries is within a
    unit polygon is in the crosswalk with a missing unit code and name, and
    with no other row; the statistical records of that tract are discarded
    before aggregation, whose result is the one obtained without them. *)
Theorem unmatched_tract_dropped {G} (L : Lib G)
    (tracts : geoframe (tract_row G)) (ntas : geoframe (nta_row G)) (id : string) :
  (exists t, In t (grows tracts) /\ t_GEOID t = id) ->
  (forall t, In t (grows tracts) -> t_GEOID t = id ->
             containing_units L tracts ntas t = []) ->
  In (mkCross id None None) (spatial_join_to_nta L tracts ntas)
  /\ (forall c, In c (spatial_join_to_nta L tracts ntas) -> GEOID c = id ->
                c = mkCross id None None)
  /\ (forall rents,
        aggregate_to_nta rents (spatial_join_to_nta L tracts ntas)
        = aggregate_to_nta (without_tract id rents) (spatial_join_to_nta L tracts ntas)).
Proof.
  intros (t0 & Ht0 & Hid0) Hout.
  assert (Hrows : forall c, In c (spatial_join_to_nta L tracts ntas) -> GEOID c = id ->
                            c = mkCross id None None).
  { intros c Hc Hg. apply crosswalk_In in Hc as (t & Ht & Hc).
    pose proof (joined_rows_GEOID L tracts ntas t c Hc) as Hgt.
    unfold joined_rows in Hc. rewrite (Hout t Ht) in Hc by congruence.
    destruct Hc as [<-|[]]. cbn in Hg. now rewrite Hg. }
  split; [|split; [exact Hrows|]].
  - apply crosswalk_In. exists t0. split; [exact Ht0|].
    unfold joined_rows. rewrite (Hout t0 Ht0 Hid0). rewrite Hid0. now left.
  - intros rents. unfold aggregate_to_nta.
    set (cross := spatial_join_to_nta L tracts ntas) in *.
    assert (E : dropna_code (merge_left rents cross)
                = dropna_code (merge_left (without_tract id rents) cross)).
    { rewrite !dropna_merge_left. unfold without_tract.
      induction rents as [|r rents IH]; cbn; [reflexivity|].
      destruct (option_eqb String.eqb (geoid r) (Some id)) eqn:E; cbn.
      - apply (option_eqb_eq _ string_eqb_eq) in E. rewrite <- IH.
        match goal with |- (?l ++ _)%list = _ => assert (El : l = []) end.
        { rewrite E.
          match goal with |- map _ ?l = _ => assert (Ef : l = []) end.
          { match goal with |- ?l = [] => destruct l as [|c l'] eqn:El' end;
              [reflexivity|exfalso].
            assert (Hc : In c (c :: l')) by now left.
            rewrite <- El' in Hc.
            apply filter_In in Hc as [Hc Hcode].
            apply filter_In in Hc as [Hc Hg].
            apply (option_eqb_eq _ string_eqb_eq) in Hg. injection Hg as Hg.
            rewrite (Hrows c Hc (eq_sym Hg)) in Hcode. discriminate. }
          now rewrite Ef. }
        now rewrite El.
      - now rewrite IH. }
    now rewrite E.
Qed.

(** The amended C4 at work: the second tract of [two_tracts] is within no
    unit polygon. *)
Lemma unmatched_tract_dropped_witness :
  In (mkCross "36005000200" None None) (spatial_join_to_nta box_lib two_tracts one_unit)
  /\ (forall c, In c (spatial_join_to_nta box_lib two_tracts one_unit) ->
                GEOID c = "36005000200" -> c = mkCross "36005000200" None None)
  /\ (forall rents,
        aggregate_to_nta rents (spatial_join_to_nta box_lib two_tracts one_unit)
        = aggregate_to_nta (without_tract "36005000200" rents)
                           (spatial_join_to_nta box_lib two_tracts one_unit)).
Proof.
  apply (unmatched_tract_dropped box_lib two_tracts one_unit "36005000200").
  - exists (mkTract "36005000200" (mkBox 5 5 7 7)). split; [cbn; auto | reflexivity].
  - intros t [<-|[<-|[]]]; cbn; intros; [discriminate | reflexivity].
Defined.

(* ------------------------------------------------------------------------- *)
(** ** Aggregation to unit-years *)

Lemma map_flat_map {A B C} (f : B -> C) (g : A -> list B) (l : list A) :
  map f (flat_map g l) = flat_map (fun a => map f (g a)) l.
Proof.
  induction l as [|a l IH]; cbn; [reflexivity|]. now rewrite map_app, IH.
Qed.

(** The values of a group of the merged table are the contributing
    estimates of its key. *)
Lemma group_values_spec (rents : list rent_row) (cross : list cross_row)
    (k : group_key) :
  group_values (dropna_code (merge_left rents cross)) k
  = contributing_estimates rents cross k.
Proof.
  destruct k as [[c n] y].
  rewrite dropna_merge_left. unfold group_values, contributing_estimates.
  rewrite filter_flat_map, map_flat_map. apply flat_map_ext. intros r.
  unfold unit_hits.
  induction cross as [|x cross IH]; cbn [filter map].
  - now destruct (year r =? y).
  - destruct (option_eqb String.eqb (geoid r) (Some (GEOID x)));
      cbn [filter map andb]; [|exact IH].
    destruct (nta_code x) as [c'|] eqn:Ec; cbn [filter map option_eqb]; [|exact IH].
    unfold key_of at 1. cbn [m_code m_name m_year]. rewrite Ec.
    destruct (nta_name x) as [n'|]; cbn [option_eqb key_eqb].
    + destruct (String.eqb c' c), (String.eqb n' n), (year r =? y) eqn:Ey;
        cbn [andb map]; rewrite IH; try reflexivity.
    + rewrite andb_false_r. exact IH.
Qed.

Lemma keys_of_In (df : list merged_row) (k : group_key) :
  In k (keys_of df) <-> exists m, In m df /\ key_of m = Some k.
Proof.
  unfold keys_of. rewrite in_flat_map. split.
  - intros (m & Hm & Hk). exists m. split; [exact Hm|].
    destruct (key_of m) as [k'|]; [|contradiction].
    destruct Hk as [->|[]]. reflexivity.
  - intros (m & Hm & Hk). exists m. split; [exact Hm|]. rewrite Hk. now left.
Qed.

Lemma group_keys_In (df : list merged_row) (k : group_key) :
  In k (group_keys df) <-> group_values df k <> [].
Proof.
  unfold group_keys. rewrite sort_by_In, (dedup_In _ key_eqb_eq), keys_of_In.
  unfold group_values. split.
  - intros (m & Hm & Hk) E. apply map_eq_nil in E.
    assert (Hin : In m (filter (fun m => option_eqb key_eqb (key_of m) (Some k)) df)).
    { apply filter_In. split; [exact Hm|].
      now apply (option_eqb_eq _ key_eqb_eq). }
    now rewrite E in Hin.
  - intros H.
    destruct (filter (fun m => option_eqb key_eqb (key_of m) (Some k)) df)
      as [|m l] eqn:E; [contradiction|].
    assert (Hin : In m (m :: l)) by now left.
    rewrite <- E in Hin. apply filter_In in Hin as [Hm Hk].
    exists m. split; [exact Hm|]. now apply (option_eqb_eq _ key_eqb_eq).
Qed.

Lemma group_keys_NoDup (df : list merged_row) : NoDup (group_keys df).
Proof. apply sort_by_NoDup, (dedup_NoDup _ key_eqb_eq). Qed.

(** The unit-year table has the key [k] iff estimates contribute to [k]. *)
Lemma aggregate_keys (rents : list rent_row) (cross : list cross_row) (k : group_key) :
  In k (map ny_key (aggregate_to_nta rents cross))
  <-> contributing_estimates rents cross k <> [].
Proof.
  unfold aggregate_to_nta. rewrite map_map.
  rewrite <- group_values_spec, <- group_keys_In.
  rewrite map_ext with (g := fun k => k); [now rewrite map_id|].
  now intros [[c n] y].
Qed.

(** The rows of the unit-year table with a given key. *)
Lemma aggregate_rows_of_key (rents : list rent_row) (cross : list cross_row)
    (c n : string) (y : Z) :
  contributing_estimates rents cross (c, n, y) <> [] ->
  filter (fun row => key_eqb (c, n, y) (ny_key row)) (aggregate_to_nta rents cross)
  = [mkNtaYear c n y (median (contributing_estimates rents cross (c, n, y)))].
Proof.
  intros H. unfold aggregate_to_nta.
  set (df := dropna_code (merge_left rents cross)).
  set (mk := fun k : group_key =>
               let '(c, n, y) := k in mkNtaYear c n y (median (group_values df k))).
  assert (E : forall l, filter (fun row => key_eqb (c, n, y) (ny_key row)) (map mk l)
                        = map mk (filter (key_eqb (c, n, y)) l)).
  { induction l as [|[[c' n'] y'] l IH]; [reflexivity|].
    cbn [map filter]. rewrite IH.
    change (ny_key (mk (c', n', y'))) with (c', n', y').
    now destruct (key_eqb (c, n, y) (c', n', y')). }
  rewrite E, (filter_eqb_NoDup _ key_eqb_eq).
  - cbn. unfold df. now rewrite group_values_spec.
  - apply group_keys_NoDup.
  - apply group_keys_In. unfold df. now rewrite group_values_spec.
Qed.

Lemma filter_notna_all_nan (vals : list float) :
  (forall v, In v vals -> PrimFloat.is_nan v = true) -> filter notna vals = [].
Proof.
  induction vals as [|v vals IH]; cbn; intros H; [reflexivity|].
  unfold notna at 1. rewrite (H v (or_introl eq_refl)). cbn.
  apply IH. intros; apply H; now right.
Qed.

(** C3, as stated, fails: a group all of whose estimates are missing stays
    in the unit-year table, with a missing value; the grouped median skips
    missing values but keeps the key. *)
Lemma all_null_group_appears :
  contributing_estimates (three_rents NaN NaN NaN) three_tract_cross
    ("BX01", "Claremont", 2019) = [NaN; NaN; NaN]
  /\ aggregate_to_nta (three_rents NaN NaN NaN) three_tract_cross
     = [mkNtaYear "BX01" "Claremont" 2019 NaN]
  /\ In ("BX01", "Claremont", 2019)
        (map ny_key (aggregate_to_nta (three_rents NaN NaN NaN) three_tract_cross)).
Proof.
  repeat split; try reflexivity. cbn. auto.
Qed.

(** C3, amended: for every group (unit code, unit name, year) with
    contributing records all of whose estimates are missing, the unit-year
    table has exactly one row of that key, and its value is missing (NaN),
    not zero. *)
Theorem all_null_group_is_null (rents : list rent_row) (cross : list cross_row)
    (c n : string) (y : Z) :
  contributing_estimates rents cross (c, n, y) <> [] ->
  (forall v, In v (contributing_estimates rents cross (c, n, y)) ->
             PrimFloat.is_nan v = true) ->
  filter (fun row => key_eqb (c, n, y) (ny_key row)) (aggregate_to_nta rents cross)
  = [mkNtaYear c n y NaN]
  /\ PrimFloat.is_nan NaN = true
  /\ NaN <> 0%float.
Proof.
  intros Hne Hnan. split; [|split].
  - rewrite (aggregate_rows_of_key rents cross c n y Hne).
    unfold median. now rewrite (filter_notna_all_nan _ Hnan).
  - reflexivity.
  - intros E. apply (f_equal PrimFloat.is_nan) in E. vm_compute in E. discriminate.
Qed.

(** The amended C3 at work on three tracts without an estimate. *)
Lemma all_null_group_is_null_witness :
  filter (fun row => key_eqb ("BX01", "Claremont", 2019) (ny_key row))
         (aggregate_to_nta (three_rents NaN NaN NaN) three_tract_cross)
  = [mkNtaYear "BX01" "Claremont" 2019 NaN]
  /\ PrimFloat.is_nan NaN = true
  /\ NaN <> 0%float.
Proof.
  apply (all_null_group_is_null (three_rents NaN NaN NaN) three_tract_cross
           "BX01" "Claremont" 2019).
  - vm_compute. discriminate.
  - vm_compute. intros v [<-|[<-|[<-|[]]]]; reflexivity.
Defined.

(** ** The grouped median

    The order of float64 on values that are not missing. *)

Lemma SFltb_rank (f g : spec_float) :
  f <> S754_nan -> g <> S754_nan ->
  (SFltb f g = true <-> lex_lt (sf_rank f) (sf_rank g)).
Proof.
  intros Hf Hg. unfold SFltb, SFcompare.
  destruct f as [s|s| |s m e], g as [s'|s'| |s' m' e']; try contradiction;
    try (destruct s; cbn; split; intros H; (lia || discriminate || reflexivity));
    try (destruct s'; cbn; split; intros H; (lia || discriminate || reflexivity));
    try (destruct s, s'; cbn; split; intros H; (lia || discriminate || reflexivity)).
  change (PosDef.Pos.compare_cont Eq m m') with (Pos.compare m m').
  destruct s, s'; cbn [sf_rank lex_lt];
    destruct (Z.compare_spec e e'); destruct (Pos.compare_spec m m'); cbn [CompOpp];
    split; intros HH; (lia || discriminate || reflexivity).
Qed.

Lemma SFeqb_rank (f g : spec_float) :
  f <> S754_nan -> g <> S754_nan ->
  (SFeqb f g = true <-> sf_rank f = sf_rank g).
Proof.
  intros Hf Hg. unfold SFeqb, SFcompare.
  destruct f as [s|s| |s m e], g as [s'|s'| |s' m' e']; try contradiction;
    try (destruct s; cbn; split; intros H; (congruence || discriminate || reflexivity));
    try (destruct s'; cbn; split; intros H; (congruence || discriminate || reflexivity));
    try (destruct s, s'; cbn; split; intros H; (congruence || discriminate || reflexivity)).
  change (PosDef.Pos.compare_cont Eq m m') with (Pos.compare m m').
  destruct s, s'; cbn [sf_rank];
    destruct (Z.compare_spec e e'); destruct (Pos.compare_spec m m'); cbn [CompOpp];
    split; intros HH; try discriminate; try reflexivity;
    try (injection HH; intros; lia); try (subst; reflexivity).
Qed.

Lemma notna_sf (x : float) : notna x = true <-> Prim2SF x <> S754_nan.
Proof.
  unfold notna, PrimFloat.is_nan. rewrite eqb_spec, negb_true_iff, negb_false_iff.
  split.
  - intros H E. rewrite E in H. discriminate.
  - intros H. apply SFeqb_rank; auto.
Qed.

Lemma ltb_rank (x y : float) :
  notna x = true -> notna y = true ->
  (PrimFloat.ltb x y = true <-> lex_lt (sf_rank (Prim2SF x)) (sf_rank (Prim2SF y))).
Proof.
  intros Hx Hy. rewrite ltb_spec. apply SFltb_rank; now apply notna_sf.
Qed.

Lemma ltb_nan_l (x y : float) : notna x = false -> PrimFloat.ltb x y = false.
Proof.
  intros H. rewrite ltb_spec.
  destruct (Prim2SF x) eqn:E; try reflexivity;
    exfalso; assert (Hn : notna x = true) by (apply notna_sf; rewrite E; discriminate);
    congruence.
Qed.

Lemma ltb_nan_r (x y : float) : notna y = false -> PrimFloat.ltb x y = false.
Proof.
  intros H. rewrite ltb_spec.
  destruct (Prim2SF y) eqn:E;
    try (exfalso; assert (Hn : notna y = true) by (apply notna_sf; rewrite E; discriminate);
         congruence).
  unfold SFltb, SFcompare. now destruct (Prim2SF x).
Qed.

Lemma ltb_irrefl (x : float) : PrimFloat.ltb x x = false.
Proof.
  destruct (notna x) eqn:Hx; [|now apply ltb_nan_l].
  destruct (PrimFloat.ltb x x) eqn:E; [|reflexivity].
  apply (ltb_rank x x Hx Hx) in E. destruct (sf_rank (Prim2SF x)) as [[a b] c].
  cbn in E. lia.
Qed.

Lemma ltb_asym (x y : float) : PrimFloat.ltb x y = true -> PrimFloat.ltb y x = false.
Proof.
  intros H.
  destruct (notna x) eqn:Hx; [|now rewrite ltb_nan_l in H].
  destruct (notna y) eqn:Hy; [|now rewrite ltb_nan_r in H].
  destruct (PrimFloat.ltb y x) eqn:E; [|reflexivity].
  apply (ltb_rank x y Hx Hy) in H. apply (ltb_rank y x Hy Hx) in E.
  destruct (sf_rank (Prim2SF x)) as [[a b] c], (sf_rank (Prim2SF y)) as [[a' b'] c'].
  cbn in *. lia.
Qed.

(** x <= y <= z gives x <= z, where [u <= v] is [v < u = false]. *)
Lemma not_ltb_trans (x y z : float) :
  notna y = true ->
  PrimFloat.ltb y x = false -> PrimFloat.ltb z y = false -> PrimFloat.ltb z x = false.
Proof.
  intros Hy H1 H2.
  destruct (notna x) eqn:Hx; [|now apply ltb_nan_r].
  destruct (notna z) eqn:Hz; [|now apply ltb_nan_l].
  destruct (PrimFloat.ltb z x) eqn:E; [|reflexivity]. exfalso.
  apply (ltb_rank z x Hz Hx) in E.
  assert (N1 : ~ lex_lt (sf_rank (Prim2SF y)) (sf_rank (Prim2SF x))).
  { intros H. apply (ltb_rank y x Hy Hx) in H. congruence. }
  assert (N2 : ~ lex_lt (sf_rank (Prim2SF z)) (sf_rank (Prim2SF y))).
  { intros H. apply (ltb_rank z y Hz Hy) in H. congruence. }
  destruct (sf_rank (Prim2SF x)) as [[a b] c], (sf_rank (Prim2SF y)) as [[a' b'] c'],
           (sf_rank (Prim2SF z)) as [[a'' b''] c''].
  cbn in *. lia.
Qed.

Lemma leb_not_ltb (x y : float) :
  notna x = true -> notna y = true ->
  PrimFloat.leb x y = negb (PrimFloat.ltb y x).
Proof.
  intros Hx Hy.
  destruct (PrimFloat.ltb y x) eqn:E; cbn [negb].
  - apply (ltb_rank y x Hy Hx) in E.
    rewrite leb_spec. unfold SFleb.
    assert (N1 : SFltb (Prim2SF x) (Prim2SF y) = false).
    { rewrite <- ltb_spec. apply ltb_asym. now apply (ltb_rank y x Hy Hx). }
    assert (N2 : SFeqb (Prim2SF x) (Prim2SF y) = false).
    { destruct (SFeqb (Prim2SF x) (Prim2SF y)) eqn:E2; [|reflexivity].
      apply SFeqb_rank in E2; try now apply notna_sf.
      rewrite E2 in E. destruct (sf_rank (Prim2SF y)) as [[a b] c]. cbn in E. lia. }
    unfold SFltb, SFeqb in N1, N2.
    destruct (SFcompare (Prim2SF x) (Prim2SF y)) as [[]|]; congruence.
  - rewrite leb_spec. unfold SFleb.
    destruct (SFltb (Prim2SF x) (Prim2SF y)) eqn:E1.
    + unfold SFltb in E1.
      destruct (SFcompare (Prim2SF x) (Prim2SF y)) as [[]|]; congruence.
    + assert (E2 : SFeqb (Prim2SF x) (Prim2SF y) = true).
      { apply SFeqb_rank; try now apply notna_sf.
        assert (N1 : ~ lex_lt (sf_rank (Prim2SF x)) (sf_rank (Prim2SF y))).
        { intros H. apply SFltb_rank in H; try now apply notna_sf. congruence. }
        assert (N2 : ~ lex_lt (sf_rank (Prim2SF y)) (sf_rank (Prim2SF x))).
        { intros H. apply (ltb_rank y x Hy Hx) in H. congruence. }
        destruct (sf_rank (Prim2SF x)) as [[a b] c], (sf_rank (Prim2SF y)) as [[a' b'] c'].
        cbn in *. f_equal; [f_equal|]; lia. }
      unfold SFeqb in E2.
      destruct (SFcompare (Prim2SF x) (Prim2SF y)) as [[]|]; congruence.
Qed.

(** Neither below the other: numerically equal. *)
Lemma not_ltb_eqb (x y : float) :
  notna x = true -> notna y = true ->
  PrimFloat.ltb x y = false -> PrimFloat.ltb y x = false ->
  PrimFloat.eqb x y = true.
Proof.
  intros Hx Hy H1 H2. rewrite eqb_spec.
  apply SFeqb_rank; try now apply notna_sf.
  assert (N1 : ~ lex_lt (sf_rank (Prim2SF x)) (sf_rank (Prim2SF y))).
  { intros H. apply (ltb_rank x y Hx Hy) in H. congruence. }
  assert (N2 : ~ lex_lt (sf_rank (Prim2SF y)) (sf_rank (Prim2SF x))).
  { intros H. apply (ltb_rank y x Hy Hx) in H. congruence. }
  destruct (sf_rank (Prim2SF x)) as [[a b] c], (sf_rank (Prim2SF y)) as [[a' b'] c'].
  cbn in *. f_equal; [f_equal|]; lia.
Qed.

(** *** Arrays *)

Lemma set_nth_length (a : list float) (i : nat) (v : float) :
  List.length (set_nth a i v) = List.length a.
Proof.
  revert i. induction a as [|x a IH]; intros [|i]; cbn; auto.
Qed.

Lemma nth_set_nth (a : list float) (i j : nat) (v d : float) :
  (i < List.length a)%nat ->
  nth j (set_nth a i v) d = if Nat.eqb j i then v else nth j a d.
Proof.
  revert i j. induction a as [|x a IH]; intros [|i] [|j] H; cbn in *; try lia; auto.
  apply IH. lia.
Qed.

Lemma arr_set_length (a : list float) (i : Z) (v : float) :
  List.length (arr_set a i v) = List.length a.
Proof. unfold arr_set. destruct (i <? 0); [reflexivity|apply set_nth_length]. Qed.

Lemma arr_swap_length (a : list float) (i j : Z) :
  List.length (arr_swap a i j) = List.length a.
Proof. unfold arr_swap. now rewrite !arr_set_length. Qed.

Lemma arr_get_set (a : list float) (i p : Z) (v : float) :
  0 <= i < Z.of_nat (List.length a) ->
  arr_get (arr_set a i v) p = if p =? i then v else arr_get a p.
Proof.
  intros Hi. unfold arr_get, arr_set.
  destruct (Z.ltb_spec i 0); [lia|].
  destruct (Z.ltb_spec p 0).
  - destruct (Z.eqb_spec p i); [lia|reflexivity].
  - rewrite nth_set_nth by lia.
    destruct (Nat.eqb_spec (Z.to_nat p) (Z.to_nat i)), (Z.eqb_spec p i); try lia; reflexivity.
Qed.

Lemma arr_get_swap (a : list float) (i j p : Z) :
  0 <= i < Z.of_nat (List.length a) -> 0 <= j < Z.of_nat (List.length a) ->
  arr_get (arr_swap a i j) p
  = if p =? j then arr_get a i else if p =? i then arr_get a j else arr_get a p.
Proof.
  intros Hi Hj. unfold arr_swap.
  rewrite arr_get_set by (rewrite arr_set_length; lia).
  destruct (Z.eqb_spec p j); [reflexivity|].
  now rewrite arr_get_set by lia.
Qed.

Lemma swap_head_perm (t : list float) (j : nat) (h d : float) :
  (j < List.length t)%nat ->
  Permutation (nth j t d :: set_nth t j h) (h :: t).
Proof.
  revert j. induction t as [|x t IH]; intros [|j] H; cbn in *; try lia.
  - apply perm_swap.
  - eapply perm_trans; [apply perm_swap|].
    eapply perm_trans; [apply perm_skip, IH; lia|]. apply perm_swap.
Qed.

Lemma swap_nth_perm (a : list float) (i j : nat) (d : float) :
  (i < List.length a)%nat -> (j < List.length a)%nat ->
  Permutation (set_nth (set_nth a i (nth j a d)) j (nth i a d)) a.
Proof.
  revert i j. induction a as [|h t IH]; intros [|i] [|j] Hi Hj; cbn in *; try lia.
  - reflexivity.
  - apply swap_head_perm; lia.
  - apply swap_head_perm; lia.
  - apply perm_skip, IH; lia.
Qed.

Lemma arr_swap_perm (a : list float) (i j : Z) :
  0 <= i < Z.of_nat (List.length a) -> 0 <= j < Z.of_nat (List.length a) ->
  Permutation (arr_swap a i j) a.
Proof.
  intros Hi Hj. unfold arr_swap, arr_set, arr_get.
  destruct (Z.ltb_spec i 0); [lia|]. destruct (Z.ltb_spec j 0); [lia|].
  apply swap_nth_perm; lia.
Qed.

(** *** The loops of the selection *)

Lemma scan_up_spec (a : list float) (x : float) (fuel : nat) (i q : Z) :
  i <= q -> PrimFloat.ltb (arr_get a q) x = false ->
  q - i < Z.of_nat fuel ->
  i <= scan_up fuel a x i <= q
  /\ PrimFloat.ltb (arr_get a (scan_up fuel a x i)) x = false
  /\ (forall p, i <= p < scan_up fuel a x i -> PrimFloat.ltb (arr_get a p) x = true)
  /\ (forall more, scan_up (fuel + more) a x i = scan_up fuel a x i).
Proof.
  revert i. induction fuel as [|fuel IH]; intros i Hiq Hq Hf; [lia|].
  cbn [scan_up Nat.add]. destruct (PrimFloat.ltb (arr_get a i) x) eqn:E.
  - assert (i <> q) by (intros ->; congruence).
    destruct (IH (i + 1)) as (B & S & P & F); try lia; [assumption|].
    split; [lia|]. split; [exact S|]. split; [|exact F].
    intros p Hp. destruct (Z.eq_dec p i) as [->|]; [exact E|]. apply P. lia.
  - split; [lia|]. split; [exact E|]. split; [|reflexivity]. intros p Hp. lia.
Qed.

Lemma scan_down_spec (a : list float) (x : float) (fuel : nat) (j p : Z) :
  p <= j -> PrimFloat.ltb x (arr_get a p) = false ->
  j - p < Z.of_nat fuel ->
  p <= scan_down fuel a x j <= j
  /\ PrimFloat.ltb x (arr_get a (scan_down fuel a x j)) = false
  /\ (forall q, scan_down fuel a x j < q <= j -> PrimFloat.ltb x (arr_get a q) = true)
  /\ (forall more, scan_down (fuel + more) a x j = scan_down fuel a x j).
Proof.
  revert j. induction fuel as [|fuel IH]; intros j Hpj Hp Hf; [lia|].
  cbn [scan_down Nat.add]. destruct (PrimFloat.ltb x (arr_get a j)) eqn:E.
  - assert (j <> p) by (intros ->; congruence).
    destruct (IH (j - 1)) as (B & S & P & F); try lia; [assumption|].
    split; [lia|]. split; [exact S|]. split; [|exact F].
    intros q Hq. destruct (Z.eq_dec q j) as [->|]; [exact E|]. apply P. lia.
  - split; [lia|]. split; [exact E|]. split; [|reflexivity]. intros q Hq. lia.
Qed.

Lemma partition_spec (a0 : list float) (x : float) (left m : Z) (bound : nat) :
  0 <= left -> m < Z.of_nat (List.length a0) -> (List.length a0 <= bound)%nat ->
  forall fuel a i j,
    part_inv a0 a x left m i j ->
    left <= i -> j <= m -> i <= j ->
    (exists q, i <= q <= m /\ PrimFloat.ltb (arr_get a q) x = false) ->
    (exists p, left <= p <= j /\ PrimFloat.ltb x (arr_get a p) = false) ->
    j - i < Z.of_nat fuel ->
    (forall a' i' j', partition bound fuel a x i j = (a', i', j') ->
       part_inv a0 a' x left m i' j'
       /\ j' < i' /\ left < i' /\ j' < m /\ i' <= m + 1 /\ left - 1 <= j')
    /\ (forall more more',
          partition (bound + more) (fuel + more') a x i j = partition bound fuel a x i j).
Proof.
  intros Hleft Hm Hb. induction fuel as [|fuel IH];
    intros a i j Hinv Hi Hj Hij (q & Hq & Sq) (p & Hp & Sp) Hf; [lia|].
  destruct Hinv as (Hlen & Hperm & Hout & Hreg & HL & HR).
  destruct (scan_up_spec a x bound i q) as (Bi & Si & Pi & Fi); try lia; [assumption|].
  destruct (scan_down_spec a x bound j p) as (Bj & Sj & Pj & Fj); try lia; [assumption|].
  assert (Fi' : forall more, scan_up (bound + more) a x i = scan_up bound a x i) by exact Fi.
  assert (Fj' : forall more, scan_down (bound + more) a x j = scan_down bound a x j)
    by exact Fj.
  set (i1 := scan_up bound a x i) in *.
  set (j1 := scan_down bound a x j) in *.
  assert (HL1 : forall r, left <= r < i1 -> PrimFloat.ltb x (arr_get a r) = false).
  { intros r Hr. destruct (Z.lt_ge_cases r i); [apply HL; lia|].
    apply ltb_asym, Pi. lia. }
  assert (HR1 : forall r, j1 < r <= m -> PrimFloat.ltb (arr_get a r) x = false).
  { intros r Hr. destruct (Z.lt_ge_cases j r); [apply HR; lia|].
    apply ltb_asym, Pj. lia. }
  assert (Hmore : forall more more',
            partition (bound + more) (S fuel + more') a x i j
            = (if i1 <=? j1 then
                 if j1 - 1 <? i1 + 1 then (arr_swap a i1 j1, i1 + 1, j1 - 1)
                 else partition (bound + more) (fuel + more') (arr_swap a i1 j1) x
                        (i1 + 1) (j1 - 1)
               else (a, i1, j1))).
  { intros more more'. cbn [partition Nat.add]. now rewrite Fi', Fj'. }
  assert (Hstep : partition bound (S fuel) a x i j
            = (if i1 <=? j1 then
                 if j1 - 1 <? i1 + 1 then (arr_swap a i1 j1, i1 + 1, j1 - 1)
                 else partition bound fuel (arr_swap a i1 j1) x (i1 + 1) (j1 - 1)
               else (a, i1, j1))) by reflexivity.
  rewrite Hstep. clear Hstep.
  destruct (Z.leb_spec i1 j1) as [Hle|Hgt].
  - assert (Ri : 0 <= i1 < Z.of_nat (List.length a)) by lia.
    assert (Rj : 0 <= j1 < Z.of_nat (List.length a)) by lia.
    assert (Hinv1 : part_inv a0 (arr_swap a i1 j1) x left m (i1 + 1) (j1 - 1)).
    { split; [now rewrite arr_swap_length|].
      split; [eapply perm_trans; [now apply arr_swap_perm|exact Hperm]|].
      split; [|split; [|split]].
      - intros r Hr. rewrite arr_get_swap by assumption.
        destruct (Z.eqb_spec r j1); [lia|]. destruct (Z.eqb_spec r i1); [lia|].
        now apply Hout.
      - intros r Hr. rewrite arr_get_swap by assumption.
        destruct (Z.eqb_spec r j1); [apply Hreg; lia|].
        destruct (Z.eqb_spec r i1); [apply Hreg; lia|]. now apply Hreg.
      - intros r Hr. rewrite arr_get_swap by assumption.
        destruct (Z.eqb_spec r j1) as [->|].
        + assert (E1 : i1 = j1) by lia. rewrite E1. exact Sj.
        + destruct (Z.eqb_spec r i1); [exact Sj|]. apply HL1. lia.
      - intros r Hr. rewrite arr_get_swap by assumption.
        destruct (Z.eqb_spec r j1); [exact Si|].
        destruct (Z.eqb_spec r i1); [lia|]. apply HR1. lia. }
    destruct (Z.ltb_spec (j1 - 1) (i1 + 1)) as [Hx|Hc].
    + split.
      * intros a' i' j' E. destruct (Z.leb_spec i1 j1); [|lia].
        destruct (Z.ltb_spec (j1 - 1) (i1 + 1)); [|lia].
        injection E as <- <- <-. split; [exact Hinv1|]. lia.
      * intros more more'. rewrite Hmore. reflexivity.
    + destruct (IH (arr_swap a i1 j1) (i1 + 1) (j1 - 1)) as [IH1 IH2];
        try assumption; try lia.
      * exists j1. split; [lia|]. rewrite arr_get_swap by assumption.
        now rewrite Z.eqb_refl.
      * exists i1. split; [lia|]. rewrite arr_get_swap by assumption.
        destruct (Z.eqb_spec i1 j1); [lia|]. now rewrite Z.eqb_refl.
      * destruct (Z.leb_spec i1 j1); [|lia].
        destruct (Z.ltb_spec (j1 - 1) (i1 + 1)); [lia|].
        split; [exact IH1|].
        intros more more'. rewrite Hmore.
        destruct (Z.leb_spec i1 j1); [|lia].
        destruct (Z.ltb_spec (j1 - 1) (i1 + 1)); [lia|]. apply IH2.
  - split.
    + intros a' i' j' E. destruct (Z.leb_spec i1 j1); [lia|].
      injection E as <- <- <-.
      split; [|lia]. repeat split; try assumption.
    + intros more more'. rewrite Hmore. reflexivity.
Qed.

Lemma arr_get_nth (a : list float) (i : nat) : arr_get a (Z.of_nat i) = nth i a NaN.
Proof.
  unfold arr_get. destruct (Z.ltb_spec (Z.of_nat i) 0); [lia|]. now rewrite Nat2Z.id.
Qed.

Lemma arr_get_notna (a : list float) (i : Z) :
  Forall (fun v => notna v = true) a -> 0 <= i < Z.of_nat (List.length a) ->
  notna (arr_get a i) = true.
Proof.
  intros Ha Hi. unfold arr_get. destruct (Z.ltb_spec i 0); [lia|].
  rewrite Forall_forall in Ha. apply Ha, nth_In. lia.
Qed.

Lemma kth_loop_done (bound fuel : nat) (a : list float) (k left m : Z) :
  m <= left -> kth_loop bound fuel a k left m = a.
Proof.
  intros H. destruct fuel; [reflexivity|]. cbn [kth_loop].
  destruct (Z.ltb_spec left m); [lia|reflexivity].
Qed.

Lemma kth_loop_spec (a0 : list float) (k : Z) (bound : nat) :
  Forall (fun v => notna v = true) a0 ->
  0 <= k < Z.of_nat (List.length a0) ->
  (List.length a0 <= bound)%nat ->
  forall fuel a left m,
    List.length a = List.length a0 -> Permutation a a0 ->
    0 <= left -> m < Z.of_nat (List.length a0) -> left <= k <= m ->
    (forall p q, 0 <= p < left -> left <= q < Z.of_nat (List.length a0) ->
                 PrimFloat.ltb (arr_get a q) (arr_get a p) = false) ->
    (forall p q, 0 <= p <= m -> m < q < Z.of_nat (List.length a0) ->
                 PrimFloat.ltb (arr_get a q) (arr_get a p) = false) ->
    m - left <= Z.of_nat fuel ->
    List.length (kth_loop bound fuel a k left m) = List.length a0
    /\ Permutation (kth_loop bound fuel a k left m) a0
    /\ selected (kth_loop bound fuel a k left m) k
    /\ (forall more more',
          kth_loop (bound + more) (fuel + more') a k left m
          = kth_loop bound fuel a k left m).
Proof.
  intros Hna Hk Hb. induction fuel as [|fuel IH];
    intros a left m Hlen Hperm Hleft Hm Hlkm HA HB Hf.
  - assert (left = k /\ m = k) as [-> ->] by lia.
    rewrite !kth_loop_done by lia.
    split; [exact Hlen|]. split; [exact Hperm|]. split; [split|].
    + intros p Hp. apply HA; lia.
    + intros q Hq. apply HB; lia.
    + intros more more'. now rewrite kth_loop_done by lia.
  - destruct (Z.ltb_spec left m) as [Hlt|Hge].
    2:{ assert (left = k /\ m = k) as [-> ->] by lia.
        rewrite !kth_loop_done by lia.
        split; [exact Hlen|]. split; [exact Hperm|]. split; [split|].
        + intros p Hp. apply HA; lia.
        + intros q Hq. apply HB; lia.
        + intros more more'. now rewrite kth_loop_done by lia. }
    assert (Hna' : Forall (fun v => notna v = true) a).
    { rewrite Forall_forall in *. intros v Hv. apply Hna.
      eapply Permutation_in; eassumption. }
    set (x := arr_get a k).
    assert (Hx : notna x = true) by (apply arr_get_notna; [assumption|lia]).
    destruct (partition_spec a x left m bound Hleft ltac:(lia) ltac:(lia) bound a left m)
      as [Hpart Hpmore]; try lia.
    { split; [reflexivity|]. split; [reflexivity|]. split; [reflexivity|].
      split; [intros p Hp; now exists p|]. split; intros; lia. }
    { exists k. split; [lia|]. apply ltb_irrefl. }
    { exists k. split; [lia|]. apply ltb_irrefl. }
    assert (Hstep : forall more more',
              kth_loop (bound + more) (S fuel + more') a k left m
              = (let '(a1, i, j) := partition bound bound a x left m in
                 kth_loop (bound + more) (fuel + more') a1 k
                   (if j <? k then i else left) (if k <? i then j else m))).
    { intros more more'. cbn [kth_loop Nat.add].
      destruct (Z.ltb_spec left m); [|lia]. fold x. now rewrite Hpmore. }
    assert (Hstep0 : kth_loop bound (S fuel) a k left m
              = (let '(a1, i, j) := partition bound bound a x left m in
                 kth_loop bound fuel a1 k
                   (if j <? k then i else left) (if k <? i then j else m))).
    { cbn [kth_loop]. destruct (Z.ltb_spec left m); [|lia]. reflexivity. }
    rewrite Hstep0. clear Hstep0.
    assert (Hgoal : forall P : list float -> Prop,
              (forall a1 i j, partition bound bound a x left m = (a1, i, j) ->
                 P (kth_loop bound fuel a1 k
                      (if j <? k then i else left) (if k <? i then j else m))
                 /\ (forall more more',
                       kth_loop (bound + more) (fuel + more') a1 k
                         (if j <? k then i else left) (if k <? i then j else m)
                       = kth_loop bound fuel a1 k
                           (if j <? k then i else left) (if k <? i then j else m))) ->
              P (let '(a1, i, j) := partition bound bound a x left m in
                 kth_loop bound fuel a1 k
                   (if j <? k then i else left) (if k <? i then j else m))
              /\ (forall more more',
                    kth_loop (bound + more) (S fuel + more') a k left m
                    = (let '(a1, i, j) := partition bound bound a x left m in
                       kth_loop bound fuel a1 k
                         (if j <? k then i else left) (if k <? i then j else m)))).
    { intros P HP. split.
      - destruct (partition bound bound a x left m) as [[a1 i] j] eqn:E.
        now apply (HP a1 i j).
      - intros more more'. rewrite Hstep.
        destruct (partition bound bound a x left m) as [[a1 i] j] eqn:E.
        now apply (HP a1 i j). }
    match goal with
    | |- List.length ?r = _ /\ Permutation ?r _ /\ selected ?r _ /\ _ =>
        enough (Hall : (fun r' => List.length r' = List.length a0
                                  /\ Permutation r' a0 /\ selected r' k) r
                       /\ (forall more more',
                             kth_loop (bound + more) (S fuel + more') a k left m = r))
          by (destruct Hall as ((H1 & H2 & H3) & H4); auto)
    end.
    apply (Hgoal (fun r' => List.length r' = List.length a0
                            /\ Permutation r' a0 /\ selected r' k)).
    intros a' i j E. cbv beta.
    destruct (Hpart a' i j E)
      as ((Hlen' & Hperm' & Hout & Hreg & HL & HR) & Hji & Hli & Hjm & Him & Hlj).
    assert (Hna'' : Forall (fun v => notna v = true) a').
    { rewrite Forall_forall in *. intros v Hv. apply Hna'.
      eapply Permutation_in; eassumption. }
    assert (Hzone : forall p, 0 <= p < Z.of_nat (List.length a0) ->
              exists p', arr_get a' p = arr_get a p'
                         /\ (p < left -> p' = p) /\ (m < p -> p' = p)
                         /\ (left <= p <= m -> left <= p' <= m)).
    { intros p Hp. destruct (Z.lt_ge_cases p left) as [H1|H1].
      - exists p. split; [apply Hout; lia|]. repeat split; lia.
      - destruct (Z.lt_ge_cases m p) as [H2|H2].
        + exists p. split; [apply Hout; lia|]. repeat split; lia.
        + destruct (Hreg p ltac:(lia)) as (p' & Hp' & Ep').
          exists p'. split; [exact Ep'|]. repeat split; lia. }
    assert (Hmid : forall p q, left <= p < i -> j < q <= m ->
              PrimFloat.ltb (arr_get a' q) (arr_get a' p) = false).
    { intros p q Hp Hq. apply (not_ltb_trans _ x _ Hx); [now apply HL|now apply HR]. }
    assert (Hlen2 : List.length a' = List.length a0) by congruence.
    assert (Hperm2 : Permutation a' a0) by (eapply perm_trans; eassumption).
    destruct (Z.ltb_spec j k) as [Hjk|Hjk]; destruct (Z.ltb_spec k i) as [Hki|Hki]; try lia.
    + (* j < k < i: the cell is in place *)
      rewrite kth_loop_done by lia.
      split; [|intros more more'; now rewrite kth_loop_done by lia].
      split; [exact Hlen2|]. split; [exact Hperm2|]. split.
      * intros p Hp. destruct (Z.lt_ge_cases p left) as [H1|H1].
        -- destruct (Hzone p ltac:(lia)) as (p' & Ep & Hp1 & _).
           destruct (Hzone k ltac:(lia)) as (k' & Ek & _ & _ & Hk3).
           rewrite Ep, Ek, (Hp1 H1). apply HA; lia.
        -- apply Hmid; lia.
      * intros q Hq. rewrite Hlen2 in Hq. destruct (Z.lt_ge_cases m q) as [H1|H1].
        -- destruct (Hzone q ltac:(lia)) as (q' & Eq' & _ & Hq2 & _).
           destruct (Hzone k ltac:(lia)) as (k' & Ek & _ & _ & Hk3).
           rewrite Eq', Ek, (Hq2 H1). apply HB; lia.
        -- apply Hmid; lia.
    + (* j < k, i <= k: go on in [i, m] *)
      destruct (IH a' i m) as (R1 & R2 & R3 & R4); try assumption; try lia; [| |now auto].
      * intros p q Hp Hq.
        destruct (Hzone p ltac:(lia)) as (p' & Ep & Hp1 & Hp2 & Hp3).
        destruct (Hzone q ltac:(lia)) as (q' & Eq' & Hq1 & Hq2 & Hq3).
        destruct (Z.lt_ge_cases p left) as [H1|H1].
        -- rewrite Ep, Eq', (Hp1 H1). apply HA; lia.
        -- destruct (Z.lt_ge_cases m q) as [H2|H2].
           ++ rewrite Ep, Eq', (Hq2 H2). apply HB; lia.
           ++ apply Hmid; lia.
      * intros p q Hp Hq.
        destruct (Hzone p ltac:(lia)) as (p' & Ep & Hp1 & Hp2 & Hp3).
        destruct (Hzone q ltac:(lia)) as (q' & Eq' & Hq1 & Hq2 & Hq3).
        rewrite Ep, Eq', (Hq2 ltac:(lia)). apply HB; lia.
    + (* k <= j, k < i: go on in [left, j] *)
      destruct (IH a' left j) as (R1 & R2 & R3 & R4); try assumption; try lia; [| |now auto].
      * intros p q Hp Hq.
        destruct (Hzone p ltac:(lia)) as (p' & Ep & Hp1 & Hp2 & Hp3).
        destruct (Hzone q ltac:(lia)) as (q' & Eq' & Hq1 & Hq2 & Hq3).
        rewrite Ep, Eq', (Hp1 ltac:(lia)). apply HA; lia.
      * intros p q Hp Hq.
        destruct (Hzone p ltac:(lia)) as (p' & Ep & Hp1 & Hp2 & Hp3).
        destruct (Hzone q ltac:(lia)) as (q' & Eq' & Hq1 & Hq2 & Hq3).
        destruct (Z.lt_ge_cases m q) as [H2|H2].
        -- rewrite Ep, Eq', (Hq2 H2). apply HB; lia.
        -- destruct (Z.lt_ge_cases p left) as [H1|H1].
           ++ rewrite Ep, Eq', (Hp1 H1). apply HA; lia.
           ++ apply Hmid; lia.
Qed.

(** What a selection returns: the array rearranged, with the cell [k] in its
    place; and the bound on the iterations of its loops is not reached, a
    larger bound giving the same arrays. *)
Lemma kth_smallest_c_spec (a : list float) (k : Z) :
  Forall (fun v => notna v = true) a ->
  0 <= k < Z.of_nat (List.length a) ->
  List.length (snd (kth_smallest_c a k (Z.of_nat (List.length a)))) = List.length a
  /\ Permutation (snd (kth_smallest_c a k (Z.of_nat (List.length a)))) a
  /\ selected (snd (kth_smallest_c a k (Z.of_nat (List.length a)))) k
  /\ fst (kth_smallest_c a k (Z.of_nat (List.length a)))
     = arr_get (snd (kth_smallest_c a k (Z.of_nat (List.length a)))) k
  /\ (forall more more',
        kth_loop (List.length a + more) (List.length a + more') a k 0
          (Z.of_nat (List.length a) - 1)
        = snd (kth_smallest_c a k (Z.of_nat (List.length a)))).
Proof.
  intros Hna Hk. unfold kth_smallest_c. cbn [fst snd]. rewrite Nat2Z.id.
  destruct (kth_loop_spec a k (List.length a) Hna Hk (le_n _) (List.length a) a 0
              (Z.of_nat (List.length a) - 1)) as (H1 & H2 & H3 & H4);
    try reflexivity; try lia; try (intros p q Hp Hq; lia).
  split; [exact H1|]. split; [exact H2|]. split; [exact H3|]. split; [reflexivity|exact H4].
Qed.

(** The bound on the iterations is not reached: with any larger bounds the
    selection leaves the same array. *)
Lemma selection_bound_not_reached (a : list float) (k : Z) (more more' : nat) :
  Forall (fun v => notna v = true) a ->
  0 <= k < Z.of_nat (List.length a) ->
  kth_loop (List.length a + more) (List.length a + more') a k 0
    (Z.of_nat (List.length a) - 1)
  = snd (kth_smallest_c a k (Z.of_nat (List.length a))).
Proof.
  intros Hna Hk. now destruct (kth_smallest_c_spec a k Hna Hk) as (_ & _ & _ & _ & H).
Qed.

(** *** Order statistics *)

Lemma filter_length_perm {A} (f : A -> bool) (l l' : list A) :
  Permutation l l' -> List.length (filter f l) = List.length (filter f l').
Proof.
  induction 1 as [|x l l' _ IH|x y l|l l' l'' _ IH1 _ IH2]; cbn.
  - reflexivity.
  - destruct (f x); cbn; now rewrite IH.
  - destruct (f x), (f y); reflexivity.
  - now rewrite IH1.
Qed.

Lemma filter_all {A} (f : A -> bool) (l : list A) :
  (forall x, In x l -> f x = true) -> filter f l = l.
Proof.
  induction l as [|x l IH]; cbn; intros H; [reflexivity|].
  rewrite (H x (or_introl eq_refl)). f_equal. apply IH. intros; apply H; now right.
Qed.

Lemma filter_none {A} (f : A -> bool) (l : list A) :
  (forall x, In x l -> f x = false) -> filter f l = [].
Proof.
  induction l as [|x l IH]; cbn; intros H; [reflexivity|].
  rewrite (H x (or_introl eq_refl)). apply IH. intros; apply H; now right.
Qed.

Lemma In_firstn_nth {A} (l : list A) (n : nat) (x d : A) :
  In x (firstn n l) -> exists i, (i < n)%nat /\ (i < List.length l)%nat /\ x = nth i l d.
Proof.
  intros H. apply (In_nth _ _ d) in H as (i & Hi & E).
  rewrite length_firstn in Hi. exists i. split; [lia|]. split; [lia|].
  rewrite nth_firstn in E. destruct (Nat.ltb_spec i n); [now symmetry|lia].
Qed.

Lemma In_skipn_nth {A} (l : list A) (n : nat) (x d : A) :
  In x (skipn n l) -> exists i, (n <= i)%nat /\ (i < List.length l)%nat /\ x = nth i l d.
Proof.
  intros H. apply (In_nth _ _ d) in H as (i & Hi & E).
  rewrite length_skipn in Hi. exists (n + i)%nat. split; [lia|]. split; [lia|].
  rewrite nth_skipn in E. now symmetry.
Qed.

Lemma count_split {A} (f : A -> bool) (l : list A) (n : nat) :
  List.length (filter f l)
  = (List.length (filter f (firstn n l)) + List.length (filter f (skipn n l)))%nat.
Proof.
  rewrite <- (firstn_skipn n l) at 1. now rewrite filter_app, length_app.
Qed.

Lemma ascending_nth (s : list float) (i j : nat) :
  ascending s -> (i < j)%nat -> (j < List.length s)%nat ->
  PrimFloat.leb (nth i s NaN) (nth j s NaN) = true.
Proof.
  intros Hs. revert i j. induction Hs as [|x s Hs IH Hx]; intros i j Hij Hj; cbn in *; [lia|].
  destruct j as [|j]; [lia|]. destruct i as [|i].
  - rewrite Forall_forall in Hx. apply Hx, nth_In. lia.
  - apply IH; lia.
Qed.

(** [x <= y] and [y < z] give [x < z]; [x < y] and [y <= z] give [x < z]. *)
Lemma le_lt_trans (x y z : float) :
  notna x = true ->
  PrimFloat.ltb y x = false -> PrimFloat.ltb y z = true -> PrimFloat.ltb x z = true.
Proof.
  intros Hx H1 H2. destruct (PrimFloat.ltb x z) eqn:E; [reflexivity|].
  rewrite (not_ltb_trans z x y Hx E H1) in H2. discriminate.
Qed.

Lemma lt_le_trans (x y z : float) :
  notna z = true ->
  PrimFloat.ltb x y = true -> PrimFloat.ltb z y = false -> PrimFloat.ltb x z = true.
Proof.
  intros Hz H1 H2. destruct (PrimFloat.ltb x z) eqn:E; [reflexivity|].
  rewrite (not_ltb_trans y z x Hz H2 E) in H1. discriminate.
Qed.

(** The selected cell holds the [k]-th value of every ascending arrangement
    of the array, up to the sign of a zero. *)
Lemma selected_order_statistic (a s : list float) (k : nat) :
  Forall (fun v => notna v = true) a ->
  (k < List.length a)%nat ->
  selected a (Z.of_nat k) ->
  Permutation s a -> ascending s ->
  PrimFloat.eqb (nth k a NaN) (nth k s NaN) = true.
Proof.
  intros Hna Hk [Hlo Hhi] Hperm Hs.
  assert (Hlen : List.length s = List.length a) by now apply Permutation_length.
  assert (Hns : Forall (fun v => notna v = true) s).
  { rewrite Forall_forall in *. intros v Hv. apply Hna. eapply Permutation_in; eassumption. }
  set (r := nth k a NaN). set (t := nth k s NaN).
  assert (Hr : notna r = true) by (rewrite Forall_forall in Hna; apply Hna, nth_In; lia).
  assert (Ht : notna t = true) by (rewrite Forall_forall in Hns; apply Hns, nth_In; lia).
  assert (Hsn : forall i, (i < List.length s)%nat -> notna (nth i s NaN) = true).
  { intros i Hi. rewrite Forall_forall in Hns. apply Hns, nth_In. exact Hi. }
  assert (Han : forall i, (i < List.length a)%nat -> notna (nth i a NaN) = true).
  { intros i Hi. rewrite Forall_forall in Hna. apply Hna, nth_In. exact Hi. }
  apply not_ltb_eqb; try assumption.
  - (* r < t is impossible: too many values above r in [s] *)
    destruct (PrimFloat.ltb r t) eqn:E; [exfalso|reflexivity].
    pose proof (filter_length_perm (fun y => PrimFloat.ltb r y) s a Hperm) as Hc.
    rewrite (count_split _ s k), (count_split _ a (S k)) in Hc.
    rewrite (filter_none _ (firstn (S k) a)) in Hc.
    2:{ intros x Hx. apply (In_firstn_nth _ _ _ NaN) in Hx as (i & Hi & Hi' & ->).
        destruct (Nat.eq_dec i k) as [->|Hne]; [apply ltb_irrefl|].
        specialize (Hlo (Z.of_nat i) ltac:(lia)). rewrite !arr_get_nth in Hlo. exact Hlo. }
    rewrite (filter_all _ (skipn k s)) in Hc.
    2:{ intros x Hx. apply (In_skipn_nth _ _ _ NaN) in Hx as (i & Hi & Hi' & ->).
        destruct (Nat.eq_dec i k) as [->|Hne]; [exact E|].
        apply (lt_le_trans r t); [now apply Hsn|exact E|].
        pose proof (ascending_nth s k i Hs ltac:(lia) Hi') as Hle.
        rewrite leb_not_ltb in Hle by (apply Hsn; lia).
        now apply negb_true_iff in Hle. }
    cbn [List.length] in Hc. rewrite length_skipn in Hc.
    pose proof (filter_length (fun y => PrimFloat.ltb r y) (skipn (S k) a)) as Hb.
    rewrite length_skipn in Hb. lia.
  - (* t < r is impossible: too many values below r in [s] *)
    destruct (PrimFloat.ltb t r) eqn:E; [exfalso|reflexivity].
    pose proof (filter_length_perm (fun y => PrimFloat.ltb y r) s a Hperm) as Hc.
    rewrite (count_split _ s (S k)), (count_split _ a k) in Hc.
    rewrite (filter_none _ (skipn k a)) in Hc.
    2:{ intros x Hx. apply (In_skipn_nth _ _ _ NaN) in Hx as (i & Hi & Hi' & ->).
        destruct (Nat.eq_dec i k) as [->|Hne]; [apply ltb_irrefl|].
        specialize (Hhi (Z.of_nat i) ltac:(lia)). rewrite !arr_get_nth in Hhi. exact Hhi. }
    rewrite (filter_all _ (firstn (S k) s)) in Hc.
    2:{ intros x Hx. apply (In_firstn_nth _ _ _ NaN) in Hx as (i & Hi & Hi' & ->).
        destruct (Nat.eq_dec i k) as [->|Hne]; [exact E|].
        apply (le_lt_trans _ t); [now apply Hsn| |exact E].
        pose proof (ascending_nth s i k Hs ltac:(lia) ltac:(lia)) as Hle.
        rewrite leb_not_ltb in Hle by (apply Hsn; lia).
        now apply negb_true_iff in Hle. }
    cbn [List.length] in Hc. rewrite length_firstn in Hc.
    pose proof (filter_length (fun y => PrimFloat.ltb y r) (firstn k a)) as Hb.
    rewrite length_firstn in Hb. lia.
Qed.

(** *** Numbers up to the sign of a zero *)

Lemma sf_same_refl (f : spec_float) : sf_same f f.
Proof.
  destruct f as [s|s| |s m e]; [left|left|right|left]; try reflexivity; auto.
  - unfold SFeqb, SFcompare. now destruct s.
  - unfold SFeqb, SFcompare. rewrite Z.compare_refl.
    change (PosDef.Pos.compare_cont Eq m m) with (Pos.compare m m).
    rewrite Pos.compare_refl. now destruct s.
Qed.

Lemma SFeqb_cases (f g : spec_float) :
  SFeqb f g = true ->
  f = g \/ (exists s s', f = S754_zero s /\ g = S754_zero s').
Proof.
  unfold SFeqb, SFcompare.
  destruct f as [s|s| |s m e], g as [s'|s'| |s' m' e']; intros H; try discriminate.
  - right. now exists s, s'.
  - destruct s'; discriminate.
  - destruct s'; discriminate.
  - destruct s; discriminate.
  - left. destruct s, s'; (reflexivity || discriminate).
  - destruct s; discriminate.
  - destruct s; discriminate.
  - destruct s'; discriminate.
  - left. change (PosDef.Pos.compare_cont Eq m m') with (Pos.compare m m') in H.
    destruct s, s'; try discriminate;
      destruct (Z.compare_spec e e'); try discriminate;
      destruct (Pos.compare_spec m m'); try discriminate; now subst.
Qed.

Lemma sf_same_prim (x y : float) :
  same_number x y <-> sf_same (Prim2SF x) (Prim2SF y).
Proof.
  unfold same_number, sf_same. rewrite eqb_spec. split; intros [H|[H1 H2]]; auto; right.
  - split.
    + destruct (Prim2SF x) eqn:E; try reflexivity; exfalso;
        assert (Hn : notna x = true) by (apply notna_sf; rewrite E; discriminate);
        unfold notna in Hn; rewrite H1 in Hn; discriminate.
    + destruct (Prim2SF y) eqn:E; try reflexivity; exfalso;
        assert (Hn : notna y = true) by (apply notna_sf; rewrite E; discriminate);
        unfold notna in Hn; rewrite H2 in Hn; discriminate.
  - split.
    + destruct (PrimFloat.is_nan x) eqn:E; [reflexivity|exfalso].
      assert (Hn : notna x = true) by (unfold notna; now rewrite E).
      apply notna_sf in Hn. contradiction.
    + destruct (PrimFloat.is_nan y) eqn:E; [reflexivity|exfalso].
      assert (Hn : notna y = true) by (unfold notna; now rewrite E).
      apply notna_sf in Hn. contradiction.
Qed.

Lemma SF64add_same (f f' g g' : spec_float) :
  SFeqb f f' = true -> SFeqb g g' = true ->
  sf_same (SF64add f g) (SF64add f' g').
Proof.
  intros Hf Hg.
  destruct (SFeqb_cases f f' Hf) as [<-|(s & s' & -> & ->)];
    destruct (SFeqb_cases g g' Hg) as [<-|(t & t' & -> & ->)].
  - apply sf_same_refl.
  - destruct f as [u|u| |u m e]; cbn.
    + left. destruct u, t, t'; reflexivity.
    + apply sf_same_refl.
    + right. auto.
    + apply sf_same_refl.
  - destruct g as [u|u| |u m e]; cbn.
    + left. destruct u, s, s'; reflexivity.
    + apply sf_same_refl.
    + right. auto.
    + apply sf_same_refl.
  - left. destruct s, s', t, t'; reflexivity.
Qed.

Lemma SF64div_two_same (f f' : spec_float) :
  sf_same f f' ->
  sf_same (SF64div f (Prim2SF 2)) (SF64div f' (Prim2SF 2)).
Proof.
  intros [H|[-> ->]]; [|apply sf_same_refl].
  destruct (SFeqb_cases f f' H) as [<-|(s & s' & -> & ->)]; [apply sf_same_refl|].
  left. destruct s, s'; reflexivity.
Qed.

Lemma mean_same (x x' y y' : float) :
  PrimFloat.eqb x x' = true -> PrimFloat.eqb y y' = true ->
  same_number ((x + y) / 2)%float ((x' + y') / 2)%float.
Proof.
  intros Hx Hy. apply sf_same_prim. rewrite !div_spec, !add_spec.
  apply SF64div_two_same, SF64add_same; now rewrite <- eqb_spec.
Qed.

Lemma SF64add_comm (f g : spec_float) : SF64add f g = SF64add g f.
Proof.
  unfold SF64add, SFadd.
  destruct f as [s|s| |s m e], g as [s'|s'| |s' m' e']; try reflexivity.
  - destruct s, s'; reflexivity.
  - destruct s, s'; reflexivity.
  - change IntDef.Z.min with Z.min. rewrite (Z.min_comm e e').
    now rewrite Z.add_comm.
Qed.

Lemma float_add_comm (x y : float) : (x + y)%float = (y + x)%float.
Proof. apply Prim2SF_inj. rewrite !add_spec. apply SF64add_comm. Qed.

Lemma same_number_refl (x : float) : same_number x x.
Proof. apply sf_same_prim, sf_same_refl. Qed.

Lemma eqb_notna (x y : float) :
  PrimFloat.eqb x y = true -> notna x = true /\ notna y = true.
Proof.
  rewrite eqb_spec. intros H. split; apply notna_sf; intros E; rewrite E in H.
  - discriminate.
  - unfold SFeqb, SFcompare in H. destruct (Prim2SF x); discriminate.
Qed.

(** *** Ascending arrangements exist *)

Lemma insert_by_In {A} (leb : A -> A -> bool) (x y : A) (l : list A) :
  In y (insert_by leb x l) -> y = x \/ In y l.
Proof.
  induction l as [|z l IH]; cbn.
  - intros [<-|[]]. now left.
  - destruct (leb x z); cbn.
    + intros [<-|H]; auto.
    + intros [<-|H]; auto. destruct (IH H); auto.
Qed.

Lemma leb_total (x y : float) :
  notna x = true -> notna y = true ->
  PrimFloat.leb x y = false -> PrimFloat.leb y x = true.
Proof.
  intros Hx Hy H. rewrite leb_not_ltb in * by assumption.
  apply negb_false_iff in H. apply negb_true_iff. now apply ltb_asym.
Qed.

Lemma leb_trans (x y z : float) :
  notna x = true -> notna y = true -> notna z = true ->
  PrimFloat.leb x y = true -> PrimFloat.leb y z = true -> PrimFloat.leb x z = true.
Proof.
  intros Hx Hy Hz. rewrite !leb_not_ltb by assumption.
  rewrite !negb_true_iff. intros H1 H2. now apply (not_ltb_trans x y z).
Qed.

Lemma insert_by_ascending (x : float) (l : list float) :
  notna x = true -> Forall (fun v => notna v = true) l ->
  ascending l -> ascending (insert_by PrimFloat.leb x l).
Proof.
  intros Hx Hl Hs. induction Hs as [|y l Hs IH Hy]; cbn.
  - constructor; constructor.
  - inversion Hl as [|? ? Hy' Hl']; subst.
    destruct (PrimFloat.leb x y) eqn:E.
    + constructor; [now constructor|]. constructor; [exact E|].
      rewrite Forall_forall in *. intros z Hz.
      apply (leb_trans x y z); auto.
    + constructor; [now apply IH|].
      rewrite Forall_forall in *. intros z Hz.
      apply insert_by_In in Hz as [->|Hz]; [now apply leb_total|now apply Hy].
Qed.

Lemma sort_by_ascending (l : list float) :
  Forall (fun v => notna v = true) l -> ascending (sort_by PrimFloat.leb l).
Proof.
  induction l as [|x l IH]; cbn; intros H; [constructor|].
  inversion H as [|? ? Hx Hl]; subst.
  apply insert_by_ascending; auto.
  clear IH H Hx. induction l as [|y l IH]; cbn; [constructor|].
  inversion Hl as [|? ? Hy Hl']; subst. specialize (IH Hl').
  rewrite Forall_forall in *. intros z Hz.
  apply insert_by_In in Hz as [->|Hz]; auto.
Qed.

(** *** The median *)

Lemma odd_of_nat (n : nat) : Z.odd (Z.of_nat n) = Nat.odd n.
Proof.
  induction n as [|n IH]; [reflexivity|].
  rewrite Nat2Z.inj_succ, Z.odd_succ, Nat.odd_succ, <- Z.negb_odd, IH.
  now rewrite Nat.negb_odd.
Qed.

(** What the selections of the median return, for an array none of whose
    values is missing. *)
Lemma calc_median_linear_spec (a s : list float) :
  Forall (fun v => notna v = true) a -> a <> [] ->
  Permutation s a -> ascending s ->
  let n := List.length a in
  if Nat.odd n then
    exists v, calc_median_linear a = v /\ In v a
              /\ PrimFloat.eqb v (nth (n / 2) s NaN) = true
  else
    exists hi lo, calc_median_linear a = ((hi + lo) / 2)%float
                  /\ In hi a /\ In lo a
                  /\ PrimFloat.eqb hi (nth (n / 2) s NaN) = true
                  /\ PrimFloat.eqb lo (nth (n / 2 - 1) s NaN) = true.
Proof.
  intros Hna Hne Hperm Hs n. unfold calc_median_linear. fold n.
  rewrite odd_of_nat.
  assert (Hn : (0 < n)%nat) by (destruct a; [contradiction|cbn; lia]).
  assert (Hk : 0 <= Z.of_nat n / 2 < Z.of_nat n).
  { split; [apply Z.div_pos; lia|apply Z.div_lt; lia]. }
  assert (Ek : Z.of_nat n / 2 = Z.of_nat (n / 2)).
  { now rewrite (Nat2Z.inj_div n 2). }
  destruct (kth_smallest_c_spec a (Z.of_nat n / 2) Hna Hk) as (L1 & P1 & S1 & V1 & _).
  fold n in L1, P1, S1, V1.
  destruct (kth_smallest_c a (Z.of_nat n / 2) (Z.of_nat n)) as [hi a1] eqn:E1.
  cbn [fst snd] in *.
  assert (Hna1 : Forall (fun v => notna v = true) a1).
  { rewrite Forall_forall in *. intros v Hv. apply Hna. eapply Permutation_in; eassumption. }
  assert (Hhi : PrimFloat.eqb hi (nth (n / 2) s NaN) = true).
  { rewrite V1, Ek, arr_get_nth.
    apply selected_order_statistic; try assumption.
    - rewrite L1. apply Nat.div_lt; lia.
    - now rewrite <- Ek.
    - eapply perm_trans; [exact Hperm|now apply Permutation_sym]. }
  assert (Ihi : In hi a).
  { rewrite V1, Ek, arr_get_nth. eapply Permutation_in; [exact P1|].
    apply nth_In. rewrite L1. apply Nat.div_lt; lia. }
  destruct (Nat.odd n) eqn:Eo.
  - exists hi. auto.
  - assert (Hn2 : (2 <= n)%nat).
    { destruct n as [|[|n']]; [lia|discriminate|lia]. }
    assert (Hk2 : 0 <= Z.of_nat n / 2 - 1 < Z.of_nat (List.length a1)).
    { rewrite L1. fold n. rewrite Ek.
      assert (1 <= n / 2)%nat by (apply Nat.div_le_lower_bound; lia).
      assert (n / 2 < n)%nat by (apply Nat.div_lt; lia). lia. }
    destruct (kth_smallest_c_spec a1 (Z.of_nat n / 2 - 1) Hna1 Hk2) as (L2 & P2 & S2 & V2 & _).
    rewrite L1 in L2, P2, S2, V2. fold n in L2, P2, S2, V2.
    destruct (kth_smallest_c a1 (Z.of_nat n / 2 - 1) (Z.of_nat n)) as [lo a2] eqn:E2.
    cbn [fst snd] in *.
    assert (Ek2 : Z.of_nat n / 2 - 1 = Z.of_nat (n / 2 - 1)).
    { rewrite Ek. assert (1 <= n / 2)%nat by (apply Nat.div_le_lower_bound; lia). lia. }
    exists hi, lo. split; [reflexivity|]. split; [exact Ihi|]. split; [|split; [exact Hhi|]].
    + rewrite V2, Ek2, arr_get_nth. eapply Permutation_in; [exact P1|].
      eapply Permutation_in; [exact P2|]. apply nth_In. rewrite L2. lia.
    + rewrite V2, Ek2, arr_get_nth.
      apply selected_order_statistic; try assumption.
      * rewrite Forall_forall in *. intros v Hv. apply Hna1.
        eapply Permutation_in; eassumption.
      * rewrite L2. lia.
      * now rewrite <- Ek2.
      * eapply perm_trans; [exact Hperm|]. apply Permutation_sym.
        eapply perm_trans; eassumption.
Qed.

Lemma filter_notna_Forall (vals : list float) :
  Forall (fun v => notna v = true) (filter notna vals).
Proof. rewrite Forall_forall. intros v Hv. now apply filter_In in Hv. Qed.

(** The grouped median is the median of the values that are not missing, up
    to the sign of a zero. *)
Lemma median_correct (vals s : list float) :
  Permutation s (filter notna vals) -> ascending s ->
  same_number (median vals) (median_of_sorted s).
Proof.
  intros Hperm Hs. unfold median, median_of_sorted.
  pose proof (Permutation_length Hperm) as Hlen.
  destruct (filter notna vals) as [|v tmp] eqn:E.
  - apply Permutation_sym, Permutation_nil in Hperm. subst s. right. split; reflexivity.
  - pose proof (filter_notna_Forall vals) as Hna. rewrite E in Hna.
    pose proof (calc_median_linear_spec (v :: tmp) s Hna ltac:(discriminate) Hperm Hs) as H.
    cbv zeta in H. rewrite <- Hlen in H.
    destruct (List.length s) as [|n] eqn:En; [cbn in Hlen; lia|].
    destruct (Nat.odd (S n)).
    + destruct H as (w & -> & _ & Hw). now left.
    + destruct H as (hi & lo & -> & _ & _ & Hhi & Hlo).
      rewrite (float_add_comm (nth _ s NaN)). now apply mean_same.
Qed.

(** It is that median exactly when numerically equal values of the group
    are identical (the group does not hold zeros of both signs). *)
Lemma median_exact (vals s : list float) :
  Permutation s (filter notna vals) -> ascending s ->
  (forall x y, In x vals -> In y vals -> PrimFloat.eqb x y = true -> x = y) ->
  median vals = median_of_sorted s.
Proof.
  intros Hperm Hs Hz. unfold median, median_of_sorted.
  pose proof (Permutation_length Hperm) as Hlen.
  assert (Hin : forall x, In x s -> In x vals).
  { intros x Hx. apply (Permutation_in _ Hperm) in Hx. now apply filter_In in Hx. }
  destruct (filter notna vals) as [|v tmp] eqn:E.
  - apply Permutation_sym, Permutation_nil in Hperm. now subst s.
  - pose proof (filter_notna_Forall vals) as Hna. rewrite E in Hna.
    assert (Hin' : forall x, In x (v :: tmp) -> In x vals).
    { intros x Hx. rewrite <- E in Hx. now apply filter_In in Hx. }
    pose proof (calc_median_linear_spec (v :: tmp) s Hna ltac:(discriminate) Hperm Hs) as H.
    cbv zeta in H. rewrite <- Hlen in H.
    destruct (List.length s) as [|n] eqn:En; [cbn in Hlen; lia|].
    assert (Hd : (S n / 2 < List.length s)%nat) by (rewrite En; apply Nat.div_lt; lia).
    destruct (Nat.odd (S n)) eqn:Eo.
    + destruct H as (w & -> & Iw & Hw). apply Hz; auto. apply Hin, nth_In, Hd.
    + destruct H as (hi & lo & -> & Ihi & Ilo & Hhi & Hlo).
      rewrite (float_add_comm (nth _ s NaN)).
      rewrite (Hz hi _ (Hin' _ Ihi) (Hin _ (nth_In _ _ Hd)) Hhi).
      assert (Hd' : (S n / 2 - 1 < List.length s)%nat) by lia.
      rewrite (Hz lo _ (Hin' _ Ilo) (Hin _ (nth_In _ _ Hd')) Hlo).
      reflexivity.
Qed.

(** A group holding zeros of both signs: the selections return the first
    of the two values both times. *)
Example median_of_two_zeros :
  median [(-0)%float; 0%float] = (-0)%float /\ median [0%float; (-0)%float] = 0%float.
Proof. split; vm_compute; reflexivity. Qed.

Lemma median_single (x : float) : median [x] = x.
Proof.
  unfold median. cbn [filter]. destruct (notna x) eqn:E.
  - reflexivity.
  - unfold notna in E. apply negb_false_iff in E.
    unfold PrimFloat.is_nan in E. apply negb_true_iff in E.
    symmetry. apply Prim2SF_inj. change (Prim2SF NaN) with S754_nan.
    destruct (Prim2SF x) eqn:Ex; try reflexivity; exfalso;
      assert (Hn : notna x = true) by (apply notna_sf; rewrite Ex; discriminate);
      unfold notna, PrimFloat.is_nan in Hn; rewrite E in Hn; discriminate.
Qed.

Lemma scan_up_eq (n : nat) (a : list float) (x : float) (i : Z) :
  scan_up (S n) a x i
  = if PrimFloat.ltb (arr_get a i) x then scan_up n a x (i + 1) else i.
Proof. reflexivity. Qed.

Lemma scan_down_eq (n : nat) (a : list float) (x : float) (j : Z) :
  scan_down (S n) a x j
  = if PrimFloat.ltb x (arr_get a j) then scan_down n a x (j - 1) else j.
Proof. reflexivity. Qed.

Lemma partition_eq (b f : nat) (a : list float) (x : float) (i j : Z) :
  partition b (S f) a x i j
  = (if scan_up b a x i <=? scan_down b a x j then
       if scan_down b a x j - 1 <? scan_up b a x i + 1
       then (arr_swap a (scan_up b a x i) (scan_down b a x j),
             scan_up b a x i + 1, scan_down b a x j - 1)
       else partition b f (arr_swap a (scan_up b a x i) (scan_down b a x j)) x
              (scan_up b a x i + 1) (scan_down b a x j - 1)
     else (a, scan_up b a x i, scan_down b a x j)).
Proof. reflexivity. Qed.

Lemma kth_loop_eq (b f : nat) (a : list float) (k left m : Z) :
  kth_loop b (S f) a k left m
  = if left <? m then
      kth_loop b f (fst (fst (partition b b a (arr_get a k) left m))) k
        (if snd (partition b b a (arr_get a k) left m) <? k
         then snd (fst (partition b b a (arr_get a k) left m)) else left)
        (if k <? snd (fst (partition b b a (arr_get a k) left m))
         then snd (partition b b a (arr_get a k) left m) else m)
    else a.
Proof.
  cbn [kth_loop]. destruct (left <? m); [|reflexivity].
  now destruct (partition b b a (arr_get a k) left m) as [[a1 i] j].
Qed.

(** The scans over two cells. *)
Lemma scans_two (a b x : float) :
  scan_up 2 [a; b] x 0
  = (if PrimFloat.ltb a x then if PrimFloat.ltb b x then 2 else 1 else 0)
  /\ scan_down 2 [a; b] x 1
     = (if PrimFloat.ltb x b then if PrimFloat.ltb x a then -1 else 0 else 1).
Proof.
  split.
  - rewrite scan_up_eq. change (arr_get [a; b] 0) with a.
    destruct (PrimFloat.ltb a x); [|reflexivity].
    rewrite scan_up_eq. change (arr_get [a; b] (0 + 1)) with b.
    now destruct (PrimFloat.ltb b x).
  - rewrite scan_down_eq. change (arr_get [a; b] 1) with b.
    destruct (PrimFloat.ltb x b); [|reflexivity].
    rewrite scan_down_eq. change (arr_get [a; b] (1 - 1)) with a.
    now destruct (PrimFloat.ltb x a).
Qed.

(** The selection of either cell of two values: the array afterwards. *)
Lemma kth_loop_two (a b : float) (k : Z) :
  k = 0 \/ k = 1 ->
  kth_loop 2 2 [a; b] k 0 1 = if PrimFloat.ltb a b then [a; b] else [b; a].
Proof.
  intros Hk. rewrite kth_loop_eq. change (0 <? 1) with true. cbv iota.
  rewrite partition_eq.
  destruct (scans_two a b (arr_get [a; b] k)) as [-> ->].
  pose proof (ltb_irrefl a) as Ia. pose proof (ltb_irrefl b) as Ib.
  destruct Hk as [-> | ->].
  - change (arr_get [a; b] 0) with a. rewrite Ia.
    destruct (PrimFloat.ltb a b) eqn:Eab; reflexivity.
  - change (arr_get [a; b] 1) with b. rewrite Ib.
    destruct (PrimFloat.ltb a b) eqn:Eab; reflexivity.
Qed.

Lemma median_pair (a b : float) :
  notna a = true -> notna b = true ->
  median [a; b]
  = (((if PrimFloat.ltb a b then b else a) + (if PrimFloat.ltb b a then b else a)) / 2)%float.
Proof.
  intros Ha Hb. unfold median. cbn [filter]. rewrite Ha, Hb.
  unfold calc_median_linear, kth_smallest_c.
  change (Z.of_nat (List.length [a; b])) with 2.
  change (Z.odd 2) with false. change (2 / 2) with 1. change (1 - 1) with 0.
  change (2 - 1) with 1. change (Z.to_nat 2) with 2%nat. cbv iota beta zeta.
  rewrite (kth_loop_two a b 1) by auto.
  destruct (PrimFloat.ltb a b) eqn:Eab.
  - rewrite (kth_loop_two a b 0) by auto. rewrite Eab.
    rewrite (ltb_asym a b Eab). reflexivity.
  - rewrite (kth_loop_two b a 0) by auto.
    destruct (PrimFloat.ltb b a) eqn:Eba; reflexivity.
Qed.

(** C6: every row of the unit-year table holds the median of the estimates
    contributing to its key that are not missing.  For every arrangement of
    those estimates in ascending order, the value of the row is the middle
    one, or the mean of the two middle ones: it is the same number, and the
    same float64 value when estimates that compare equal are identical (the
    group holds no zeros of both signs).  Such an arrangement always exists;
    every key with contributing estimates has a row; and the two groups of
    the specification, [1000, 1200, 1400] and [1000, null, 1400], both yield
    1200 (a null counted as zero would yield 1000). *)
Theorem aggregate_is_median_of_non_null :
  (forall rents cross row s,
      In row (aggregate_to_nta rents cross) ->
      Permutation s (filter notna (contributing_estimates rents cross (ny_key row))) ->
      ascending s ->
      same_number (ny_rent row) (median_of_sorted s)
      /\ ((forall x y,
             In x (contributing_estimates rents cross (ny_key row)) ->
             In y (contributing_estimates rents cross (ny_key row)) ->
             PrimFloat.eqb x y = true -> x = y) ->
          ny_rent row = median_of_sorted s))
  /\ (forall vals : list float,
        Permutation (sort_by PrimFloat.leb (filter notna vals)) (filter notna vals)
        /\ ascending (sort_by PrimFloat.leb (filter notna vals)))
  /\ (forall rents cross k,
        contributing_estimates rents cross k <> [] ->
        exists row, In row (aggregate_to_nta rents cross) /\ ny_key row = k)
  /\ aggregate_to_nta (three_rents 1000 1200 1400) three_tract_cross
     = [mkNtaYear "BX01" "Claremont" 2019 1200]
  /\ aggregate_to_nta (three_rents 1000 NaN 1400) three_tract_cross
     = [mkNtaYear "BX01" "Claremont" 2019 1200]
  /\ median [1000; 0; 1400]%float = 1000%float.
Proof.
  split; [|split; [|split; [|repeat split; vm_compute; reflexivity]]].
  - intros rents cross row s Hrow Hperm Hs.
    unfold aggregate_to_nta in Hrow. apply in_map_iff in Hrow as ([[c n] y] & <- & _).
    cbn [ny_rent ny_key ny_code ny_name ny_year] in *.
    rewrite group_values_spec. split.
    + now apply median_correct.
    + intros Hz. now apply median_exact.
  - intros vals. split.
    + apply sort_by_perm.
    + apply sort_by_ascending, filter_notna_Forall.
  - intros rents cross k Hk. apply aggregate_keys in Hk.
    apply in_map_iff in Hk as (row & E & Hrow). now exists row.
Qed.

(* ------------------------------------------------------------------------- *)
(** ** binary64 facts used by the inflation adjustment *)

Lemma digits2_iter_xO (n : nat) (m : positive) :
  Z.pos (digits2_pos (Nat.iter n xO m)) = (Z.pos (digits2_pos m) + Z.of_nat n)%Z.
Proof.
  induction n as [|n IH].
  - cbn [Nat.iter nat_rect]. lia.
  - rewrite Nat.iter_succ. cbn [digits2_pos]. lia.
Qed.

Lemma shr_1_iter_xO (n : nat) (m : positive) :
  Nat.iter n shr_1 {| shr_m := Z.pos (Nat.iter n xO m); shr_r := false; shr_s := false |}
  = {| shr_m := Z.pos m; shr_r := false; shr_s := false |}.
Proof.
  induction n as [|n IH].
  - reflexivity.
  - rewrite Nat.iter_succ_r. rewrite Nat.iter_succ. cbn [shr_1 orb]. exact IH.
Qed.

(** Multiplying a binary64 value by one gives the value back. *)
Lemma SF64mul_one_r (sf : spec_float) :
  valid_binary sf = true ->
  SF64mul sf (S754_finite false 4503599627370496 (-52)) = sf.
Proof.
  destruct sf as [s | s | | s m e]; intros Hv.
  - cbn. now rewrite xorb_false_r.
  - cbn. now rewrite xorb_false_r.
  - reflexivity.
  - unfold SF64mul, SFmul. rewrite xorb_false_r.
    unfold valid_binary, SpecFloat.valid_binary, bounded, canonical_mantissa in Hv.
    apply andb_true_iff in Hv as [Hc He].
    apply Z.eqb_eq in Hc.
    unfold binary_round_aux, shr_fexp.
    rewrite Pos.mul_comm.
    change (4503599627370496 * m)%positive with (Nat.iter 52 xO m).
    unfold Zdigits2 at 1. rewrite digits2_iter_xO.
    replace (Z.pos (digits2_pos m) + Z.of_nat 52 + (e + -52))%Z
      with (Z.pos (digits2_pos m) + e)%Z by lia.
    rewrite Hc.
    replace (e - (e + -52))%Z with 52%Z by lia.
    unfold shr at 1.
    change (iter_pos shr_1 52 ?x) with (Nat.iter 52 shr_1 x).
    change (shr_record_of_loc (Z.pos (Nat.iter 52 xO m)) loc_Exact)
      with {| shr_m := Z.pos (Nat.iter 52 xO m); shr_r := false; shr_s := false |}.
    rewrite shr_1_iter_xO.
    cbn [shr_m loc_of_shr_record shr_r shr_s round_nearest_even].
    replace (e + -52 + 52)%Z with e by lia.
    unfold Zdigits2. rewrite Hc, Z.sub_diag.
    cbn [shr shr_record_of_loc shr_m].
    now rewrite He.
Qed.

(** A finite non-zero binary64 value divided by itself is one. *)
Lemma SF64div_self (s : bool) (m : positive) (e : Z) :
  SF64div (S754_finite s m e) (S754_finite s m e)
  = S754_finite false 4503599627370496 (-52).
Proof.
  unfold SF64div, SFdiv. rewrite xorb_nilpotent.
  unfold SFdiv_core_binary.
  replace (Zdigits2 (Z.pos m) + e - (Zdigits2 (Z.pos m) + e))%Z with 0%Z by lia.
  rewrite Z.sub_diag.
  change (IntDef.Z.min (fexp prec emax 0) 0) with (-53)%Z.
  change (0 - -53)%Z with 53%Z. cbv iota beta zeta.
  change IntDef.Z.shiftl with Z.shiftl. change IntDef.Z.div_eucl with Z.div_eucl.
  rewrite Z.shiftl_mul_pow2 by lia.
  assert (Hq : Z.div_eucl (Z.pos m * 2 ^ 53) (Z.pos m) = (2 ^ 53, 0)%Z).
  { pose proof (Z.div_eucl_eq (Z.pos m * 2 ^ 53) (Z.pos m) ltac:(lia)) as H1.
    pose proof (Z_mod_mult (2 ^ 53) (Z.pos m)) as H2.
    rewrite (Z.mul_comm (2 ^ 53)) in H2.
    unfold Z.modulo in H2.
    destruct (Z.div_eucl (Z.pos m * 2 ^ 53) (Z.pos m)) as [q r].
    subst r. f_equal. nia. }
  rewrite Hq.
  assert (Hl : new_location (Z.pos m) 0 = loc_Exact).
  { unfold new_location. destruct (Z.even (Z.pos m)); reflexivity. }
  rewrite Hl. reflexivity.
Qed.

Lemma float_mul_one_r (x : float) : (x * 1)%float = x.
Proof.
  apply Prim2SF_inj. rewrite mul_spec.
  change (Prim2SF 1) with (S754_finite false 4503599627370496 (-52)).
  apply SF64mul_one_r, Prim2SF_valid.
Qed.

Lemma float_div_self (x : float) :
  is_finite_nonzero x = true -> (x / x)%float = 1%float.
Proof.
  unfold is_finite_nonzero. intros H.
  apply Prim2SF_inj. rewrite div_spec.
  destruct (Prim2SF x) as [| | |s m e]; try discriminate.
  rewrite SF64div_self. reflexivity.
Qed.

(* ------------------------------------------------------------------------- *)
(** ** Inflation adjustment *)

Lemma not_in_index_loc (cpi : list (Z * float)) (y : Z) :
  in_index cpi y = false -> loc cpi y = Raise (KeyError (string_of_Z y)).
Proof.
  unfold in_index, loc. induction cpi as [|[y' v'] cpi IH]; cbn; [reflexivity|].
  destruct (y' =? y); cbn; [discriminate | exact IH].
Qed.

Lemma apply_rows_Forall2 {A B} (f : A -> result B) (df : list A) (vs : list B) :
  apply_rows f df = Ok vs -> Forall2 (fun r v => f r = Ok v) df vs.
Proof.
  revert vs. induction df as [|r df IH]; cbn; intros vs H.
  - injection H as <-. constructor.
  - destruct (f r) as [v|e] eqn:Ef; cbn in H; [|discriminate].
    destruct (apply_rows f df) as [vs'|e]; cbn in H; [|discriminate].
    injection H as <-. constructor; auto.
Qed.

Lemma apply_rows_raise {A B} (f : A -> result B) (df : list A) (r : A) :
  In r df -> is_ok (f r) = false -> exists e, apply_rows f df = Raise e.
Proof.
  induction df as [|r' df IH]; cbn; [contradiction|]. intros [->|Hin] Hr.
  - destruct (f r) as [v|e]; [discriminate|]. now exists e.
  - destruct (f r') as [v|e]; cbn; [|now exists e].
    destruct (IH Hin Hr) as [e ->]. now exists e.
Qed.

(** C5, as stated, fails: with a reference-year index of zero the ratio
    index[ref] / index[ref] is NaN, and the adjusted value of a row of the
    reference year is NaN, not the raw value. *)
Lemma reference_year_zero_index :
  cpi_adjust_with [(2019, 255.5%float); (2025, 0%float)] 2025
    [mkNtaYear "BX01" "Claremont" 2025 1200]
  = Ok [mkAdj "BX01" "Claremont" 2025 1200 NaN]
  /\ NaN <> 1200%float.
Proof.
  split; [reflexivity|].
  intros E. apply (f_equal PrimFloat.is_nan) in E. vm_compute in E. discriminate.
Qed.

(** C5, amended: when the adjustment succeeds on an index table with one
    value per year, every row keeps its columns and gains the adjusted value
    raw * (index[reference_year] / index[row.year]); for a row of the
    reference year the adjusted value is the raw value, provided the
    reference year's index value is finite and not zero. *)
Theorem cpi_adjust_formula (cpi : list (Z * float)) (base_year : Z)
    (df : list nta_year_row) (out : list adj_row) :
  NoDup (map fst cpi) ->
  cpi_adjust_with cpi base_year df = Ok out ->
  exists base,
    loc cpi base_year = Ok base
    /\ Forall2
         (fun r a =>
            exists c,
              loc cpi (ny_year r) = Ok c
              /\ a = mkAdj (ny_code r) (ny_name r) (ny_year r) (ny_rent r)
                           (ny_rent r * (base / c))%float
              /\ (ny_year r = base_year -> is_finite_nonzero base = true ->
                  rent_adj a = ny_rent r))
         df out.
Proof.
  intros _ H. unfold cpi_adjust_with in H.
  destruct (in_index cpi base_year); cbn in H; [|discriminate].
  destruct (loc cpi base_year) as [base|e] eqn:Eb; cbn in H; [|discriminate].
  exists base. split; [reflexivity|].
  assert (Hgen : forall l vs,
             apply_rows (adjust_row cpi base) l = Ok vs ->
             Forall2
               (fun r a =>
                  exists c,
                    loc cpi (ny_year r) = Ok c
                    /\ a = mkAdj (ny_code r) (ny_name r) (ny_year r) (ny_rent r)
                                 (ny_rent r * (base / c))%float
                    /\ (ny_year r = base_year -> is_finite_nonzero base = true ->
                        rent_adj a = ny_rent r))
               l
               (map (fun rv => mkAdj (ny_code (fst rv)) (ny_name (fst rv))
                                     (ny_year (fst rv)) (ny_rent (fst rv)) (snd rv))
                    (combine l vs))).
  { intros l vs Ea. apply apply_rows_Forall2 in Ea.
    induction Ea as [|r v l vs Hr _ IH]; cbn [combine map]; constructor; [|exact IH].
    unfold adjust_row in Hr.
    destruct (loc cpi (ny_year r)) as [c|e] eqn:Ec; cbn in Hr; [|discriminate].
    injection Hr as <-. exists c. cbn [fst snd]. repeat split.
    intros Hy Hfin. cbn [rent_adj].
    rewrite Hy, Eb in Ec. injection Ec as <-.
    now rewrite (float_div_self base Hfin), float_mul_one_r. }
  unfold assign_rent_adj in H. destruct df as [|r0 df0]; [discriminate|].
  destruct (apply_rows (adjust_row cpi base) (r0 :: df0)) as [vs|e] eqn:Ea;
    cbn [result_bind] in H; [|discriminate].
  injection H as <-. exact (Hgen _ _ Ea).
Qed.

(** The amended C5 at work: 1000 in 2019 dollars and 1200 in 2025 dollars,
    brought to 2025. *)
Lemma cpi_adjust_formula_witness :
  exists base,
    loc [(2019, 100%float); (2025, 150%float)] 2025 = Ok base
    /\ Forall2
         (fun r a =>
            exists c,
              loc [(2019, 100%float); (2025, 150%float)] (ny_year r) = Ok c
              /\ a = mkAdj (ny_code r) (ny_name r) (ny_year r) (ny_rent r)
                           (ny_rent r * (base / c))%float
              /\ (ny_year r = 2025 -> is_finite_nonzero base = true ->
                  rent_adj a = ny_rent r))
         [mkNtaYear "BX01" "Claremont" 2019 1000; mkNtaYear "BX01" "Claremont" 2025 1200]
         [mkAdj "BX01" "Claremont" 2019 1000 1500; mkAdj "BX01" "Claremont" 2025 1200 1200].
Proof.
  apply (cpi_adjust_formula [(2019, 100%float); (2025, 150%float)] 2025).
  - cbn. repeat constructor; cbn; intuition discriminate.
  - reflexivity.
Defined.

(* ------------------------------------------------------------------------- *)
(** ** Effectful code: what a run leaves undisturbed *)

Section MonadFacts.
Context {G : Type}.

Lemma bind_ok {A B} (c : M G A) (k : A -> M G B) s a s' :
  c s = (Ok a, s') -> bind c k s = k a s'.
Proof. unfold bind. now intros ->. Qed.

Lemma bind_raise {A B} (c : M G A) (k : A -> M G B) s e s' :
  c s = (Raise e, s') -> bind c k s = (Raise e, s').
Proof. unfold bind. now intros ->. Qed.

Variable keep : string -> bool.

Lemma undisturbed_refl (s : state G) : undisturbed keep s s.
Proof. repeat split. apply incl_refl. Qed.

Lemma undisturbed_trans (s1 s2 s3 : state G) :
  undisturbed keep s1 s2 -> undisturbed keep s2 s3 -> undisturbed keep s1 s3.
Proof.
  intros (F1 & E1 & I1) (F2 & E2 & I2). repeat split.
  - intros q Hq. now rewrite F2, F1.
  - now rewrite E2.
  - eapply incl_tran; eassumption.
Qed.

Lemma exports_snoc (tr : list event) (ev : event) :
  (forall p, ev <> ToFile p) -> exports (tr ++ [ev]) = exports tr.
Proof.
  intros Hev. unfold exports. rewrite flat_map_app. cbn.
  destruct ev; try now rewrite app_nil_r. now elim (Hev path).
Qed.

Lemma gentle_ret {A} (a : A) : gentle keep (@ret G A a).
Proof. intros s. apply undisturbed_refl. Qed.

Lemma gentle_raise {A} (e : exn) : gentle keep (@raise G A e).
Proof. intros s. apply undisturbed_refl. Qed.

Lemma gentle_lift {A} (r : result A) : gentle keep (@lift G A r).
Proof. intros s. apply undisturbed_refl. Qed.

Lemma gentle_get_fs : gentle keep (@get_fs G).
Proof. intros s. apply undisturbed_refl. Qed.

Lemma gentle_bind {A B} (c : M G A) (k : A -> M G B) :
  gentle keep c -> (forall a, gentle keep (k a)) -> gentle keep (bind c k).
Proof.
  intros Hc Hk s. unfold bind. specialize (Hc s).
  destruct (c s) as [[a|e] s1]; cbn in *; [|exact Hc].
  eapply undisturbed_trans; [exact Hc | apply Hk].
Qed.

Lemma gentle_try_except {A} (c : M G A) (catches : exn -> bool) (h : exn -> M G A) :
  gentle keep c -> (forall e, gentle keep (h e)) -> gentle keep (try_except c catches h).
Proof.
  intros Hc Hh s. unfold try_except. specialize (Hc s).
  destruct (c s) as [[a|e] s1]; cbn in *; [exact Hc|].
  destruct (catches e); cbn; [|exact Hc].
  eapply undisturbed_trans; [exact Hc | apply Hh].
Qed.

Lemma gentle_emit (ev : event) :
  (forall p, ev <> ToFile p) -> gentle keep (@emit G ev).
Proof.
  intros Hev s. unfold emit. cbn [snd]. split; [|split]; cbn [fs trace].
  - reflexivity.
  - now apply exports_snoc.
  - apply incl_appl, incl_refl.
Qed.

Lemma gentle_print (line : string) : gentle keep (@print G line).
Proof. apply gentle_emit. discriminate. Qed.

Lemma gentle_requests_get (net : Net G) (u : string) (params : list (string * string)) :
  gentle keep (requests_get net u params).
Proof.
  apply gentle_bind; [apply gentle_emit; discriminate | intros; apply gentle_lift].
Qed.

(** Replacing the file system by one with the same kept files. *)
Lemma gentle_put_fs_after (f : filesystem G) (c : M G unit) :
  (forall s, fs (snd (c s)) = fs s) ->
  gentle keep c ->
  forall s,
    (forall q, keep q = true -> lookup_file (files f) q = lookup_file (files (fs s)) q) ->
    undisturbed keep s (snd (bind c (fun _ => put_fs f) s)).
Proof.
  intros Hfs Hc s Hf. unfold bind. specialize (Hc s). specialize (Hfs s).
  destruct (c s) as [[[]|e] s1]; cbn in *; [|exact Hc].
  destruct Hc as (F & E & I). repeat split; assumption.
Qed.

Lemma fs_mkdirs_files (ps : list string) (f f' : filesystem G) :
  fs_mkdirs f ps = Ok f' -> files f' = files f.
Proof.
  revert f. induction ps as [|p ps IH]; cbn; intros f H.
  - now injection H as <-.
  - destruct (is_file f p); [discriminate|].
    destruct (is_dir f p || String.eqb p "" || String.eqb p "."); [now apply IH|].
    now rewrite (IH _ H).
Qed.

Lemma emit_fs (ev : event) (s : state G) : fs (snd (emit ev s)) = fs s.
Proof. reflexivity. Qed.

Lemma gentle_makedirs (p : string) : gentle keep (@makedirs G p).
Proof.
  intros s. unfold makedirs, bind at 1, get_fs. cbn [fst snd].
  unfold bind at 1, lift.
  destruct (fs_makedirs (fs s) p) as [f'|e] eqn:E; [|apply undisturbed_refl].
  apply gentle_put_fs_after.
  - intros s0. apply emit_fs.
  - apply gentle_emit. discriminate.
  - intros q _. unfold fs_makedirs in E. now rewrite (fs_mkdirs_files _ _ _ E).
Qed.

Lemma lookup_set_file_other (fl : list (string * content G)) (p q : string)
    (c : content G) :
  p <> q -> lookup_file (set_file fl p c) q = lookup_file fl q.
Proof.
  intros Hpq. induction fl as [|[r d] fl IH]; cbn.
  - destruct (String.eqb_spec p q); [contradiction | reflexivity].
  - destruct (String.eqb_spec r p) as [->|Hrp]; cbn.
    + destruct (String.eqb_spec p q); [contradiction | reflexivity].
    + destruct (String.eqb_spec r q); [reflexivity | exact IH].
Qed.

Lemma fs_write_lookup (f f' : filesystem G) (p q : string) (c : content G) :
  fs_write f p c = Ok f' -> p <> q ->
  lookup_file (files f') q = lookup_file (files f) q.
Proof.
  unfold fs_write. intros H Hpq.
  destruct (is_dir f p); [discriminate|].
  destruct (is_dir f (parent p) || String.eqb (parent p) "."
            || String.eqb (parent p) ""); [|discriminate].
  injection H as <-. cbn. now apply lookup_set_file_other.
Qed.

Lemma gentle_write_file (p : string) (c : content G) :
  keep p = false -> gentle keep (write_file p c).
Proof.
  intros Hp s. unfold write_file, bind at 1, get_fs. cbn [fst snd].
  unfold bind at 1, lift.
  destruct (fs_write (fs s) p c) as [f'|e] eqn:E; [|apply undisturbed_refl].
  apply gentle_put_fs_after.
  - intros s0. apply emit_fs.
  - apply gentle_emit. discriminate.
  - intros q Hq. apply (fs_write_lookup _ _ _ _ _ E). congruence.
Qed.

Lemma lookup_set_file_same (fl : list (string * content G)) (p : string)
    (c : content G) :
  lookup_file (set_file fl p c) p = Some c.
Proof.
  induction fl as [|[q d] fl IH]; cbn.
  - now rewrite String.eqb_refl.
  - destruct (String.eqb_spec q p) as [->|Hqp]; cbn.
    + now rewrite String.eqb_refl.
    + destruct (String.eqb_spec q p); [contradiction | exact IH].
Qed.

Lemma fs_write_same (f f' : filesystem G) (p : string) (c : content G) :
  fs_write f p c = Ok f' -> lookup_file (files f') p = Some c.
Proof.
  unfold fs_write. destruct (is_dir f p); [discriminate|].
  destruct (is_dir f (parent p) || String.eqb (parent p) "."
            || String.eqb (parent p) ""); [|discriminate].
  intros H. injection H as <-. apply lookup_set_file_same.
Qed.

(** One member of an archive: first the directory of its target, then the
    member itself. *)
Lemma extract_member_run (members : list (string * file_data G)) (dest name : string)
    (s : state G) :
  extract_member members dest name s
  = match (if negb (String.eqb (parent (member_target dest name)) "")
              && negb (String.eqb (parent (member_target dest name)) ".")
              && negb (path_exists (fs s) (parent (member_target dest name)))
           then fs_makedirs (fs s) (parent (member_target dest name))
           else Ok (fs s)) with
    | Raise e => (Raise e, s)
    | Ok f1 =>
        match (if ends_with "/" name
               then if is_dir f1 (member_target dest name) then Ok f1
                    else fs_mkdirs f1 [member_target dest name]
               else match getinfo members name with
                    | Some d => fs_write f1 (member_target dest name) (Plain d)
                    | None => Raise (KeyError ("'There is no item named " ++ name
                                                 ++ " in the archive'"))
                    end) with
        | Ok f2 => (Ok tt, mkState f2 (trace s))
        | Raise e => (Raise e, mkState f1 (trace s))
        end
    end.
Proof.
  destruct s as [f tr]. unfold extract_member, bind, get_fs, lift, put_fs, ret, raise.
  cbn [fs trace fst snd].
  destruct (negb (String.eqb (parent (member_target dest name)) "")
            && negb (String.eqb (parent (member_target dest name)) ".")
            && negb (path_exists f (parent (member_target dest name)))).
  - destruct (fs_makedirs f (parent (member_target dest name))) as [f1|e];
      [|reflexivity]. cbn [fs trace fst snd].
    destruct (ends_with "/" name).
    + destruct (is_dir f1 (member_target dest name)); [reflexivity|].
      now destruct (fs_mkdirs f1 [member_target dest name]).
    + destruct (getinfo members name) as [d|]; [|reflexivity].
      now destruct (fs_write f1 (member_target dest name) (Plain d)).
  - cbn [fs trace fst snd]. destruct (ends_with "/" name).
    + destruct (is_dir f (member_target dest name)); [reflexivity|].
      now destruct (fs_mkdirs f [member_target dest name]).
    + destruct (getinfo members name) as [d|]; [|reflexivity].
      now destruct (fs_write f (member_target dest name) (Plain d)).
Qed.

(** It adds nothing to the trace, touches no file but its target, and when
    it returns on a member that is a file, the target holds the member. *)
Lemma extract_member_effects (members : list (string * file_data G)) (dest name : string)
    (s : state G) :
  trace (snd (extract_member members dest name s)) = trace s
  /\ (forall q, q <> member_target dest name ->
        lookup_file (files (fs (snd (extract_member members dest name s)))) q
        = lookup_file (files (fs s)) q)
  /\ (fst (extract_member members dest name s) = Ok tt ->
      ends_with "/" name = false ->
      forall d, getinfo members name = Some d ->
        lookup_file (files (fs (snd (extract_member members dest name s))))
          (member_target dest name) = Some (Plain d)).
Proof.
  rewrite extract_member_run.
  set (target := member_target dest name).
  assert (H1 : forall f1,
             (if negb (String.eqb (parent target) "") && negb (String.eqb (parent target) ".")
                 && negb (path_exists (fs s) (parent target))
              then fs_makedirs (fs s) (parent target) else Ok (fs s)) = Ok f1 ->
             files f1 = files (fs s)).
  { intros f1. destruct (negb _ && negb _ && negb _).
    - unfold fs_makedirs. apply fs_mkdirs_files.
    - intros H. now injection H as <-. }
  destruct (if negb (String.eqb (parent target) "") && negb (String.eqb (parent target) ".")
               && negb (path_exists (fs s) (parent target))
            then fs_makedirs (fs s) (parent target) else Ok (fs s)) as [f1|e].
  2:{ cbn [fst snd]. repeat split; try reflexivity. discriminate. }
  specialize (H1 f1 eq_refl).
  destruct (ends_with "/" name).
  - assert (H2 : forall f2,
               (if is_dir f1 target then Ok f1 else fs_mkdirs f1 [target]) = Ok f2 ->
               files f2 = files f1).
    { intros f2. destruct (is_dir f1 target).
      - intros H. now injection H as <-.
      - apply fs_mkdirs_files. }
    destruct (if is_dir f1 target then Ok f1 else fs_mkdirs f1 [target]) as [f2|e];
      cbn [fst snd fs trace].
    + rewrite (H2 f2 eq_refl), H1. repeat split; try reflexivity. discriminate.
    + rewrite H1. repeat split; try reflexivity. discriminate.
  - destruct (getinfo members name) as [d|].
    + destruct (fs_write f1 target (Plain d)) as [f2|e] eqn:E; cbn [fst snd fs trace].
      * split; [reflexivity|]. split.
        -- intros q Hq. rewrite (fs_write_lookup _ _ _ q _ E) by congruence.
           now rewrite H1.
        -- intros _ _ d' Hd. injection Hd as <-. exact (fs_write_same _ _ _ _ E).
      * rewrite H1. repeat split; try reflexivity. discriminate.
    + cbn [fst snd fs trace]. rewrite H1. repeat split; try reflexivity. discriminate.
Qed.

(** The members of an archive, one after the other. *)
Lemma extract_names_effects (members : list (string * file_data G)) (dest : string)
    (names : list string) (s : state G) :
  trace (snd (extract_names members dest names s)) = trace s
  /\ (forall q, (forall name, In name names -> q <> member_target dest name) ->
        lookup_file (files (fs (snd (extract_names members dest names s)))) q
        = lookup_file (files (fs s)) q)
  /\ (fst (extract_names members dest names s) = Ok tt ->
      NoDup (map (member_target dest) names) ->
      forall name d, In name names -> ends_with "/" name = false ->
        getinfo members name = Some d ->
        lookup_file (files (fs (snd (extract_names members dest names s))))
          (member_target dest name) = Some (Plain d)).
Proof.
  revert s. induction names as [|name names IH]; intros s; cbn [extract_names].
  - repeat split; try reflexivity. intros _ _ name d [].
  - unfold bind.
    destruct (extract_member_effects members dest name s) as (T1 & O1 & R1).
    destruct (extract_member members dest name s) as [[[]|e] s1]; cbn [fst snd] in *.
    + destruct (IH s1) as (T2 & O2 & R2). split; [congruence|]. split.
      * intros q Hq. rewrite O2 by (intros n Hn; apply Hq; now right).
        apply O1, Hq. now left.
      * intros Hok Hnd n d [<-|Hn] Hfile Hget.
        -- inversion Hnd as [|? ? Hnotin _]; subst.
           rewrite O2.
           ++ now apply R1.
           ++ intros n' Hn' E. apply Hnotin. rewrite E. now apply in_map.
        -- inversion Hnd; subst. now apply (R2 Hok).
    + split; [exact T1|]. split.
      * intros q Hq. apply O1, Hq. now left.
      * discriminate.
Qed.

Lemma gentle_extract_zip (path_zip dest : string) :
  (forall name, keep (member_target dest name) = false) ->
  gentle keep (@extract_zip G path_zip dest).
Proof.
  intros Hdest s. unfold extract_zip, bind at 1, get_fs. cbn [fst snd].
  destruct (lookup_file (files (fs s)) path_zip) as [[d|members]|];
    try apply undisturbed_refl.
  unfold bind at 1, emit. cbn [fst snd].
  set (s1 := mkState (fs s) (trace s ++ [Extract path_zip dest])%list).
  destruct (extract_names_effects members dest (map fst members) s1) as (T & O & _).
  split; [|split].
  - intros q Hq. rewrite O; [reflexivity|].
    intros name _ E. rewrite E, Hdest in Hq. discriminate.
  - rewrite T. cbn [trace s1]. apply exports_snoc. discriminate.
  - rewrite T. cbn [trace s1]. apply incl_appl, incl_refl.
Qed.

Lemma gentle_read_file (p : string) : gentle keep (@read_file G p).
Proof.
  intros s. unfold read_file, bind, get_fs. cbn.
  destruct (lookup_file (files (fs s)) p) as [[[]|]|]; apply undisturbed_refl.
Qed.

End MonadFacts.

(* ------------------------------------------------------------------------- *)
(** ** The paths archive members are extracted to *)

Lemma split_on_not_nil (c : ascii) (s : string) : split_on c s <> [].
Proof.
  induction s as [|d s IH]; cbn; [discriminate|].
  destruct (split_on c s) as [|h t]; [discriminate|].
  destruct (Ascii.eqb d c); discriminate.
Qed.

(** Joining the components of a path gives the path back. *)
Lemma concat_split_on (c : ascii) (s : string) :
  String.concat (String c "") (split_on c s) = s.
Proof.
  induction s as [|d s IH]; [reflexivity|]. cbn [split_on].
  pose proof (split_on_not_nil c s) as Hne.
  destruct (split_on c s) as [|h t]; [contradiction|].
  destruct (Ascii.eqb_spec d c) as [->|Hdc].
  - cbn [String.concat]. cbn [String.concat] in IH. now rewrite IH.
  - cbn [String.concat] in *. destruct t as [|h' t]; cbn [append] in *; now rewrite IH.
Qed.

Lemma string_app_assoc (a b c : string) : (a ++ b) ++ c = a ++ b ++ c.
Proof. induction a as [|x a IH]; cbn; [reflexivity|now rewrite IH]. Qed.

Lemma concat_app_parts (sep : string) (l1 l2 : list string) :
  l1 <> [] -> l2 <> [] ->
  String.concat sep (l1 ++ l2) = String.concat sep l1 ++ sep ++ String.concat sep l2.
Proof.
  intros H1 H2. induction l1 as [|x l1 IH]; [contradiction|].
  destruct l1 as [|y l1].
  - cbn [app String.concat]. destruct l2; [contradiction|reflexivity].
  - change ((x :: y :: l1) ++ l2)%list with (x :: (y :: l1) ++ l2)%list.
    change (String.concat sep (x :: (y :: l1) ++ l2))
      with (x ++ sep ++ String.concat sep ((y :: l1) ++ l2)).
    rewrite IH by discriminate.
    change (String.concat sep (x :: y :: l1)) with (x ++ sep ++ String.concat sep (y :: l1)).
    now rewrite !string_app_assoc.
Qed.

Lemma normparts_valid (absolute : bool) (comps stack : list string) :
  Forall (fun c => invalid_path_part c = false) comps ->
  normparts absolute stack comps = (rev stack ++ comps)%list.
Proof.
  revert stack. induction comps as [|c comps IH]; intros stack H; cbn [normparts].
  - now rewrite List.app_nil_r.
  - inversion H as [|? ? Hc Hcs]; subst.
    unfold invalid_path_part in Hc.
    apply orb_false_iff in Hc as [Hc H3]. apply orb_false_iff in Hc as [H1 H2].
    rewrite H1, H2, H3. cbn [orb]. rewrite IH by assumption.
    cbn [rev]. now rewrite <- List.app_assoc.
Qed.

Lemma arcname_parts_valid (name : string) :
  Forall (fun c => invalid_path_part c = false) (arcname_parts name).
Proof.
  rewrite Forall_forall. intros c Hc. apply filter_In in Hc as [_ Hc].
  now apply negb_true_iff in Hc.
Qed.

(** A member is extracted to the destination or below it, whatever its
    name, when the destination is a plain path. *)
Lemma member_target_below (dest name : string) :
  plain_path dest = true ->
  member_target dest name = dest
  \/ exists rest, member_target dest name = dest ++ "/" ++ rest.
Proof.
  intros Hp. unfold plain_path in Hp.
  assert (Hv : Forall (fun c => invalid_path_part c = false) (split_on "/"%char dest)).
  { rewrite Forall_forall. intros c Hc. rewrite forallb_forall in Hp.
    apply negb_true_iff. now apply Hp. }
  assert (Hne : dest <> "").
  { intros ->. cbn in Hp. discriminate. }
  assert (Hrel : String.prefix "/" dest = false).
  { destruct dest as [|d dest]; [contradiction|]. cbn [String.prefix].
    destruct (Ascii.eqb_spec "/"%char d) as [<-|Hd].
    - exfalso. cbn [split_on] in Hp.
      pose proof (split_on_not_nil "/"%char dest) as Hs.
      destruct (split_on "/"%char dest) as [|h t]; [contradiction|].
      rewrite Ascii.eqb_refl in Hp. cbn in Hp. discriminate.
    - assert (E : Ascii.eqb "/"%char d = false) by now apply Ascii.eqb_neq.
      destruct (ascii_dec "/"%char d); [contradiction|reflexivity]. }
  unfold member_target. rewrite Hrel.
  rewrite normparts_valid
    by (apply Forall_app; split; [exact Hv|apply arcname_parts_valid]).
  cbn [rev app append].
  destruct (arcname_parts name) as [|x xs] eqn:E.
  - left. rewrite List.app_nil_r, concat_split_on.
    destruct (String.eqb_spec dest ""); [contradiction|reflexivity].
  - right. exists (String.concat "/" (x :: xs)).
    rewrite concat_app_parts by (try apply split_on_not_nil; discriminate).
    rewrite concat_split_on.
    destruct (String.eqb_spec (dest ++ "/" ++ String.concat "/" (x :: xs)) "") as [E0|_];
      [|reflexivity].
    destruct dest; [contradiction|discriminate].
Qed.

Lemma member_target_tiger (name : string) :
  outside_tiger (member_target tiger_ddir name) = false.
Proof.
  destruct (member_target_below tiger_ddir name eq_refl) as [->|[rest ->]]; reflexivity.
Qed.


(* ------------------------------------------------------------------------- *)
(** ** The multi-year fetch *)

Section Fetch.
Context {G : Type} (L : Lib G) (net : Net G) (api_key : string).
Lemma fetch_acs5_rent_result (y : Z) (s : state G) :
  fst (fetch_acs5_rent L net y api_key s) = fetch_outcome L net y api_key.
Proof.
  unfold fetch_acs5_rent, fetch_outcome, requests_get, census_params.
  unfold bind, emit, lift, try_except, print, raise, emit. cbn [fst snd].
  destruct (net (census_acs5_url y) _) as [r|e]; cbn [result_bind fst]; [|reflexivity].
  destruct (raise_for_status r) as [[]|e]; cbn [result_bind fst]; [|reflexivity].
  destruct (response_json r) as [data|e]; reflexivity.
Qed.

Lemma gentle_fetch_acs5_rent (keep : string -> bool) (y : Z) :
  gentle keep (fetch_acs5_rent L net y api_key).
Proof.
  unfold fetch_acs5_rent.
  apply gentle_bind; [apply gentle_requests_get|]. intros r.
  apply gentle_bind; [|intros; apply gentle_lift].
  apply gentle_try_except; [apply gentle_lift|]. intros e.
  repeat (apply gentle_bind; [apply gentle_print|intros _]).
  apply gentle_raise.
Qed.

Lemma requests_get_state (u : string) (params : list (string * string)) (s : state G) :
  snd (requests_get net u params s) = mkState (fs s) (trace s ++ [HttpGet u])%list.
Proof.
  unfold requests_get, bind, emit, lift. now destruct (net u params).
Qed.

Lemma fetch_acs5_rent_requests (y : Z) (s : state G) :
  In (HttpGet (census_acs5_url y)) (trace (snd (fetch_acs5_rent L net y api_key s))).
Proof.
  unfold fetch_acs5_rent. unfold bind at 1.
  pose proof (requests_get_state (census_acs5_url y) (census_params api_key) s) as Hs.
  change (census_params api_key)
    with [("get", "NAME," ++ VAR_NAME); ("for", "tract:*");
          ("in", "state:" ++ STATE_FIPS); ("key", api_key)] in Hs.
  destruct (requests_get net (census_acs5_url y) _ s) as [[r|e] s1];
    cbn [snd] in Hs; subst s1.
  - match goal with |- In _ (trace (snd (?c ?s1))) =>
      assert (Hg : undisturbed (fun _ => true) s1 (snd (c s1))) end.
    { apply gentle_bind; [|intros; apply gentle_lift].
      apply gentle_try_except; [apply gentle_lift|]. intros e.
      repeat (apply gentle_bind; [apply gentle_print|intros _]).
      apply gentle_raise. }
    destruct Hg as (_ & _ & Hincl). apply Hincl.
    cbn [trace]. apply in_or_app; right; now left.
  - cbn [snd trace]. apply in_or_app; right; now left.
Qed.

Lemma gentle_fetch_years (keep : string -> bool) (years : list Z) :
  forall frames, gentle keep (fetch_years L net api_key years frames).
Proof.
  induction years as [|y years IH]; intros frames; cbn [fetch_years].
  - apply gentle_ret.
  - apply gentle_bind; [apply gentle_print|intros _].
    apply gentle_bind; [|intros; apply IH].
    apply gentle_try_except.
    + apply gentle_bind; [apply gentle_fetch_acs5_rent|intros; apply gentle_ret].
    + intros e. apply gentle_bind; [apply gentle_print|intros; apply gentle_ret].
Qed.

Lemma gentle_fetch_many_years (keep : string -> bool) (start end_ : Z) :
  gentle keep (fetch_many_years L net start end_ api_key).
Proof.
  unfold fetch_many_years.
  apply gentle_bind; [apply gentle_fetch_years|intros; apply gentle_lift].
Qed.

(** One turn of the loop: the frames after it, or the exception that ends
    the loop. *)
Lemma fetch_years_step (y : Z) (years : list Z) (frames : list (list rent_row))
    (s : state G) :
  exists s1,
    undisturbed (fun _ => true) s s1
    /\ In (HttpGet (census_acs5_url y)) (trace s1)
    /\ match fetch_outcome L net y api_key with
       | Ok df =>
           fetch_years L net api_key (y :: years) frames s
           = fetch_years L net api_key years (frames ++ [df])%list s1
       | Raise e =>
           if is_HTTPError e then
             In (Print (warning_line y e)) (trace s1)
             /\ fetch_years L net api_key (y :: years) frames s
                = fetch_years L net api_key years frames s1
           else fetch_years L net api_key (y :: years) frames s = (Raise e, s1)
       end.
Proof.
  set (s0 := mkState (fs s)
               (trace s ++ [Print ("Fetching ACS5 " ++ TABLE ++ " for "
                                     ++ string_of_Z y ++ "...")])%list).
  assert (H0 : undisturbed (fun _ => true) s s0).
  { apply (gentle_print (fun _ => true) _ s). }
  pose proof (fetch_acs5_rent_result y s0) as Hres.
  pose proof (gentle_fetch_acs5_rent (fun _ => true) y s0) as Hg.
  pose proof (fetch_acs5_rent_requests y s0) as Hreq.
  assert (Estep :
    fetch_years L net api_key (y :: years) frames s
    = bind (try_except
              (df <- fetch_acs5_rent L net y api_key ;; ret (frames ++ [df])%list)
              is_HTTPError
              (fun e => print (warning_line y e) ;;; ret frames))
           (fun frames' => fetch_years L net api_key years frames') s0)
    by reflexivity.
  rewrite Estep. clear Estep.
  destruct (fetch_acs5_rent L net y api_key s0) as [[df|e] s1] eqn:E;
    cbn [fst snd] in *; rewrite <- Hres.
  - exists s1. split; [eapply undisturbed_trans; eassumption|].
    split; [exact Hreq|].
    apply bind_ok. unfold try_except. now rewrite (bind_ok _ _ _ _ _ E).
  - destruct (is_HTTPError e) eqn:Ee.
    + exists (mkState (fs s1) (trace s1 ++ [Print (warning_line y e)])%list).
      split; [|split; [|split]].
      * eapply undisturbed_trans; [eapply undisturbed_trans; eassumption|].
        apply (gentle_print (fun _ => true) (warning_line y e) s1).
      * cbn. apply in_or_app. now left.
      * cbn. apply in_or_app. right. now left.
      * apply bind_ok. unfold try_except.
        rewrite (bind_raise _ _ _ _ _ E), Ee. reflexivity.
    + exists s1. split; [eapply undisturbed_trans; eassumption|].
      split; [exact Hreq|].
      apply bind_raise. unfold try_except.
      rewrite (bind_raise _ _ _ _ _ E), Ee. reflexivity.
Qed.

(** The loop: it ends with the first exception it does not catch, or
    with the frames of the years that succeeded; when it runs through,
    every year was requested and every failed year has its warning. *)
Lemma fetch_years_spec (years : list Z) :
  forall (frames : list (list rent_row)) (s : state G),
    fst (fetch_years L net api_key years frames s)
    = match first_uncaught L net api_key years with
      | Some e => Raise e
      | None => Ok (frames ++ fetched_frames L net api_key years)%list
      end
    /\ (first_uncaught L net api_key years = None ->
        forall y, In y years ->
          In (HttpGet (census_acs5_url y))
             (trace (snd (fetch_years L net api_key years frames s)))
          /\ (forall e, fetch_outcome L net y api_key = Raise e ->
                In (Print (warning_line y e))
                   (trace (snd (fetch_years L net api_key years frames s))))).
Proof.
  induction years as [|y years IH]; intros frames s.
  - cbn. rewrite app_nil_r. split; [reflexivity|]. intros _ y [].
  - destruct (fetch_years_step y years frames s) as (s1 & Hs1 & Hreq & Hstep).
    cbn [first_uncaught fetched_frames flat_map].
    destruct (fetch_outcome L net y api_key) as [df|e] eqn:Ey.
    + rewrite Hstep. destruct (IH (frames ++ [df])%list s1) as [IH1 IH2].
      split.
      * rewrite IH1. destruct (first_uncaught L net api_key years); [reflexivity|].
        cbn [app]. now rewrite <- app_assoc.
      * intros Hnone y' [<-|Hy'].
        -- split; [|intros e He; congruence].
           destruct (gentle_fetch_years (fun _ => true) years (frames ++ [df])%list s1)
             as (_ & _ & Hincl). now apply Hincl.
        -- now apply IH2.
    + destruct (is_HTTPError e) eqn:Ee.
      * destruct Hstep as [Hwarn Hstep]. rewrite Hstep.
        destruct (IH frames s1) as [IH1 IH2]. split; [exact IH1|].
        intros Hnone y' [<-|Hy'].
        -- destruct (gentle_fetch_years (fun _ => true) years frames s1)
             as (_ & _ & Hincl).
           split; [now apply Hincl|]. intros e' He'.
           rewrite Ey in He'. injection He' as <-. now apply Hincl.
        -- now apply IH2.
      * rewrite Hstep. split; [reflexivity|discriminate].
Qed.

(** [fetch_many_years] in one equation. *)
Lemma fetch_many_years_result (start end_ : Z) (s : state G) :
  fst (fetch_many_years L net start end_ api_key s)
  = match first_uncaught L net api_key (range start (end_ + 1)) with
    | Some e => Raise e
    | None => pd_concat (fetched_frames L net api_key (range start (end_ + 1)))
    end.
Proof.
  unfold fetch_many_years, bind.
  destruct (fetch_years_spec (range start (end_ + 1)) [] s) as [H _].
  destruct (fetch_years L net api_key (range start (end_ + 1)) [] s) as [[frames|e] s1];
    cbn [fst] in *.
  - destruct (first_uncaught L net api_key (range start (end_ + 1))); [discriminate|].
    injection H as ->. reflexivity.
  - destruct (first_uncaught L net api_key (range start (end_ + 1))); [|discriminate].
    now injection H as ->.
Qed.

Lemma fetch_many_years_trace (start end_ : Z) (s : state G) :
  trace (snd (fetch_many_years L net start end_ api_key s))
  = trace (snd (fetch_years L net api_key (range start (end_ + 1)) [] s)).
Proof.
  unfold fetch_many_years, bind.
  now destruct (fetch_years L net api_key (range start (end_ + 1)) [] s) as [[frames|e] s1].
Qed.

Lemma first_uncaught_none (years : list Z) :
  (forall y e, In y years -> fetch_outcome L net y api_key = Raise e ->
               is_HTTPError e = true) ->
  first_uncaught L net api_key years = None.
Proof.
  induction years as [|y years IH]; intros H; cbn; [reflexivity|].
  destruct (fetch_outcome L net y api_key) as [df|e] eqn:Ey.
  - apply IH. intros y' e' Hy'. apply H. now right.
  - rewrite (H y e (or_introl eq_refl) Ey). apply IH.
    intros y' e' Hy'. apply H. now right.
Qed.

Lemma fetched_frames_none (years : list Z) :
  (forall y, In y years -> is_ok (fetch_outcome L net y api_key) = false) ->
  fetched_frames L net api_key years = [].
Proof.
  induction years as [|y years IH]; intros H; cbn; [reflexivity|].
  pose proof (H y (or_introl eq_refl)) as Hy.
  destruct (fetch_outcome L net y api_key); [discriminate|].
  apply IH. intros y' Hy'. apply H. now right.
Qed.
End Fetch.

Lemma pd_concat_incl {A} (frames : list (list A)) (df : list A) :
  In df frames -> exists rows, pd_concat frames = Ok rows /\ incl df rows.
Proof.
  intros Hin. destruct frames as [|f frames]; [contradiction|].
  exists (List.concat (f :: frames)). split; [reflexivity|].
  intros x Hx. apply in_concat. now exists df.
Qed.

Lemma fetched_frames_In {G} (L : Lib G) (net : Net G) (api_key : string)
    (years : list Z) (y : Z) (df : list rent_row) :
  In y years -> fetch_outcome L net y api_key = Ok df ->
  In df (fetched_frames L net api_key years).
Proof.
  intros Hy Hdf. unfold fetched_frames. apply in_flat_map.
  exists y. split; [exact Hy|]. rewrite Hdf. now left.
Qed.

(** C1, as stated, fails: a transport failure of one year's request (here a
    refused connection for 2020) is not caught by the loop, which catches
    [HTTPError] only; the multi-year fetch ends with that exception, without
    a warning, without fetching 2021 and without the rows of 2019. *)
Lemma transport_failure_aborts_fetch :
  fetch_outcome box_lib (three_year_net refused) 2019 "KEY"
  = Ok [mkRent (Some "36005000100") 2019 1000]
  /\ fetch_outcome box_lib (three_year_net refused) 2020 "KEY"
     = Raise (ConnectionError "Connection refused")
  /\ fetch_outcome box_lib (three_year_net refused) 2021 "KEY"
     = Ok [mkRent (Some "36005000100") 2021 1100]
  /\ fst (fetch_many_years box_lib (three_year_net refused) 2019 2021 "KEY"
            (init_state empty_fs))
     = Raise (ConnectionError "Connection refused")
  /\ prints (trace (snd (fetch_many_years box_lib (three_year_net refused) 2019 2021
                           "KEY" (init_state empty_fs))))
     = ["Fetching ACS5 B25064 for 2019..."; "Fetching ACS5 B25064 for 2020..."].
Proof.
  repeat split; vm_compute; reflexivity.
Qed.

(** C1, amended: when the only failures of the years of the range are
    non-success HTTP statuses ([HTTPError]), the loop runs through all the
    years: every year is requested, every failed year has its warning line,
    and the combined result is the concatenation of the frames of the years
    that succeeded, in year order, so the rows of every successful year are
    kept and those of a failed year are not there. *)
Theorem http_failure_skips_year {G} (L : Lib G) (net : Net G) (start end_ : Z)
    (api_key : string) (s : state G) :
  (forall y e, In y (range start (end_ + 1)) ->
               fetch_outcome L net y api_key = Raise e -> is_HTTPError e = true) ->
  fst (fetch_many_years L net start end_ api_key s)
  = pd_concat (fetched_frames L net api_key (range start (end_ + 1)))
  /\ (forall y, In y (range start (end_ + 1)) ->
        In (HttpGet (census_acs5_url y))
           (trace (snd (fetch_many_years L net start end_ api_key s)))
        /\ (forall e, fetch_outcome L net y api_key = Raise e ->
              In (Print (warning_line y e))
                 (trace (snd (fetch_many_years L net start end_ api_key s)))))
  /\ (forall y df, In y (range start (end_ + 1)) ->
        fetch_outcome L net y api_key = Ok df ->
        exists rows, fst (fetch_many_years L net start end_ api_key s) = Ok rows
                     /\ incl df rows).
Proof.
  intros Hhttp.
  pose proof (first_uncaught_none L net api_key _ Hhttp) as Hnone.
  pose proof (fetch_many_years_result L net api_key start end_ s) as Hres.
  rewrite Hnone in Hres. split; [exact Hres|split].
  - intros y Hy. rewrite fetch_many_years_trace.
    destruct (fetch_years_spec L net api_key (range start (end_ + 1)) [] s) as [_ H].
    now apply H.
  - intros y df Hy Hdf. rewrite Hres.
    apply pd_concat_incl. now apply (fetched_frames_In L net api_key _ y).
Qed.

(** The amended C1 at work on the three-year range of the specification:
    the middle year meets status 404. *)
Lemma http_failure_skips_year_witness :
  fst (fetch_many_years box_lib (three_year_net not_found) 2019 2021 "KEY"
         (init_state empty_fs))
  = Ok [mkRent (Some "36005000100") 2019 1000; mkRent (Some "36005000100") 2021 1100]
  /\ In (Print (warning_line 2020
            (HTTPError ("404 Client Error: Not Found for url: " ++ census_acs5_url 2020))))
        (trace (snd (fetch_many_years box_lib (three_year_net not_found) 2019 2021 "KEY"
                       (init_state empty_fs)))).
Proof.
  assert (H : forall y e, In y (range 2019 (2021 + 1)) ->
                fetch_outcome box_lib (three_year_net not_found) y "KEY" = Raise e ->
                is_HTTPError e = true).
  { intros y e Hy. vm_compute in Hy. destruct Hy as [<-|[<-|[<-|[]]]];
      vm_compute; intros E; inversion E; reflexivity. }
  destruct (http_failure_skips_year box_lib (three_year_net not_found) 2019 2021 "KEY"
              (init_state empty_fs) H) as (Hres & Htr & _).
  split.
  - rewrite Hres. reflexivity.
  - apply (Htr 2020); [vm_compute; auto | reflexivity].
Defined.

(* ------------------------------------------------------------------------- *)
(** ** The geometry loader and the files it touches *)

Section Loader.
Context {G : Type} (L : Lib G) (net : Net G).

Lemma tiger_zpath_inside : outside_tiger tiger_zpath = false.
Proof. reflexivity. Qed.

Lemma gentle_download_zip (keep : string -> bool) (u dest : string) :
  keep dest = false -> gentle keep (@download_zip G net u dest).
Proof.
  intros Hd. unfold download_zip.
  apply gentle_bind; [apply gentle_makedirs|intros _].
  apply gentle_bind; [apply gentle_requests_get|intros r].
  apply gentle_bind; [apply gentle_lift|intros _].
  destruct (broken r) as [[part e]|].
  - apply gentle_bind; [now apply gentle_write_file|intros _; apply gentle_raise].
  - now apply gentle_write_file.
Qed.

Lemma gentle_get_tiger_tracts_2020 :
  gentle outside_tiger (@get_tiger_tracts_2020 G net).
Proof.
  unfold get_tiger_tracts_2020.
  apply gentle_bind; [apply gentle_get_fs|intros f].
  apply gentle_bind.
  - destruct (negb (path_exists f tiger_ddir)); [|apply gentle_ret].
    apply gentle_bind; [apply gentle_print|intros _].
    apply gentle_bind; [apply gentle_download_zip, tiger_zpath_inside|intros _].
    apply gentle_extract_zip, member_target_tiger.
  - intros _. apply gentle_bind; [apply gentle_get_fs|intros f'].
    destruct (glob_suffix f' tiger_ddir ".shp"); [apply gentle_raise|].
    apply gentle_bind; [apply gentle_read_file|intros; apply gentle_ret].
Qed.

Lemma gentle_get_nta2020 : gentle outside_tiger (get_nta2020 L net).
Proof.
  unfold get_nta2020.
  apply gentle_bind; [apply gentle_print|intros _].
  apply gentle_bind; [apply gentle_get_tiger_tracts_2020|intros tracts].
  apply gentle_bind; [apply gentle_print|intros; apply gentle_ret].
Qed.

Lemma fails_from_bind {A B} (keep : string -> bool) (s0 : state G)
    (c : M G A) (k : A -> M G B) (s : state G) :
  gentle keep c ->
  (forall a s', fails_from keep s0 (k a) s') ->
  fails_from keep s0 (bind c k) s.
Proof.
  intros Hc Hk H0. unfold bind. specialize (Hc s).
  destruct (c s) as [[a|e] s1]; cbn [fst snd] in *.
  - apply Hk. eapply undisturbed_trans; eassumption.
  - split; [now exists e|]. eapply undisturbed_trans; eassumption.
Qed.

Lemma fails_from_bind_left {A B} (keep : string -> bool) (s0 : state G)
    (c : M G A) (k : A -> M G B) (s : state G) :
  fails_from keep s0 c s -> fails_from keep s0 (bind c k) s.
Proof.
  intros Hc H0. destruct (Hc H0) as [[e He] Hu]. unfold bind.
  destruct (c s) as [[a|e'] s1]; cbn [fst snd] in *; [discriminate|].
  split; [now exists e'|exact Hu].
Qed.
End Loader.

(** C9: when the fetch of every year of the range fails, the multi-year
    fetch raises; when the failures are the ones the loop catches
    ([HTTPError]), the exception is the one of the concatenation of the empty
    list of frames; the pipeline then aborts at its first step: no file is
    changed and nothing is exported. *)
Theorem all_years_failed_aborts {G} (L : Lib G) (net : Net G) (a : args)
    (s : state G) :
  (forall y, In y (range (start a) (end_ a + 1)) ->
             is_ok (fetch_outcome L net y (census_key a)) = false) ->
  (exists e, fst (fetch_many_years L net (start a) (end_ a) (census_key a) s) = Raise e)
  /\ ((forall y e, In y (range (start a) (end_ a + 1)) ->
                   fetch_outcome L net y (census_key a) = Raise e ->
                   is_HTTPError e = true) ->
      fst (fetch_many_years L net (start a) (end_ a) (census_key a) s)
      = Raise (ValueError "No objects to concatenate"))
  /\ (exists e, fst (main L net a s) = Raise e)
  /\ undisturbed (fun _ => true) s (snd (main L net a s)).
Proof.
  intros Hfail.
  assert (Hraise : forall s', exists e,
             fst (fetch_many_years L net (start a) (end_ a) (census_key a) s') = Raise e).
  { intros s'. rewrite fetch_many_years_result.
    destruct (first_uncaught L net (census_key a) _) as [e|]; [now exists e|].
    rewrite (fetched_frames_none L net (census_key a) _ Hfail). now eexists. }
  split; [apply Hraise|split].
  - intros Hhttp. rewrite fetch_many_years_result.
    rewrite (first_uncaught_none L net (census_key a) _ Hhttp).
    now rewrite (fetched_frames_none L net (census_key a) _ Hfail).
  - assert (H : fails_from (fun _ => true) s (main L net a) s).
    { unfold main.
      apply fails_from_bind; [apply gentle_makedirs|intros _ s1].
      apply fails_from_bind; [apply gentle_print|intros _ s2].
      apply fails_from_bind_left. intros H0. split; [apply Hraise|].
      eapply undisturbed_trans; [exact H0|apply gentle_fetch_many_years]. }
    apply H, undisturbed_refl.
Qed.

(** C9 at work: every year of 2019..2021 meets status 404. *)
Lemma all_years_failed_aborts_witness :
  fst (fetch_many_years box_lib always_404 2019 2021 "KEY" (init_state empty_fs))
  = Raise (ValueError "No objects to concatenate")
  /\ (exists e, fst (main box_lib always_404
                       (mkArgs "KEY" 2019 2021 "cpi.csv" "data/nta_rents.geojson")
                       (init_state empty_fs)) = Raise e).
Proof.
  assert (H : forall y, In y (range 2019 (2021 + 1)) ->
                is_ok (fetch_outcome box_lib always_404 y "KEY") = false).
  { intros y Hy. vm_compute in Hy. destruct Hy as [<-|[<-|[<-|[]]]]; reflexivity. }
  destruct (all_years_failed_aborts box_lib always_404
              (mkArgs "KEY" 2019 2021 "cpi.csv" "data/nta_rents.geojson")
              (init_state empty_fs) H) as (_ & Hconcat & Hmain & _).
  split; [|exact Hmain].
  apply Hconcat. intros y e Hy. vm_compute in Hy.
  destruct Hy as [<-|[<-|[<-|[]]]]; vm_compute; intros E; inversion E; reflexivity.
Defined.

(* ------------------------------------------------------------------------- *)
(** ** Fatal CPI misconfiguration *)

Lemma cpi_adjust_with_no_base (cpi : list (Z * float)) (base_year : Z)
    (df : list nta_year_row) :
  in_index cpi base_year = false ->
  cpi_adjust_with cpi base_year df
  = Raise (ValueError ("CPI base year " ++ string_of_Z base_year ++ " not in CPI CSV.")).
Proof. unfold cpi_adjust_with. now intros ->. Qed.

Lemma cpi_adjust_with_no_row_year (cpi : list (Z * float)) (base_year : Z)
    (df : list nta_year_row) (r : nta_year_row) :
  In r df -> in_index cpi (ny_year r) = false ->
  exists e, cpi_adjust_with cpi base_year df = Raise e.
Proof.
  intros Hr Hy. unfold cpi_adjust_with.
  destruct (in_index cpi base_year); cbn [negb]; [|now eexists].
  destruct (loc cpi base_year) as [base|e]; cbn [result_bind]; [|now eexists].
  unfold assign_rent_adj. destruct df as [|r0 df0]; [contradiction|].
  destruct (apply_rows_raise (adjust_row cpi base) (r0 :: df0) r Hr) as [e He].
  - unfold adjust_row. now rewrite (not_in_index_loc cpi _ Hy).
  - rewrite He. now eexists.
Qed.

Lemma cpi_adjust_run {G} (df : list nta_year_row) (p : string) (base_year : Z)
    (s : state G) (cpi : list (Z * float)) :
  lookup_file (files (fs s)) p = Some (Plain (CpiCsv cpi)) ->
  cpi_adjust df p base_year s = (cpi_adjust_with cpi base_year df, s).
Proof.
  intros H. unfold cpi_adjust, read_cpi, bind, get_fs, ret, lift. now rewrite H.
Qed.

Ltac next_step lem :=
  cbv beta zeta; apply fails_from_bind; [apply lem | intros ? ?].

(** C2: the normalizer fails when the reference year is not in the index
    table, and fails (it does not skip the row) when the year of a row is
    not in it; either way the state is left as it was.  In the pipeline the
    normalizer runs before the export: with an index table lacking the
    reference year 2025, in a file outside the geometry cache, the run ends
    with an exception and no output file is exported. *)
Theorem cpi_misconfiguration_is_fatal :
  (forall G (s : state G) df p base_year cpi,
      lookup_file (files (fs s)) p = Some (Plain (CpiCsv cpi)) ->
      in_index cpi base_year = false ->
      cpi_adjust df p base_year s
      = (Raise (ValueError ("CPI base year " ++ string_of_Z base_year
                              ++ " not in CPI CSV.")), s))
  /\ (forall G (s : state G) df p base_year cpi r,
        lookup_file (files (fs s)) p = Some (Plain (CpiCsv cpi)) ->
        In r df -> in_index cpi (ny_year r) = false ->
        exists e, cpi_adjust df p base_year s = (Raise e, s))
  /\ (forall G (L : Lib G) (net : Net G) (a : args) (s : state G) cpi,
        lookup_file (files (fs s)) (cpi_csv a) = Some (Plain (CpiCsv cpi)) ->
        outside_tiger (cpi_csv a) = true ->
        in_index cpi 2025 = false ->
        (exists e, fst (main L net a s) = Raise e)
        /\ exports (trace (snd (main L net a s))) = exports (trace s)).
Proof.
  split; [|split].
  - intros G s df p base_year cpi Hf Hb.
    now rewrite (cpi_adjust_run df p base_year s cpi Hf), cpi_adjust_with_no_base.
  - intros G s df p base_year cpi r Hf Hr Hy.
    rewrite (cpi_adjust_run df p base_year s cpi Hf).
    destruct (cpi_adjust_with_no_row_year cpi base_year df r Hr Hy) as [e ->].
    now exists e.
  - intros G L net a s cpi Hf Hout Hb.
    assert (H : fails_from outside_tiger s (main L net a) s).
    { unfold main.
      next_step (@gentle_makedirs G). next_step (@gentle_print G).
      next_step (@gentle_fetch_many_years G).
      next_step (@gentle_print G). next_step (@gentle_print G).
      next_step (@gentle_get_tiger_tracts_2020 G).
      next_step (@gentle_get_nta2020 G).
      next_step (@gentle_print G). next_step (@gentle_print G).
      next_step (@gentle_print G). next_step (@gentle_print G).
      next_step (@gentle_print G).
      cbv beta zeta. apply fails_from_bind_left. intros H0.
      pose proof H0 as (F & _ & _).
      rewrite (cpi_adjust_run _ _ _ _ cpi) by (rewrite (F _ Hout); exact Hf).
      rewrite cpi_adjust_with_no_base by exact Hb.
      split; [now eexists | exact H0]. }
    destruct (H (undisturbed_refl _ _)) as [He (_ & E & _)]. now split.
Qed.

(** C2 at work: an index table for 2019 and 2021 only. *)
Lemma cpi_misconfiguration_is_fatal_witness :
  cpi_adjust [mkNtaYear "BX01" "Claremont" 2019 1000] "cpi.csv" 2025
    (init_state fs_cpi_without_2025)
  = (Raise (ValueError "CPI base year 2025 not in CPI CSV."),
     init_state fs_cpi_without_2025)
  /\ (exists e, cpi_adjust [mkNtaYear "BX01" "Claremont" 2020 1000] "cpi.csv" 2021
                  (init_state fs_cpi_without_2025)
                = (Raise e, init_state fs_cpi_without_2025))
  /\ exports (trace (snd (main box_lib pipeline_net
                            (mkArgs "KEY" 2019 2021 "cpi.csv" "data/nta_rents.geojson")
                            (init_state fs_cpi_without_2025)))) = []
  /\ fst (main box_lib pipeline_net
             (mkArgs "KEY" 2019 2021 "cpi.csv" "data/nta_rents.geojson")
             (init_state fs_cpi_without_2025))
     = Raise (ValueError "CPI base year 2025 not in CPI CSV.").
Proof.
  destruct cpi_misconfiguration_is_fatal as (H1 & H2 & H3).
  split; [|split; [|split]].
  - exact (H1 box (init_state fs_cpi_without_2025)
                [mkNtaYear "BX01" "Claremont" 2019 1000] "cpi.csv" 2025
                cpi_without_2025 eq_refl eq_refl).
  - exact (H2 box (init_state fs_cpi_without_2025)
                [mkNtaYear "BX01" "Claremont" 2020 1000] "cpi.csv" 2021
                cpi_without_2025 (mkNtaYear "BX01" "Claremont" 2020 1000)
                eq_refl (or_introl eq_refl) eq_refl).
  - exact (proj2 (H3 box box_lib pipeline_net
                     (mkArgs "KEY" 2019 2021 "cpi.csv" "data/nta_rents.geojson")
                     (init_state fs_cpi_without_2025) cpi_without_2025
                     eq_refl eq_refl eq_refl)).
  - vm_compute. reflexivity.
Defined.

(* ------------------------------------------------------------------------- *)
(** ** Idempotence of the geometry loader *)

Lemma read_tracts_run {G} (s : state G) :
  (f <- get_fs ;;
   match glob_suffix f tiger_ddir ".shp" with
   | [] => raise (IndexError "list index out of range")
   | shp :: _ =>
       gdf <- read_file shp ;;
       let gdf := filter (fun r => existsb (String.eqb (shp_COUNTYFP r)) NYC_COUNTIES) gdf in
       ret (mkGeo "EPSG:4269" (map (fun r => mkTract (shp_GEOID r) (shp_geometry r)) gdf))
   end) s
  = (load_tracts (fs s), s).
Proof.
  unfold load_tracts, bind at 1, get_fs. cbn [fst snd].
  destruct (glob_suffix (fs s) tiger_ddir ".shp") as [|shp l]; [reflexivity|].
  unfold read_file, bind, get_fs, ret, raise.
  destruct (lookup_file (files (fs s)) shp) as [[[]|]|]; reflexivity.
Qed.

(** C10: in a state where the extracted archive directory exists, the
    geometry loader requests nothing, extracts nothing and leaves the state
    as it is, and what it returns depends on the file system alone; so a
    second call after a successful first one, with the directory present,
    returns the polygon set of the first call, whatever the network does. *)
Theorem geometry_loader_idempotent {G} :
  (forall (net : Net G) (s : state G),
      path_exists (fs s) tiger_ddir = true ->
      get_tiger_tracts_2020 net s = (load_tracts (fs s), s))
  /\ (forall (net net' : Net G) (s s1 : state G) (gf : geoframe (tract_row G)),
        get_tiger_tracts_2020 net s = (Ok gf, s1) ->
        path_exists (fs s1) tiger_ddir = true ->
        get_tiger_tracts_2020 net' s1 = (Ok gf, s1)
        /\ downloads (trace (snd (get_tiger_tracts_2020 net' s1))) = downloads (trace s1)
        /\ extractions (trace (snd (get_tiger_tracts_2020 net' s1)))
           = extractions (trace s1)).
Proof.
  assert (H1 : forall (net : Net G) (s : state G),
             path_exists (fs s) tiger_ddir = true ->
             get_tiger_tracts_2020 net s = (load_tracts (fs s), s)).
  { intros net s Hex. unfold get_tiger_tracts_2020.
    unfold bind at 1, get_fs at 1. cbn [fst snd]. rewrite Hex. cbn [negb].
    unfold bind at 1, ret at 1. apply read_tracts_run. }
  split; [exact H1|].
  intros net net' s s1 gf Hfirst Hex.
  assert (Hload : load_tracts (fs s1) = Ok gf).
  { unfold get_tiger_tracts_2020 in Hfirst.
    unfold bind at 1, get_fs at 1 in Hfirst. cbn [fst snd] in Hfirst.
    unfold bind at 1 in Hfirst.
    match type of Hfirst with
    | (let (r, s') := ?c s in _) = _ => destruct (c s) as [[[]|e] smid]
    end; [|discriminate].
    rewrite read_tracts_run in Hfirst. injection Hfirst as Hl Hs.
    subst smid. exact Hl. }
  rewrite (H1 net' s1 Hex), Hload. cbn [snd]. auto.
Qed.

(** C10 at work: the first call downloads and extracts the archive; the
    second call, with the network down, returns the same two NYC tracts and
    requests nothing. *)
Lemma geometry_loader_idempotent_witness :
  fst (get_tiger_tracts_2020 pipeline_net (init_state empty_fs))
  = Ok (mkGeo "EPSG:4269"
          [mkTract "36005000100" (mkBox 0 0 1 1); mkTract "36047000200" (mkBox 1 0 2 1)])
  /\ get_tiger_tracts_2020 network_down
       (snd (get_tiger_tracts_2020 pipeline_net (init_state empty_fs)))
     = get_tiger_tracts_2020 pipeline_net (init_state empty_fs)
  /\ downloads (trace (snd (get_tiger_tracts_2020 network_down
                   (snd (get_tiger_tracts_2020 pipeline_net (init_state empty_fs))))))
     = [tiger_url].
Proof.
  split; [vm_compute; reflexivity|].
  destruct (get_tiger_tracts_2020 pipeline_net (init_state empty_fs)) as [r s1] eqn:E.
  assert (Hr : r = Ok (mkGeo "EPSG:4269"
                         [mkTract "36005000100" (mkBox 0 0 1 1);
                          mkTract "36047000200" (mkBox 1 0 2 1)])).
  { apply (f_equal fst) in E. vm_compute in E. now rewrite <- E. }
  assert (Hex : path_exists (fs s1) tiger_ddir = true).
  { apply (f_equal snd) in E. cbn [snd] in E. rewrite <- E. vm_compute. reflexivity. }
  assert (Hd : downloads (trace s1) = [tiger_url]).
  { apply (f_equal snd) in E. cbn [snd] in E. rewrite <- E. vm_compute. reflexivity. }
  subst r. cbn [snd].
  destruct (proj2 (@geometry_loader_idempotent box) pipeline_net network_down
              (init_state empty_fs) s1 _ E Hex) as (H2 & H3 & _).
  split; [exact H2|]. now rewrite H3.
Defined.

(* ------------------------------------------------------------------------- *)
(** ** The pivot to the wide table *)

Lemma key_eqb_sym (a b : group_key) : key_eqb a b = key_eqb b a.
Proof.
  destruct (key_eqb a b) eqn:E1, (key_eqb b a) eqn:E2; try reflexivity.
  - apply key_eqb_eq in E1. subst b.
    assert (key_eqb a a = true) by now apply key_eqb_eq. congruence.
  - apply key_eqb_eq in E2. subst b.
    assert (key_eqb a a = true) by now apply key_eqb_eq. congruence.
Qed.

Lemma existsb_eq_iff {A B} (p : A -> bool) (q : B -> bool) (l : list A) (m : list B) :
  ((exists a, In a l /\ p a = true) <-> (exists b, In b m /\ q b = true)) ->
  existsb p l = existsb q m.
Proof.
  intros H. destruct (existsb p l) eqn:E1, (existsb q m) eqn:E2; try reflexivity.
  - apply existsb_exists, H, existsb_exists in E1. congruence.
  - apply existsb_exists, H, existsb_exists in E2. congruence.
Qed.

Lemma find_filter_map_key (m : group_key -> float) (l : list group_key) (k : group_key) :
  find (fun kv => key_eqb (fst kv) k)
       (filter (fun kv => notna (snd kv)) (map (fun k' => (k', m k')) l))
  = if existsb (key_eqb k) l && notna (m k) then Some (k, m k) else None.
Proof.
  induction l as [|k' l IH]; [reflexivity|].
  cbn [map filter existsb snd].
  destruct (key_eqb k k') eqn:E.
  - apply key_eqb_eq in E. subst k'. cbn [orb].
    destruct (notna (m k)) eqn:En.
    + cbn [find fst]. now rewrite (proj2 (key_eqb_eq k k) eq_refl).
    + rewrite IH. now rewrite andb_false_r.
  - cbn [orb]. destruct (notna (m k')).
    + cbn [find fst]. rewrite key_eqb_sym, E. exact IH.
    + exact IH.
Qed.

Section Pivot.
Variable df : list adj_row.

Lemma keys_existsb (c n : string) (y : Z) :
  existsb (key_eqb (c, n, y)) (pivot_keys df) = has_combination df (c, n) y.
Proof.
  unfold has_combination, pivot_keys. apply existsb_eq_iff. cbn [fst snd]. split.
  - intros (k & Hk & E). apply key_eqb_eq in E. subst k.
    apply sort_by_In, (dedup_In _ key_eqb_eq), in_map_iff in Hk as (r & Hr & Hin).
    exists r. split; [exact Hin|]. now apply key_eqb_eq.
  - intros (r & Hin & E). apply key_eqb_eq in E.
    exists (c, n, y). split; [|now apply key_eqb_eq].
    apply sort_by_In, (dedup_In _ key_eqb_eq), in_map_iff. now exists r.
Qed.

Lemma agged_find (c n : string) (y : Z) :
  find (fun kv => key_eqb (fst kv) (c, n, y)) (pivot_agged df)
  = if has_value df (c, n) y then Some ((c, n, y), cell_mean df (c, n) y) else None.
Proof.
  unfold has_value. rewrite <- keys_existsb.
  exact (find_filter_map_key
           (fun k => group_mean (map rent_adj (filter (fun r => key_eqb (adj_key r) k) df)))
           (pivot_keys df) (c, n, y)).
Qed.

Lemma agged_In (k : group_key) (v : float) :
  In (k, v) (pivot_agged df) <->
  has_value df (fst (fst k), snd (fst k)) (snd k) = true
  /\ v = cell_mean df (fst (fst k), snd (fst k)) (snd k).
Proof.
  destruct k as [[c n] y]. cbn [fst snd].
  unfold has_value. rewrite <- keys_existsb.
  unfold pivot_agged, pivot_agg. fold (pivot_keys df). rewrite filter_In, in_map_iff. cbn [snd].
  split.
  - intros ((k & E & Hk) & Hv). injection E as -> <-.
    rewrite andb_true_iff. repeat split.
    + apply existsb_exists. exists (c, n, y). split; [exact Hk|].
      now apply key_eqb_eq.
    + exact Hv.
  - rewrite andb_true_iff. intros [[Hk Hv] ->]. split; [|exact Hv].
    apply existsb_exists in Hk as (k & Hk & E). apply key_eqb_eq in E. subst k.
    now exists (c, n, y).
Qed.

Lemma pivot_cell_spec (u : unit_key) (y : Z) :
  pivot_cell (pivot_agged df) u y = if has_value df u y then cell_mean df u y else NaN.
Proof.
  destruct u as [c n]. unfold pivot_cell. cbn [fst snd]. rewrite agged_find.
  now destruct (has_value df (c, n) y).
Qed.
End Pivot.

(** C7, as stated, fails: a unit all of whose adjusted values are missing
    has no row in the wide table, and a year all of whose values are missing
    has no column; the pivot drops the aggregated entries without a value
    before it lays out rows and columns. *)
Lemma pivot_drops_units_without_value :
  dedup unit_eqb (map adj_unit long_with_nulls)
  = [("BX01", "Claremont"); ("BX02", "Bathgate")]
  /\ map wide_unit (wide_rows (pivot_wide long_with_nulls)) = [("BX02", "Bathgate")]
  /\ dedup Z.eqb (map adj_year long_with_nulls) = [2019; 2020]
  /\ wide_columns (pivot_wide long_with_nulls) = ["nta_code"; "nta_name"; "rent_2019"].
Proof.
  repeat split; vm_compute; reflexivity.
Qed.

(** C7, amended: the wide table has exactly one row per (unit code, unit
    name) pair that has a value for at least one year, and one column per
    year for which at least one unit has a value, named rent_<year>; the cell
    of a unit and a year holds the mean adjusted value of that unit-year when
    it has one, and is missing (NaN, never zero) otherwise, in particular
    for every combination absent from the long table. *)
Theorem pivot_wide_shape (df : list adj_row) :
  NoDup (map wide_unit (wide_rows (pivot_wide df)))
  /\ (forall u, In u (map wide_unit (wide_rows (pivot_wide df)))
                <-> exists y, has_value df u y = true)
  /\ NoDup (wide_years (pivot_wide df))
  /\ (forall y, In y (wide_years (pivot_wide df)) <-> exists u, has_value df u y = true)
  /\ wide_columns (pivot_wide df)
     = "nta_code" :: "nta_name" :: map rent_column (wide_years (pivot_wide df))
  /\ (forall row, In row (wide_rows (pivot_wide df)) ->
        w_cells row
        = map (fun y => if has_value df (wide_unit row) y
                        then cell_mean df (wide_unit row) y else NaN)
              (wide_years (pivot_wide df)))
  /\ (forall u y, has_combination df u y = false -> has_value df u y = false)
  /\ PrimFloat.is_nan NaN = true
  /\ NaN <> 0%float.
Proof.
  unfold pivot_wide, pivot_table. cbn [wide_rows wide_years].
  fold (pivot_agged df).
  rewrite map_map. cbn [wide_unit w_code w_name].
  assert (Eu : forall l : list unit_key, map (fun u => (fst u, snd u)) l = l).
  { intros l. rewrite <- (map_id l) at 2. apply map_ext. now intros [c n]. }
  rewrite Eu.
  repeat split.
  - apply sort_by_NoDup, (dedup_NoDup _ unit_eqb_eq).
  - intros Hu. apply sort_by_In, (dedup_In _ unit_eqb_eq), in_map_iff in Hu
      as ([k v] & <- & Hkv).
    apply (agged_In df) in Hkv as [Hv _]. now exists (snd k).
  - intros [y Hy]. apply sort_by_In, (dedup_In _ unit_eqb_eq), in_map_iff.
    destruct u as [c n].
    exists ((c, n, y), cell_mean df (c, n) y). split; [reflexivity|].
    apply (agged_In df). now split.
  - apply sort_by_NoDup, (dedup_NoDup _ Z_eqb_eq).
  - intros Hy. apply sort_by_In, (dedup_In _ Z_eqb_eq), in_map_iff in Hy
      as ([k v] & <- & Hkv).
    apply (agged_In df) in Hkv as [Hv _]. now exists (fst (fst k), snd (fst k)).
  - intros [[c n] Hu]. apply sort_by_In, (dedup_In _ Z_eqb_eq), in_map_iff.
    exists ((c, n, y), cell_mean df (c, n) y). split; [reflexivity|].
    apply (agged_In df). now split.
  - intros row Hrow. apply in_map_iff in Hrow as (u & <- & _).
    cbn [w_cells wide_unit w_code w_name]. apply map_ext. intros y.
    rewrite (pivot_cell_spec df). now destruct u.
  - intros u y H. unfold has_value. now rewrite H.
  - intros E. apply (f_equal PrimFloat.is_nan) in E. vm_compute in E. discriminate.
Qed.

(** The pivot of the specification's example: units A and B, years 2019 and
    2020, no row for (A, 2020): two rows, the missing cell is NaN. *)
Lemma pivot_wide_missing_cell :
  pivot_wide long_missing_cell
  = mkWide [2019; 2020]
      [mkWideRow "A" "Unit A" [1500%float; NaN];
       mkWideRow "B" "Unit B" [1800%float; 1900%float]]
  /\ wide_columns (pivot_wide long_missing_cell)
     = ["nta_code"; "nta_name"; "rent_2019"; "rent_2020"].
Proof.
  split; vm_compute; reflexivity.
Qed.

(* ========================================================================= *)
(** * Further properties of the code *)

From Stdlib Require Import Sorted DecimalZ DecimalFacts FinFun.

(* ------------------------------------------------------------------------- *)
(** ** Names and order of the year columns *)

Lemma norm_not_nil (d : Decimal.signed_int) :
  Decimal.norm d <> Decimal.Pos Decimal.Nil /\ Decimal.norm d <> Decimal.Neg Decimal.Nil.
Proof.
  destruct d as [u|u]; cbn.
  - split; [|discriminate]. intros H. injection H as H.
    now apply (unorm_nonnil u).
  - destruct (Decimal.nzhead u) eqn:E; split; discriminate.
Qed.

(** Distinct integers print differently. *)
Lemma string_of_Z_inj (a b : Z) : string_of_Z a = string_of_Z b -> a = b.
Proof.
  unfold string_of_Z. intros H. apply DecimalZ.to_int_inj.
  assert (Hn : forall z, Z.to_int z = Decimal.norm (Z.to_int z)).
  { intros z. rewrite <- (DecimalZ.to_of (Z.to_int z)). now rewrite DecimalZ.of_to. }
  apply (f_equal NilZero.int_of_string) in H.
  rewrite !NilZero.isi in H;
    try (rewrite Hn; apply norm_not_nil).
  now injection H.
Qed.

Lemma rent_column_inj (a b : Z) : rent_column a = rent_column b -> a = b.
Proof.
  unfold rent_column. cbn. intros H. injection H as H. now apply string_of_Z_inj.
Qed.

Lemma insert_by_Zleb_sorted (x : Z) (l : list Z) :
  StronglySorted Z.le l -> StronglySorted Z.le (insert_by Z.leb x l).
Proof.
  induction l as [|y l IH]; cbn; intros Hs.
  - repeat constructor.
  - inversion Hs as [|? ? Hl Hy]; subst.
    destruct (Z.leb_spec x y).
    + constructor; [exact Hs|]. constructor; [exact H|].
      eapply Forall_impl; [|exact Hy]. cbn. intros; lia.
    + constructor; [now apply IH|].
      rewrite Forall_forall in *. intros z Hz.
      apply (Permutation_in _ (insert_by_perm Z.leb x l)) in Hz.
      destruct Hz as [<-|Hz]; [lia | now apply Hy].
Qed.

Lemma sort_by_Zleb_sorted (l : list Z) : StronglySorted Z.le (sort_by Z.leb l).
Proof.
  induction l as [|x l IH]; cbn; [constructor|]. now apply insert_by_Zleb_sorted.
Qed.

Lemma sorted_NoDup_strict (l : list Z) :
  StronglySorted Z.le l -> NoDup l -> StronglySorted Z.lt l.
Proof.
  induction 1 as [|x l Hs IH Hx]; intros Hnd; [constructor|].
  inversion Hnd as [|? ? Hn Hd]; subst. constructor; [now apply IH|].
  rewrite Forall_forall in *. intros y Hy.
  specialize (Hx y Hy). assert (x <> y) by (intros ->; contradiction). lia.
Qed.

(** X1: the year columns of the wide table are in strictly ascending year
    order, and the column names of the table ([nta_code], [nta_name] and
    one [rent_<year>] per year column) are pairwise distinct. *)
Theorem wide_columns_ascending_distinct (df : list adj_row) :
  StronglySorted Z.lt (wide_years (pivot_wide df))
  /\ NoDup (wide_columns (pivot_wide df)).
Proof.
  assert (Hs : StronglySorted Z.lt (wide_years (pivot_wide df))).
  { unfold pivot_wide, pivot_table. cbn [wide_years].
    apply sorted_NoDup_strict; [apply sort_by_Zleb_sorted|].
    apply sort_by_NoDup, (dedup_NoDup _ Z_eqb_eq). }
  split; [exact Hs|].
  assert (Hnd : NoDup (wide_years (pivot_wide df))).
  { unfold pivot_wide, pivot_table. cbn [wide_years].
    apply sort_by_NoDup, (dedup_NoDup _ Z_eqb_eq). }
  unfold wide_columns.
  assert (Hr : forall s, In s (map rent_column (wide_years (pivot_wide df))) ->
                         exists t, s = String "r"%char t).
  { intros s Hin. apply in_map_iff in Hin as (y & <- & _). now eexists. }
  constructor; [|constructor].
  - intros [H|H]; [discriminate|]. apply Hr in H as [t H]. discriminate.
  - intros H. apply Hr in H as [t H]. discriminate.
  - apply Injective_map_NoDup; [|exact Hnd]. intros a b. apply rent_column_inj.
Qed.

(* ------------------------------------------------------------------------- *)
(** ** What the crosswalk holds *)

(** X2: the crosswalk is exactly the containment relation: a row
    (tract, unit code, unit name) is in it iff a tract of that identifier has
    its geometry, in the reference of the units, within the polygon of a unit
    of that code and name; and the identifiers of the crosswalk are those of
    the tracts, none added and none lost. *)
Theorem crosswalk_is_containment {G} (L : Lib G)
    (tracts : geoframe (tract_row G)) (ntas : geoframe (nta_row G)) :
  (forall g c n,
      In (mkCross g (Some c) (Some n)) (spatial_join_to_nta L tracts ntas)
      <-> exists t u,
            In t (grows tracts) /\ In u (grows ntas)
            /\ t_GEOID t = g /\ n_code u = c /\ n_name u = n
            /\ within L (tract_geometry_in L (crs ntas) tracts t) (n_geometry u) = true)
  /\ (forall g, In g (map GEOID (spatial_join_to_nta L tracts ntas))
                <-> In g (map t_GEOID (grows tracts))).
Proof.
  split.
  - intros g c n. rewrite crosswalk_In. split.
    + intros (t & Ht & Hrow). unfold joined_rows in Hrow.
      destruct (containing_units L tracts ntas t) as [|u0 us] eqn:E.
      * destruct Hrow as [H|[]]. discriminate.
      * apply in_map_iff in Hrow as (u & Hu & Hin). rewrite <- E in Hin.
        apply filter_In in Hin as [Hin Hw]. injection Hu as <- <- <-.
        exists t, u. repeat split; assumption.
    + intros (t & u & Ht & Hu & <- & <- & <- & Hw). exists t. split; [exact Ht|].
      assert (Hin : In u (containing_units L tracts ntas t)).
      { apply filter_In. now split. }
      unfold joined_rows.
      destruct (containing_units L tracts ntas t) as [|u0 us]; [contradiction|].
      apply in_map_iff. now exists u.
  - intros g. rewrite !in_map_iff. split.
    + intros (c & <- & Hc). apply crosswalk_In in Hc as (t & Ht & Hrow).
      exists t. split; [|exact Ht]. symmetry. now apply (joined_rows_GEOID L tracts ntas).
    + intros (t & <- & Ht).
      assert (Hex : exists c, In c (joined_rows L tracts ntas t)).
      { unfold joined_rows.
        destruct (containing_units L tracts ntas t) as [|u0 us]; eexists; now left. }
      destruct Hex as [c Hc]. exists c.
      split; [now apply (joined_rows_GEOID L tracts ntas)|].
      apply crosswalk_In. now exists t.
Qed.

Lemma filter_unique {A} (p : A -> bool) (l : list A) (x : A) :
  NoDup l -> In x l -> (forall y, In y l -> (p y = true <-> x = y)) ->
  filter p l = [x].
Proof.
  induction l as [|y l IH]; intros Hnd Hin Hp; [contradiction|].
  inversion Hnd as [|? ? Hn Hd]; subst. cbn.
  assert (Hrest : forall z, In z l -> x <> z -> p z = false).
  { intros z Hz Hxz. destruct (p z) eqn:E; [|reflexivity].
    apply (Hp z (or_intror Hz)) in E. contradiction. }
  destruct Hin as [->|Hin].
  - rewrite (proj2 (Hp x (or_introl eq_refl)) eq_refl). f_equal.
    clear IH Hp Hnd Hd. induction l as [|z l IH]; [reflexivity|]. cbn.
    rewrite (Hrest z (or_introl eq_refl)) by (intros ->; apply Hn; now left).
    apply IH; [intros H; apply Hn; now right|].
    intros w Hw. apply Hrest. now right.
  - destruct (p y) eqn:E.
    + apply (Hp y (or_introl eq_refl)) in E. subst y. contradiction.
    + apply IH; [exact Hd | exact Hin | intros z Hz; apply Hp; now right].
Qed.

Lemma dedup_NoDup_id {A} (eqb : A -> A -> bool) (l : list A) :
  (forall a b, eqb a b = true <-> a = b) -> NoDup l -> dedup eqb l = l.
Proof.
  intros Heq. induction l as [|x l IH]; intros Hnd; [reflexivity|].
  inversion Hnd as [|? ? Hn Hd]; subst. cbn. f_equal. rewrite (IH Hd).
  clear IH Hd Hnd. induction l as [|y l IH]; [reflexivity|]. cbn.
  destruct (eqb x y) eqn:E.
  - apply Heq in E. subst y. exfalso. apply Hn. now left.
  - cbn. f_equal. apply IH. intros H. apply Hn. now right.
Qed.

Lemma nta_from_tracts_rows {G} (L : Lib G) (tracts : geoframe (tract_row G)) :
  crs (nta_from_tracts L tracts) = "EPSG:2263"
  /\ grows (nta_from_tracts L tracts)
     = map (fun t => mkNta (t_GEOID t) ("Tract " ++ t_GEOID t)
                           (tract_geometry_in L "EPSG:2263" tracts t))
           (grows tracts).
Proof.
  unfold nta_from_tracts, to_crs, tract_geometry_in. cbn [crs grows].
  destruct (String.eqb_spec (crs tracts) "EPSG:2263") as [E|E]; cbn [crs grows].
  - split; [exact E | reflexivity].
  - split; [reflexivity|]. rewrite map_map. reflexivity.
Qed.

(** X3: with the units [get_nta2020] derives from the tracts, the spatial
    join maps every tract to itself, in tract order, provided the tract
    identifiers are distinct and, in the reference of the units, a tract
    geometry is within a tract geometry only when it is the same tract. *)
Theorem placeholder_units_crosswalk {G} (L : Lib G) (tracts : geoframe (tract_row G)) :
  NoDup (map t_GEOID (grows tracts)) ->
  (forall t t', In t (grows tracts) -> In t' (grows tracts) ->
     (within L (tract_geometry_in L "EPSG:2263" tracts t)
               (tract_geometry_in L "EPSG:2263" tracts t') = true <-> t = t')) ->
  spatial_join_to_nta L tracts (nta_from_tracts L tracts)
  = map (fun t => mkCross (t_GEOID t) (Some (t_GEOID t)) (Some ("Tract " ++ t_GEOID t)))
        (grows tracts).
Proof.
  intros Hids Hself.
  destruct (nta_from_tracts_rows L tracts) as [Ecrs Erows].
  assert (Hnd : NoDup (grows tracts)) by now apply NoDup_map_inv in Hids.
  assert (Hjoin : forall t, In t (grows tracts) ->
            joined_rows L tracts (nta_from_tracts L tracts) t
            = [mkCross (t_GEOID t) (Some (t_GEOID t)) (Some ("Tract " ++ t_GEOID t))]).
  { intros t Ht. unfold joined_rows, containing_units. rewrite Ecrs, Erows.
    set (mk := fun t0 : tract_row G =>
                 mkNta (t_GEOID t0) ("Tract " ++ t_GEOID t0)
                       (tract_geometry_in L "EPSG:2263" tracts t0)).
    assert (Ef : forall l,
               filter (fun n => within L (tract_geometry_in L "EPSG:2263" tracts t)
                                        (n_geometry n)) (map mk l)
               = map mk (filter (fun t' => within L (tract_geometry_in L "EPSG:2263" tracts t)
                                                  (tract_geometry_in L "EPSG:2263" tracts t')) l)).
    { induction l as [|t' l IH]; [reflexivity|]. cbn [map filter n_geometry mk].
      rewrite IH. now destruct (within L _ _). }
    rewrite Ef, (filter_unique _ (grows tracts) t Hnd Ht).
    - reflexivity.
    - intros t' Ht'. now apply Hself. }
  unfold spatial_join_to_nta. rewrite sjoin_rows.
  assert (Eflat : flat_map (joined_rows L tracts (nta_from_tracts L tracts)) (grows tracts)
                  = map (fun t => mkCross (t_GEOID t) (Some (t_GEOID t))
                                          (Some ("Tract " ++ t_GEOID t))) (grows tracts)).
  { revert Hjoin. generalize (grows tracts) as l.
    induction l as [|t l IH]; intros Hjoin; [reflexivity|]. cbn [flat_map map].
    rewrite (Hjoin t (or_introl eq_refl)), IH by (intros; apply Hjoin; now right).
    reflexivity. }
  rewrite Eflat. apply (dedup_NoDup_id _ _ cross_row_eqb_eq).
  apply (NoDup_map_inv GEOID). rewrite map_map. cbn [GEOID]. exact Hids.
Qed.

(** X3 at work on two disjoint tracts. *)
Lemma placeholder_units_crosswalk_witness :
  spatial_join_to_nta box_lib two_tracts (nta_from_tracts box_lib two_tracts)
  = [mkCross "36005000100" (Some "36005000100") (Some "Tract 36005000100");
     mkCross "36005000200" (Some "36005000200") (Some "Tract 36005000200")].
Proof.
  apply (placeholder_units_crosswalk box_lib two_tracts).
  - cbn. repeat constructor; cbn; intuition discriminate.
  - intros t t' [<-|[<-|[]]] [<-|[<-|[]]]; vm_compute;
      split; intros H; try reflexivity; discriminate.
Defined.

(** The unit polygons [get_nta2020] returns are those derived from the
    tracts the loader returns. *)
Lemma get_nta2020_result {G} (L : Lib G) (net : Net G) (s : state G) :
  fst (get_nta2020 L net s)
  = match fst (get_tiger_tracts_2020 net
                 (snd (print "Creating simplified NTA dataset from census tracts..." s))) with
    | Ok tracts => Ok (nta_from_tracts L tracts)
    | Raise e => Raise e
    end.
Proof.
  unfold get_nta2020. unfold bind at 1.
  destruct (print _ s) as [[[]|e] s0] eqn:Ep; [|discriminate]. cbn [snd].
  unfold bind at 1.
  destruct (get_tiger_tracts_2020 net s0) as [[tracts|e] s1]; [|reflexivity].
  reflexivity.
Qed.

(* ------------------------------------------------------------------------- *)
(** ** One year's fetch *)



Section OneYear.
Context {G : Type} (L : Lib G) (net : Net G) (api_key : string).

(** The three ways a run of [fetch_acs5_rent] can go. *)
Lemma fetch_acs5_rent_run (y : Z) (s : state G) :
  fetch_acs5_rent L net y api_key s
  = match net (census_acs5_url y) (census_params api_key) with
    | Raise e => (Raise e, with_events s [HttpGet (census_acs5_url y)])
    | Ok r =>
        match result_bind (raise_for_status r) (fun _ => response_json r) with
        | Raise e =>
            (Raise e, with_events s (HttpGet (census_acs5_url y) :: diagnostics r))
        | Ok data => (rent_frame L y data, with_events s [HttpGet (census_acs5_url y)])
        end
    end.
Proof.
  unfold fetch_acs5_rent, requests_get, census_params, with_events, diagnostics.
  unfold bind, emit, lift, try_except, print, raise, emit. cbn [fst snd fs trace].
  destruct (net (census_acs5_url y) _) as [r|e]; [|reflexivity].
  destruct (result_bind (raise_for_status r) (fun _ => response_json r)) as [data|e].
  - reflexivity.
  - cbn [fs trace]. rewrite <- !List.app_assoc. reflexivity.
Qed.

Lemma downloads_app (tr tr' : list event) :
  downloads (tr ++ tr') = (downloads tr ++ downloads tr')%list.
Proof. unfold downloads. apply flat_map_app. Qed.

Lemma fetch_acs5_rent_downloads (y : Z) (s : state G) :
  downloads (trace (snd (fetch_acs5_rent L net y api_key s)))
  = (downloads (trace s) ++ [census_acs5_url y])%list.
Proof.
  rewrite fetch_acs5_rent_run.
  destruct (net (census_acs5_url y) _) as [r|e]; [|cbn; now rewrite downloads_app].
  destruct (result_bind _ _); cbn [snd with_events trace]; now rewrite downloads_app.
Qed.
End OneYear.

(** X5: [fetch_acs5_rent] makes exactly one request and never touches the
    file system; a transport failure is raised as it is, without diagnostic
    lines; a failed status check or decoding prints the four diagnostic lines
    and re-raises the same exception; after a decoded response the outcome is
    that of building the table, an exception of which is raised without
    diagnostic lines. *)
Theorem fetch_acs5_rent_cases {G} (L : Lib G) (net : Net G) (api_key : string)
    (y : Z) (s : state G) :
  (forall e, net (census_acs5_url y) (census_params api_key) = Raise e ->
     fetch_acs5_rent L net y api_key s
     = (Raise e, with_events s [HttpGet (census_acs5_url y)]))
  /\ (forall r e,
        net (census_acs5_url y) (census_params api_key) = Ok r ->
        result_bind (raise_for_status r) (fun _ => response_json r) = Raise e ->
        fetch_acs5_rent L net y api_key s
        = (Raise e, with_events s (HttpGet (census_acs5_url y) :: diagnostics r)))
  /\ (forall r data,
        net (census_acs5_url y) (census_params api_key) = Ok r ->
        result_bind (raise_for_status r) (fun _ => response_json r) = Ok data ->
        fetch_acs5_rent L net y api_key s
        = (rent_frame L y data, with_events s [HttpGet (census_acs5_url y)]))
  /\ fs (snd (fetch_acs5_rent L net y api_key s)) = fs s
  /\ downloads (trace (snd (fetch_acs5_rent L net y api_key s)))
     = (downloads (trace s) ++ [census_acs5_url y])%list.
Proof.
  repeat split.
  - intros e H. now rewrite fetch_acs5_rent_run, H.
  - intros r e H1 H2. now rewrite fetch_acs5_rent_run, H1, H2.
  - intros r data H1 H2. now rewrite fetch_acs5_rent_run, H1, H2.
  - rewrite fetch_acs5_rent_run.
    destruct (net _ _) as [r|e]; [|reflexivity]. now destruct (result_bind _ _).
  - apply fetch_acs5_rent_downloads.
Qed.

(* ------------------------------------------------------------------------- *)
(** ** The requests of the multi-year fetch *)

Section Requests.
Context {G : Type} (L : Lib G) (net : Net G) (api_key : string).

Lemma downloads_print (s : state G) (line : string) :
  downloads (trace (snd (print line s))) = downloads (trace s).
Proof. cbn. rewrite downloads_app. cbn. now rewrite List.app_nil_r. Qed.

Lemma fetch_years_downloads (years : list Z) :
  forall (frames : list (list rent_row)) (s : state G),
    downloads (trace (snd (fetch_years L net api_key years frames s)))
    = (downloads (trace s)
       ++ map census_acs5_url (attempted_years L net api_key years))%list.
Proof.
  induction years as [|y years IH]; intros frames s.
  - cbn. now rewrite List.app_nil_r.
  - set (s0 := snd (print ("Fetching ACS5 " ++ TABLE ++ " for "
                             ++ string_of_Z y ++ "...") s)).
    assert (Estep :
      fetch_years L net api_key (y :: years) frames s
      = bind (try_except
                (df <- fetch_acs5_rent L net y api_key ;; ret (frames ++ [df])%list)
                is_HTTPError
                (fun e => print (warning_line y e) ;;; ret frames))
             (fun frames' => fetch_years L net api_key years frames') s0)
      by reflexivity.
    rewrite Estep. clear Estep.
    pose proof (fetch_acs5_rent_result L net api_key y s0) as Hres.
    pose proof (fetch_acs5_rent_downloads L net api_key y s0) as Hd.
    unfold s0 in Hd at 2. rewrite downloads_print in Hd.
    cbn [attempted_years map].
    destruct (fetch_acs5_rent L net y api_key s0) as [[df|e] s1] eqn:E;
      cbn [fst snd] in *; rewrite <- Hres.
    + rewrite (bind_ok _ _ s0 (frames ++ [df])%list s1).
      * rewrite IH, Hd, <- List.app_assoc. reflexivity.
      * unfold try_except. now rewrite (bind_ok _ _ _ _ _ E).
    + destruct (is_HTTPError e) eqn:Ee.
      * rewrite (bind_ok _ _ s0 frames (snd (print (warning_line y e) s1))).
        -- rewrite IH, downloads_print, Hd, <- List.app_assoc. reflexivity.
        -- unfold try_except. rewrite (bind_raise _ _ _ _ _ E), Ee. reflexivity.
      * rewrite (bind_raise _ _ s0 e s1).
        -- cbn [snd map]. exact Hd.
        -- unfold try_except. rewrite (bind_raise _ _ _ _ _ E), Ee. reflexivity.
Qed.

Lemma attempted_all (years : list Z) :
  first_uncaught L net api_key years = None ->
  attempted_years L net api_key years = years.
Proof.
  induction years as [|y years IH]; cbn; [reflexivity|].
  destruct (fetch_outcome L net y api_key) as [df|e].
  - intros H. now rewrite IH.
  - destruct (is_HTTPError e); [|discriminate]. intros H. now rewrite IH.
Qed.
End Requests.

Lemma range_empty (start stop : Z) : stop <= start -> range start stop = [].
Proof.
  intros H. unfold range. replace (Z.to_nat (stop - start)) with 0%nat by lia.
  reflexivity.
Qed.

Lemma range_ascending (start stop : Z) : StronglySorted Z.lt (range start stop).
Proof.
  unfold range. generalize (Z.to_nat (stop - start)) as n. intros n.
  generalize 0%nat as k. induction n as [|n IH]; intros k; cbn; [constructor|].
  constructor; [apply IH|].
  rewrite Forall_forall. intros z Hz. apply in_map_iff in Hz as (i & <- & Hi).
  apply in_seq in Hi. lia.
Qed.

(** X6: the multi-year fetch requests the yearly endpoints one after the
    other in ascending year order, each year at most once, from the start
    year up to the end year or up to the first year whose exception the loop
    does not catch; it makes no other request.  When no such exception
    occurs every year of the range is requested exactly once. *)
Theorem fetch_many_years_requests {G} (L : Lib G) (net : Net G) (start end_ : Z)
    (api_key : string) (s : state G) :
  downloads (trace (snd (fetch_many_years L net start end_ api_key s)))
  = (downloads (trace s)
     ++ map census_acs5_url
          (attempted_years L net api_key (range start (end_ + 1))))%list
  /\ StronglySorted Z.lt (range start (end_ + 1))
  /\ (forall y, In y (range start (end_ + 1)) <-> start <= y <= end_)
  /\ (first_uncaught L net api_key (range start (end_ + 1)) = None ->
      attempted_years L net api_key (range start (end_ + 1)) = range start (end_ + 1)).
Proof.
  split; [|split; [apply range_ascending|split; [|apply attempted_all]]].
  - unfold fetch_many_years, bind.
    pose proof (fetch_years_downloads L net api_key (range start (end_ + 1)) [] s) as H.
    destruct (fetch_years L net api_key (range start (end_ + 1)) [] s) as [[frames|e] s1];
      exact H.
  - intros y. unfold range. rewrite in_map_iff. split.
    + intros (i & <- & Hi). apply in_seq in Hi. lia.
    + intros Hy. exists (Z.to_nat (y - start)). split; [lia|]. apply in_seq. lia.
Qed.

(** X7: for an empty year range (end year before start year) the multi-year
    fetch raises the exception of the concatenation of no frames, without a
    request, a printed line or any other effect. *)
Theorem fetch_many_years_empty_range {G} (L : Lib G) (net : Net G) (start end_ : Z)
    (api_key : string) (s : state G) :
  end_ < start ->
  fetch_many_years L net start end_ api_key s
  = (Raise (ValueError "No objects to concatenate"), s).
Proof.
  intros H. unfold fetch_many_years. rewrite range_empty by lia. reflexivity.
Qed.

(** X7 at work: start 2024, end 2023. *)
Lemma fetch_many_years_empty_range_witness :
  fetch_many_years box_lib pipeline_net 2024 2023 "KEY" (init_state empty_fs)
  = (Raise (ValueError "No objects to concatenate"), init_state empty_fs).
Proof.
  apply (fetch_many_years_empty_range box_lib pipeline_net 2024 2023). lia.
Defined.

(* ------------------------------------------------------------------------- *)
(** ** Download and extraction of the archive *)














(* ------------------------------------------------------------------------- *)
(** ** Extraction of the archive *)




(* ------------------------------------------------------------------------- *)
(** ** A failed download is not cached *)



(* ------------------------------------------------------------------------- *)
(** ** The rows of the unit-year table *)

(** X11: the unit-year table has one row, and only one, for every key
    (unit code, unit name, year) to which an estimate contributes, and no
    other row; without rent records, or with an empty crosswalk, it has no
    row at all. *)
Theorem aggregate_one_row_per_group (rents : list rent_row) (cross : list cross_row) :
  NoDup (map ny_key (aggregate_to_nta rents cross))
  /\ (forall k, In k (map ny_key (aggregate_to_nta rents cross))
                <-> contributing_estimates rents cross k <> [])
  /\ aggregate_to_nta [] cross = []
  /\ aggregate_to_nta rents [] = [].
Proof.
  assert (Hk : forall r c, ny_key (let '(c0, n, y) := (c : group_key) in
                                   mkNtaYear c0 n y (median (group_values r c))) = c).
  { intros r [[c n] y]. reflexivity. }
  split; [|split; [apply aggregate_keys|split; [reflexivity|]]].
  - unfold aggregate_to_nta. rewrite map_map.
    rewrite map_ext with (g := fun k => k); [|intros; apply Hk].
    rewrite map_id. apply group_keys_NoDup.
  - destruct (aggregate_to_nta rents []) as [|row l] eqn:E; [reflexivity|exfalso].
    assert (Hin : In (ny_key row) (map ny_key (aggregate_to_nta rents []))).
    { rewrite E. now left. }
    apply aggregate_keys in Hin. apply Hin.
    destruct (ny_key row) as [[c n] y]. unfold contributing_estimates, unit_hits.
    cbn [filter map]. clear. induction rents as [|r rents IH]; [reflexivity|].
    cbn [flat_map]. rewrite IH. now destruct (year r =? y).
Qed.

Lemma is_nan_eq (x : float) : PrimFloat.is_nan x = true -> x = NaN.
Proof.
  unfold PrimFloat.is_nan, NaN. rewrite eqb_spec. intros H.
  apply Prim2SF_inj. change (Prim2SF nan) with S754_nan.
  destruct (Prim2SF x) as [s|s| |s m e]; try reflexivity; exfalso.
  - discriminate.
  - unfold SFeqb, SFcompare in H. destruct s; discriminate.
  - unfold SFeqb, SFcompare in H. rewrite Z.compare_refl in H.
    change (PosDef.Pos.compare_cont Eq m m) with (Pos.compare m m) in H.
    rewrite Pos.compare_refl in H. destruct s; discriminate.
Qed.

Lemma nan_mul (y : float) : (NaN * y)%float = NaN.
Proof. apply Prim2SF_inj. rewrite mul_spec. reflexivity. Qed.

(** The median of two values is the mean of the two, up to the sign of a
    zero, and exactly that mean when the two do not compare equal. *)
Lemma pair_mean (a b : float) :
  notna a = true -> notna b = true ->
  same_number (((if PrimFloat.ltb a b then b else a)
                + (if PrimFloat.ltb b a then b else a)) / 2)%float
              ((a + b) / 2)%float
  /\ (PrimFloat.eqb a b = false ->
      (((if PrimFloat.ltb a b then b else a)
        + (if PrimFloat.ltb b a then b else a)) / 2)%float = ((a + b) / 2)%float).
Proof.
  intros Ha Hb.
  destruct (PrimFloat.ltb a b) eqn:Eab.
  - rewrite (ltb_asym _ _ Eab), (float_add_comm b a).
    split; [apply same_number_refl|reflexivity].
  - destruct (PrimFloat.ltb b a) eqn:Eba.
    + split; [apply same_number_refl|reflexivity].
    + pose proof (not_ltb_eqb a b Ha Hb Eab Eba) as E. split.
      * apply mean_same; [|exact E]. apply (not_ltb_eqb a a Ha Ha); apply ltb_irrefl.
      * intros H. rewrite H in E. discriminate.
Qed.

(** X12: a unit-year to which exactly one estimate contributes takes that
    estimate unchanged, a missing one included.  A unit-year with two
    estimates, neither missing, takes the larger added to the smaller and
    the sum halved, where the first estimate counts as both when neither is
    less than the other: this is the mean of the two when they do not
    compare equal, and the same number as the mean in any case, with the
    sign of the first estimate when both are zero. *)
Theorem aggregate_small_groups (rents : list rent_row) (cross : list cross_row)
    (c n : string) (y : Z) :
  (forall x, contributing_estimates rents cross (c, n, y) = [x] ->
     filter (fun row => key_eqb (c, n, y) (ny_key row)) (aggregate_to_nta rents cross)
     = [mkNtaYear c n y x])
  /\ (forall a b, contributing_estimates rents cross (c, n, y) = [a; b] ->
        notna a = true -> notna b = true ->
        filter (fun row => key_eqb (c, n, y) (ny_key row)) (aggregate_to_nta rents cross)
        = [mkNtaYear c n y
             (((if PrimFloat.ltb a b then b else a)
               + (if PrimFloat.ltb b a then b else a)) / 2)%float]
        /\ same_number (((if PrimFloat.ltb a b then b else a)
                         + (if PrimFloat.ltb b a then b else a)) / 2)%float
                       ((a + b) / 2)%float
        /\ (PrimFloat.eqb a b = false ->
            (((if PrimFloat.ltb a b then b else a)
              + (if PrimFloat.ltb b a then b else a)) / 2)%float = ((a + b) / 2)%float))
  /\ aggregate_to_nta [mkRent (Some "36005000100") 2019 (-0)%float;
                       mkRent (Some "36005000200") 2019 0%float] three_tract_cross
     = [mkNtaYear "BX01" "Claremont" 2019 (-0)%float]
  /\ aggregate_to_nta [mkRent (Some "36005000100") 2019 0%float;
                       mkRent (Some "36005000200") 2019 (-0)%float] three_tract_cross
     = [mkNtaYear "BX01" "Claremont" 2019 0%float].
Proof.
  split; [|split; [|split; vm_compute; reflexivity]].
  - intros x H. rewrite aggregate_rows_of_key by (rewrite H; discriminate).
    now rewrite H, median_single.
  - intros a b H Ha Hb. split; [|now apply pair_mean].
    rewrite aggregate_rows_of_key by (rewrite H; discriminate).
    now rewrite H, median_pair.
Qed.

(** X12 at work: one tract in the unit, and two tracts in the unit. *)
Lemma aggregate_small_groups_witness :
  aggregate_to_nta [mkRent (Some "36005000100") 2019 1000] three_tract_cross
  = [mkNtaYear "BX01" "Claremont" 2019 1000]
  /\ filter (fun row => key_eqb ("BX01", "Claremont", 2019) (ny_key row))
            (aggregate_to_nta [mkRent (Some "36005000100") 2019 1400;
                               mkRent (Some "36005000200") 2019 1000] three_tract_cross)
     = [mkNtaYear "BX01" "Claremont" 2019 1200].
Proof.
  split; [reflexivity|].
  exact (proj1 (proj1 (proj2 (aggregate_small_groups
                  [mkRent (Some "36005000100") 2019 1400;
                   mkRent (Some "36005000200") 2019 1000] three_tract_cross
                  "BX01" "Claremont" 2019))
               1400%float 1000%float eq_refl eq_refl eq_refl)).
Defined.

(** X13: the inflation adjustment keeps a missing value missing: when it
    succeeds, every row whose raw value is NaN has an adjusted value of NaN,
    whatever the index values are. *)
Theorem cpi_adjust_keeps_missing (cpi : list (Z * float)) (base_year : Z)
    (df : list nta_year_row) (out : list adj_row) :
  cpi_adjust_with cpi base_year df = Ok out ->
  Forall2 (fun r a => adj_rent a = ny_rent r
                      /\ (PrimFloat.is_nan (ny_rent r) = true ->
                          PrimFloat.is_nan (rent_adj a) = true))
          df out.
Proof.
  unfold cpi_adjust_with.
  destruct (in_index cpi base_year); cbn [negb]; [|discriminate].
  destruct (loc cpi base_year) as [base|e]; cbn [result_bind]; [|discriminate].
  assert (Hgen : forall l vs,
             apply_rows (adjust_row cpi base) l = Ok vs ->
             Forall2 (fun r a => adj_rent a = ny_rent r
                                 /\ (PrimFloat.is_nan (ny_rent r) = true ->
                                     PrimFloat.is_nan (rent_adj a) = true))
                     l
                     (map (fun rv => mkAdj (ny_code (fst rv)) (ny_name (fst rv))
                                           (ny_year (fst rv)) (ny_rent (fst rv)) (snd rv))
                          (combine l vs))).
  { intros l vs Ea. apply apply_rows_Forall2 in Ea.
    induction Ea as [|r v l vs Hr _ IH]; cbn [combine map]; constructor; [|exact IH].
    cbn [fst snd adj_rent rent_adj]. split; [reflexivity|].
    intros Hnan. unfold adjust_row in Hr.
    destruct (loc cpi (ny_year r)) as [c|e]; cbn in Hr; [|discriminate].
    injection Hr as <-. now rewrite (is_nan_eq _ Hnan), nan_mul. }
  unfold assign_rent_adj. destruct df as [|r0 df0]; [discriminate|].
  destruct (apply_rows (adjust_row cpi base) (r0 :: df0)) as [vs|e] eqn:Ea;
    cbn [result_bind]; [|discriminate].
  intros H. injection H as <-. exact (Hgen _ _ Ea).
Qed.

(** X13 at work: a unit-year without value among the rows. *)
Lemma cpi_adjust_keeps_missing_witness :
  Forall2 (fun r a => adj_rent a = ny_rent r
                      /\ (PrimFloat.is_nan (ny_rent r) = true ->
                          PrimFloat.is_nan (rent_adj a) = true))
          [mkNtaYear "BX01" "Claremont" 2019 NaN; mkNtaYear "BX02" "Bathgate" 2019 1000]
          [mkAdj "BX01" "Claremont" 2019 NaN NaN; mkAdj "BX02" "Bathgate" 2019 1000 1500].
Proof.
  apply (cpi_adjust_keeps_missing [(2019, 100%float); (2025, 150%float)] 2025).
  reflexivity.
Defined.

(* ------------------------------------------------------------------------- *)
(** ** The export *)

Lemma to_crs_crs {G R} (L : Lib G) (geom : R -> G) (set_geom : R -> G -> R)
    (target : string) (gf : geoframe R) :
  crs (to_crs L geom set_geom target gf) = target.
Proof.
  unfold to_crs. destruct (String.eqb_spec (crs gf) target); [assumption|reflexivity].
Qed.


(** [wide_to_geojson] in one equation. *)
Lemma wide_to_geojson_run {G} (L : Lib G) (wide : wide_table)
    (ntas_gdf : geoframe (nta_row G)) (out_path : string) (s : state G) :
  wide_to_geojson L wide ntas_gdf out_path s
  = match fs_write (fs s) out_path
            (Plain (GeoJSON "EPSG:4326" (export_features L wide ntas_gdf))) with
    | Ok f' => (Ok tt, mkState f' (trace s ++ [ToFile out_path;
                                               Print ("Wrote " ++ out_path)])%list)
    | Raise e => (Raise e, s)
    end.
Proof.
  unfold wide_to_geojson. rewrite to_crs_crs. fold (export_features L wide ntas_gdf).
  unfold to_file, bind, get_fs, lift, emit, put_fs, print, emit. cbn [fst snd fs trace].
  destruct (fs_write (fs s) out_path _); [|reflexivity].
  cbn [fst snd fs trace]. rewrite <- List.app_assoc. reflexivity.
Qed.




(* ------------------------------------------------------------------------- *)
(** ** The whole run *)

Lemma gentle_cpi_adjust {G} (keep : string -> bool) (df : list nta_year_row)
    (p : string) (base_year : Z) :
  gentle keep (@cpi_adjust G df p base_year).
Proof.
  unfold cpi_adjust, read_cpi.
  apply gentle_bind; [|intros; apply gentle_lift].
  apply gentle_bind; [apply gentle_get_fs|intros f].
  destruct (lookup_file (files f) p) as [[[]|]|];
    first [apply gentle_ret | apply gentle_raise].
Qed.

Lemma gentle_print_text {G} (keep : string -> bool) (L : Lib G) (line : string) :
  gentle keep (print_text L line).
Proof.
  unfold print_text. destruct (stdout_encodes L line);
    [apply gentle_print|apply gentle_raise].
Qed.

Lemma app_one_neq {A} (l : list A) (x : A) : l <> (l ++ [x])%list.
Proof.
  intros H. apply (f_equal (@List.length A)) in H. rewrite length_app in H. cbn in H. lia.
Qed.

Lemma exports_after_gentle {G A B} (keep : string -> bool) (out : string)
    (c : M G A) (k : A -> M G B) :
  gentle keep c ->
  (forall a, exports_only keep out (k a)) ->
  exports_only keep out (bind c k).
Proof.
  intros Hc Hk s. unfold bind. destruct (Hc s) as (F & E & _).
  destruct (c s) as [[a|e] s1]; cbn [fst snd] in *.
  - destruct (Hk a s1) as (H1 & H2 & H3 & H4). rewrite E in H1, H2, H3.
    split; [exact H1|]. split; [exact H2|]. split; [exact H3|].
    intros q Hq Hne. now rewrite H4, F.
  - split; [now left|]. split; [discriminate|]. split.
    + intros H. rewrite E in H. now apply app_one_neq in H.
    + intros q Hq _. now apply F.
Qed.

Lemma exports_of_export {G} (keep : string -> bool) (L : Lib G) (wide : wide_table)
    (ntas_gdf : geoframe (nta_row G)) (out_path line : string) :
  exports_only keep out_path
    (wide_to_geojson L wide ntas_gdf out_path ;;; print_text L line).
Proof.
  intros s. unfold bind. rewrite wide_to_geojson_run.
  destruct (fs_write (fs s) out_path _) as [f'|e] eqn:E; cbn [fst snd is_ok].
  - assert (Hx : exports (trace s ++ [ToFile out_path; Print ("Wrote " ++ out_path)])
                 = (exports (trace s) ++ [out_path])%list).
    { unfold exports. rewrite flat_map_app. reflexivity. }
    assert (Hrun : exports (trace (snd (print_text L line
                      (mkState f' (trace s ++ [ToFile out_path;
                                               Print ("Wrote " ++ out_path)])%list))))
                   = (exports (trace s) ++ [out_path])%list
                   /\ fs (snd (print_text L line
                      (mkState f' (trace s ++ [ToFile out_path;
                                               Print ("Wrote " ++ out_path)])%list))) = f').
    { unfold print_text. destruct (stdout_encodes L line).
      - unfold print, emit. cbn [fst snd fs trace]. split; [|reflexivity].
        unfold exports in *. rewrite flat_map_app, Hx. cbn. now rewrite List.app_nil_r.
      - unfold raise. cbn [fst snd fs trace]. now split. }
    destruct Hrun as [Hexp Hfs]. rewrite Hexp, Hfs.
    split; [now right|]. split; [reflexivity|]. split.
    + intros _. eexists. exact (fs_write_same _ _ _ _ E).
    + intros q _ Hne. apply (fs_write_lookup _ _ _ _ _ E). congruence.
  - split; [now left|]. split; [discriminate|]. split.
    + intros H. now apply app_one_neq in H.
    + reflexivity.
Qed.

(** X15: a run of [main] exports at most once, and only the output path.
    When it returns it has exported; once it has exported, returning or
    not, the output path holds a feature collection in EPSG:4326; and every
    file outside the geometry cache [data/tiger/], other than the output
    path, is left as it was in any case.  A run can raise after the export:
    with a standard output in ASCII the last line cannot be printed, and
    the run raises with the output file written. *)
Theorem main_exports_at_most_once :
  (forall G (L : Lib G) (net : Net G) (a : args),
      exports_only outside_tiger (out a) (main L net a))
  /\ (let r := main ascii_stdout_lib pipeline_net run_args (mkState fs_cpi []) in
      fst r = Raise (UnicodeEncodeError "codec can't encode characters")
      /\ exports (trace (snd r)) = ["data/nta_rents.geojson"]
      /\ is_file (fs (snd r)) "data/nta_rents.geojson" = true).
Proof.
  split; [|vm_compute; repeat split; reflexivity].
  intros G L net a. unfold main.
  apply exports_after_gentle; [apply gentle_makedirs|intros _].
  apply exports_after_gentle; [apply gentle_print|intros _].
  apply exports_after_gentle; [apply gentle_fetch_many_years|intros rents].
  apply exports_after_gentle; [apply gentle_print|intros _].
  apply exports_after_gentle; [apply gentle_print|intros _].
  apply exports_after_gentle; [apply gentle_get_tiger_tracts_2020|intros tracts].
  apply exports_after_gentle; [apply gentle_get_nta2020|intros ntas].
  apply exports_after_gentle; [apply gentle_print|intros _].
  apply exports_after_gentle; [apply gentle_print|intros _].
  apply exports_after_gentle; [apply gentle_print|intros _].
  apply exports_after_gentle; [apply gentle_print|intros _].
  apply exports_after_gentle; [apply gentle_print|intros _].
  apply exports_after_gentle; [apply gentle_cpi_adjust|intros adj].
  apply exports_after_gentle; [apply gentle_print|intros _].
  apply exports_of_export.
Qed.

(** A run in which every step succeeds. *)
Example main_complete_run :
  let r := main box_lib pipeline_net run_args (mkState fs_cpi []) in
  is_ok (fst r) = true /\ exports (trace (snd r)) = ["data/nta_rents.geojson"].
Proof. vm_compute. split; reflexivity. Qed.
